(** * Resilience and settlement core of the verification hub

    A shallow embedding of the circuit breaker ([utils/circuit-breaker.ts]),
    the retry wrapper ([utils/retry.ts]), the pricing calculation
    ([config/pricing.ts], [services/usage-processor.ts]), the credit ledger
    ([services/credit-management.ts]), the credit pre-check of the usage
    tracking middleware and the multi-chain anchoring fan-out of the
    verification service, followed by the properties proved about them.

    Conventions.
    - An [async] function is a state-passing function: it takes the world
      it runs in and returns its outcome together with the world it leaves.
      A rejected promise (a [throw]) is the outcome [Err e].
    - A [Decimal] (decimal.js, as re-exported by the Prisma runtime) is
      represented by the exact rational value it denotes; [add], [sub] and
      [mul] are exact, as they are in decimal.js for operands within its
      working precision.  NaN and the infinities are not represented.
    - The lines given to [logger] are recorded for the billing and the
      verification services.  The breaker and the retry wrapper use the
      logger for nothing but reporting; those calls are left out.
    - A call to an external client (storage, cache) can fail; which calls
      fail during one service call is a parameter of that call. *)

From Stdlib Require Import ZArith QArith Qminmax Qround Lqa Lia List.
From stdpp Require Import base option gmap strings pretty.
Import ListNotations.

Set Default Proof Using "Type".
Local Open Scope Z_scope.

(* ===================================================================== *)
(** ** Outcomes and errors                                                *)
(* ===================================================================== *)

(** The settled outcome of a promise: fulfilled with a value, or rejected
    with the error that was thrown. *)
Inductive Result (E A : Type) : Type :=
| Ok (value : A)
| Err (error : E).
Arguments Ok {E A} value.
Arguments Err {E A} error.

Definition is_ok {E A} (r : Result E A) : bool :=
  match r with Ok _ => true | Err _ => false end.

(** The error classes of [utils/retry.ts] and [utils/circuit-breaker.ts],
    plus the two built-in classes the code can raise. *)
Inductive ErrorClass : Type :=
| ClassError
| ClassTypeError
| ClassCircuitBreakerOpenError
| ClassRetryableError
| ClassNonRetryableError.

(** A JavaScript [Error] object: its class (what [instanceof] tests) and
    its [message]. *)
Record JsError : Type := mkJsError {
  cls : ErrorClass;
  message : string
}.

Definition newError (msg : string) : JsError := mkJsError ClassError msg.

(** [s.includes(sub)] *)
Definition includes (sub s : string) : bool :=
  match String.index 0 sub s with Some _ => true | None => false end.

(** Ghost instrumentation: the same operation, run in a world that also
    counts how many times the operation has been invoked. *)
Definition counted {E W T : Type} (operation : W -> Result E T * W)
  : W * nat -> Result E T * (W * nat) :=
  fun wn =>
    let '(r, w') := operation (fst wn) in (r, (w', S (snd wn))).

(** *** A state-and-error monad for the [async] methods

    [St W E A] is a computation in a world [W] that returns an [A] or
    throws an [E]. *)

Definition St (W E A : Type) : Type := W -> Result E A * W.

Definition ret {W E A} (a : A) : St W E A := fun w => (Ok a, w).
Definition throw {W E A} (e : E) : St W E A := fun w => (Err e, w).
Definition bind {W E A B} (m : St W E A) (k : A -> St W E B) : St W E B :=
  fun w =>
    match m w with
    | (Ok a, w') => k a w'
    | (Err e, w') => (Err e, w')
    end.
(** [try { body } catch (error) { handler(error) }] *)
Definition tryCatch {W E A} (body : St W E A) (handler : E -> St W E A)
  : St W E A :=
  fun w =>
    match body w with
    | (Ok a, w') => (Ok a, w')
    | (Err e, w') => handler e w'
    end.

Notation "x <- m ;; k" := (bind m (fun x => k))
  (at level 100, m at next level, right associativity).

(* ===================================================================== *)
(** ** utils/circuit-breaker.ts                                           *)
(* ===================================================================== *)

Module CircuitBreaker.

Inductive CircuitBreakerState : Type := CLOSED | OPEN | HALF_OPEN.

Record CircuitBreakerOptions : Type := {
  failureThreshold : Z;
  recoveryTimeout : Z;
  monitoringPeriod : Z;
  expectedErrors : option (JsError -> bool)
}.

(** The constructor parameters ([serviceName], [options]) and the four
    private mutable fields. *)
Record t : Type := mk {
  serviceName : string;
  options : CircuitBreakerOptions;
  state : CircuitBreakerState;
  failureCount : Z;
  lastFailureTime : option Z;
  nextAttemptTime : Z
}.

(** [new CircuitBreaker(serviceName, options)] *)
Definition create (name : string) (opts : CircuitBreakerOptions) : t :=
  mk name opts CLOSED 0 None 0.

Definition CircuitBreakerOpenError (name : string) : JsError :=
  mkJsError ClassCircuitBreakerOpenError
            ("Circuit breaker is OPEN for service: " ++ name).

(** [onSuccess()] *)
Definition onSuccess (cb : t) : t :=
  let cb1 := mk (serviceName cb) (options cb) (state cb) 0
                (lastFailureTime cb) (nextAttemptTime cb) in
  match state cb1 with
  | HALF_OPEN => mk (serviceName cb1) (options cb1) CLOSED (failureCount cb1)
                    (lastFailureTime cb1) (nextAttemptTime cb1)
  | _ => cb1
  end.

(** [options.expectedErrors && !options.expectedErrors(error)]: the error
    is left out of the count. *)
Definition unexpected (opts : CircuitBreakerOptions) (error : JsError) : bool :=
  match expectedErrors opts with
  | Some classify => negb (classify error)
  | None => false
  end.

(** [onFailure(error)]; [now] is the reading of [Date.now()] in this
    synchronous block. *)
Definition onFailure (cb : t) (error : JsError) (now : Z) : t :=
  if unexpected (options cb) error then cb
  else
    let count := failureCount cb + 1 in
    match state cb with
    | HALF_OPEN =>
        mk (serviceName cb) (options cb) OPEN count (Some now)
           (now + recoveryTimeout (options cb))
    | _ =>
        if failureThreshold (options cb) <=? count
        then mk (serviceName cb) (options cb) OPEN count (Some now)
                (now + recoveryTimeout (options cb))
        else mk (serviceName cb) (options cb) (state cb) count (Some now)
                (nextAttemptTime cb)
    end.

(** The synchronous head of [execute], up to the [try]: an OPEN breaker
    rejects the call before [nextAttemptTime] and becomes HALF_OPEN from
    then on. *)
Definition admitCall (cb : t) (now : Z) : Result JsError t :=
  match state cb with
  | OPEN =>
      if now <? nextAttemptTime cb
      then Err (CircuitBreakerOpenError (serviceName cb))
      else Ok (mk (serviceName cb) (options cb) HALF_OPEN (failureCount cb)
                  (lastFailureTime cb) (nextAttemptTime cb))
  | _ => Ok cb
  end.

(** [reset()] *)
Definition reset (cb : t) : t :=
  mk (serviceName cb) (options cb) CLOSED 0 None 0.

Section Execute.
Context {W T : Type}.
(** [Date.now()] in world [w]. *)
Variable clock : W -> Z.

(** [execute(operation)].  The operation runs in the world and may change
    it (time passes, remote state changes); the breaker reads the clock
    before the call and again when the call has failed. *)
Definition execute (cb : t) (operation : W -> Result JsError T * W) (w : W)
  : Result JsError T * t * W :=
  match admitCall cb (clock w) with
  | Err e => (Err e, cb, w)
  | Ok cb1 =>
      let '(r, w') := operation w in
      match r with
      | Ok result => (Ok result, onSuccess cb1, w')
      | Err error => (Err error, onFailure cb1 error (clock w'), w')
      end
  end.

End Execute.

End CircuitBreaker.

(** The options [services/blockchain.ts] registers for each of its three
    breakers ('ethereum', 'arbitrum', 'starknet'). *)
Definition chainExpectedErrors (error : JsError) : bool :=
  includes "RPC" (message error) || includes "network" (message error).

Definition chainBreakerOptions : CircuitBreaker.CircuitBreakerOptions :=
  {| CircuitBreaker.failureThreshold := 3;
     CircuitBreaker.recoveryTimeout := 60000;
     CircuitBreaker.monitoringPeriod := 120000;
     CircuitBreaker.expectedErrors := Some chainExpectedErrors |}.

(* ===================================================================== *)
(** ** utils/retry.ts                                                     *)
(* ===================================================================== *)

Module Retry.

Record RetryOptions : Type := {
  maxAttempts : Z;
  baseDelay : Q;
  maxDelay : Q;
  backoffMultiplier : Q;
  jitter : bool
}.

Definition DEFAULT_RETRY_OPTIONS : RetryOptions :=
  {| maxAttempts := 3;
     baseDelay := 1000;
     maxDelay := 30000;
     backoffMultiplier := 2;
     jitter := true |}.

(** [Partial<RetryOptions>] *)
Record PartialRetryOptions : Type := {
  maxAttempts' : option Z;
  baseDelay' : option Q;
  maxDelay' : option Q;
  backoffMultiplier' : option Q;
  jitter' : option bool
}.

Definition noOptions : PartialRetryOptions :=
  {| maxAttempts' := None; baseDelay' := None; maxDelay' := None;
     backoffMultiplier' := None; jitter' := None |}.

(** [{ ...DEFAULT_RETRY_OPTIONS, ...options }] *)
Definition mergeOptions (options : PartialRetryOptions) : RetryOptions :=
  {| maxAttempts := default (maxAttempts DEFAULT_RETRY_OPTIONS) (maxAttempts' options);
     baseDelay := default (baseDelay DEFAULT_RETRY_OPTIONS) (baseDelay' options);
     maxDelay := default (maxDelay DEFAULT_RETRY_OPTIONS) (maxDelay' options);
     backoffMultiplier :=
       default (backoffMultiplier DEFAULT_RETRY_OPTIONS) (backoffMultiplier' options);
     jitter := default (jitter DEFAULT_RETRY_OPTIONS) (jitter' options) |}.

(** [error instanceof NonRetryableError] *)
Definition isNonRetryable (error : JsError) : bool :=
  match cls error with ClassNonRetryableError => true | _ => false end.

(** The world a retried operation runs in: the state the operation itself
    acts on, the source of [Math.random()] (the values it will return and
    how many have been drawn), and the delays handed to [setTimeout] so
    far, oldest first. *)
Record Env (S : Type) : Type := mkEnv {
  opState : S;
  rng : nat -> Q;
  draws : nat;
  slept : list Q
}.
Arguments mkEnv {S} _ _ _ _.
Arguments opState {S} _.
Arguments rng {S} _.
Arguments draws {S} _.
Arguments slept {S} _.

(** [Math.random()] *)
Definition random {S} (env : Env S) : Q * Env S :=
  (rng env (draws env),
   mkEnv (opState env) (rng env) (Datatypes.S (draws env)) (slept env)).

(** [await new Promise(resolve => setTimeout(resolve, delay))] *)
Definition sleep {S} (delay : Q) (env : Env S) : Env S :=
  mkEnv (opState env) (rng env) (draws env) (slept env ++ [delay]).

(** [await operation()] *)
Definition call {S T} (operation : S -> Result JsError T * S) (env : Env S)
  : Result JsError T * Env S :=
  let '(r, s') := operation (opState env) in
  (r, mkEnv s' (rng env) (draws env) (slept env)).

(** [Math.min(baseDelay * Math.pow(backoffMultiplier, attempt - 1), maxDelay)] *)
Definition backoffDelay (config : RetryOptions) (attempt : Z) : Q :=
  Qmin (baseDelay config * backoffMultiplier config ^ (attempt - 1))
       (maxDelay config).

(** [0.5 + Math.random() * 0.5] *)
Definition jitterFactor (r : Q) : Q := (5 # 10) + r * (5 # 10).

(** The [throw] after the loop.  With no attempt made [lastError] is
    [undefined] and reading its [message] is a TypeError. *)
Definition exhausted (config : RetryOptions) (operationName : string)
    (lastError : option JsError) : JsError :=
  match lastError with
  | Some e =>
      newError (operationName ++ " failed after "
                ++ pretty (maxAttempts config) ++ " attempts: " ++ message e)
  | None =>
      mkJsError ClassTypeError
                "Cannot read properties of undefined (reading 'message')"
  end.

Section WithRetry.
Context {S T : Type}.
Variable operation : S -> Result JsError T * S.
Variable config : RetryOptions.
Variable operationName : string.

(** The [for] loop, entered with [attempt] and with [remaining] iterations
    to go before [attempt <= config.maxAttempts] fails. *)
Fixpoint retryLoop (remaining : nat) (attempt : Z) (lastError : option JsError)
    (env : Env S) : Result JsError T * Env S :=
  match remaining with
  | O => (Err (exhausted config operationName lastError), env)
  | Datatypes.S remaining' =>
      let '(r, env1) := call operation env in
      match r with
      | Ok result => (Ok result, env1)
      | Err error =>
          if isNonRetryable error then (Err error, env1)
          else if attempt =? maxAttempts config
          then (Err (exhausted config operationName (Some error)), env1)
          else
            let delay := backoffDelay config attempt in
            let '(delay, env2) :=
              if jitter config
              then let '(r, env2) := random env1 in
                   ((delay * jitterFactor r)%Q, env2)
              else (delay, env1) in
            retryLoop remaining' (attempt + 1) (Some error) (sleep delay env2)
      end
  end.

End WithRetry.

(** [withRetry(operation, options, operationName)] *)
Definition withRetry {S T} (operation : S -> Result JsError T * S)
    (options : PartialRetryOptions) (operationName : string) (env : Env S)
  : Result JsError T * Env S :=
  let config := mergeOptions options in
  retryLoop operation config operationName
            (Z.to_nat (maxAttempts config)) 1 None env.

End Retry.

(* ===================================================================== *)
(** ** Decimal values and the billing types (types/billing.ts)            *)
(* ===================================================================== *)

Abbreviation Decimal := Q.

Module Decimal.
(** [a.lt(b)], [a.lte(b)], [a.gt(b)] *)
Definition lt (a b : Decimal) : bool := negb (Qle_bool b a).
Definition lte (a b : Decimal) : bool := Qle_bool a b.
Definition gt (a b : Decimal) : bool := negb (Qle_bool a b).
(** [new Decimal(n / d)] for two integer-valued numbers: the quotient
    itself.  (The quotient is a double and the constructor reads its
    shortest decimal rendering; that is the exact quotient whenever it has
    at most 15 significant digits, as for the sizes and durations used
    here.) *)
Definition ofQuotient (n d : Z) : Decimal := (inject_Z n / inject_Z d)%Q.
End Decimal.

Inductive CreditTransactionType : Type :=
| TOPUP | USAGE | REFUND | ADJUSTMENT | BONUS | PENALTY.

Record CreditBalance : Type := {
  balance : Decimal;
  totalAllocated : Decimal;
  totalUsed : Decimal;
  lowBalanceThreshold : option Decimal;
  autoTopupEnabled : bool;
  autoTopupAmount : option Decimal;
  isActive : bool;
  suspendedAt : option Z;
  suspensionReason : option string
}.

(** [Omit<CreditTransactionData, 'amount'>]; the free-form [metadata] is
    carried as text. *)
Record CreditTransactionData : Type := {
  type : CreditTransactionType;
  description : option string;
  reference : option string;
  metadata : option string;
  processedBy : option string
}.

Record PricingRule : Type := {
  basePrice : Decimal;
  sizeMultiplier : Decimal;
  durationMultiplier : Decimal;
  endpointPricing : option (gmap string Q);
  maxRequestSize : option Z;
  maxDuration : option Z
}.

Record PricingCalculation : Type := {
  calc_basePrice : Decimal;
  sizePrice : Decimal;
  durationPrice : Decimal;
  endpointPrice : Decimal;
  totalPrice : Decimal;
  calc_pricingTier : string
}.

(** What the billing code throws: its two typed errors with the fields
    they carry (their message is a rendering of those fields), a plain
    [new Error(message)], and an error raised by one of the clients the
    code calls (storage, cache, logger). *)
Inductive BillingError : Type :=
| InsufficientCreditsError (required available : Decimal) (userId : string)
| PricingTierNotFoundError (tierName : string)
| PlainError (message : string)
| ClientError (message : string).

(* ===================================================================== *)
(** ** The store, the caches and the log                                  *)
(* ===================================================================== *)

(** A row of the [userCredit] table.  The nine columns the service copies
    into a [CreditBalance] are kept together in [credit]. *)
Record UserCredit : Type := {
  id : nat;
  userId : string;
  credit : CreditBalance;
  updatedAt : Z
}.

(** A row of the [creditTransaction] table. *)
Record CreditTransaction : Type := {
  userCreditId : nat;
  tx_type : CreditTransactionType;
  amount : Decimal;
  balanceBefore : Decimal;
  balanceAfter : Decimal;
  tx_description : option string;
  tx_reference : option string;
  tx_metadata : option string;
  tx_processedBy : option string
}.

(** A row of the [pricingTier] table. *)
Record PricingTier : Type := {
  tier_rule : PricingRule;
  tier_isActive : bool
}.

(** The relational store: [userCredit] is unique on [userId], rows of
    [creditTransaction] are listed oldest first, [pricingTier] is unique
    on [name]; [idSeq] numbers the [userCredit] rows it creates. *)
Record Db : Type := mkDb {
  userCredit : gmap string UserCredit;
  creditTransaction : list CreditTransaction;
  pricingTier : gmap string PricingTier;
  idSeq : nat
}.

Inductive Level : Type := DEBUG | INFO | WARN | ERROR.

(** The world the billing services run in: the store, the Redis balance
    cache (key [credits:balance:<userId>], the cached JSON read back as the
    balance it encodes), the in-process pricing cache of the usage
    processor, the lines given to [logger], and the clock. *)
Record World : Type := mkWorld {
  db : Db;
  balanceCache : gmap string CreditBalance;
  pricingCache : gmap string PricingRule;
  log : list (Level * string);
  clock : Z
}.

Definition withDb (d : Db) (w : World) : World :=
  mkWorld d (balanceCache w) (pricingCache w) (log w) (clock w).
Definition withBalanceCache (c : gmap string CreditBalance) (w : World) : World :=
  mkWorld (db w) c (pricingCache w) (log w) (clock w).
Definition withPricingCache (c : gmap string PricingRule) (w : World) : World :=
  mkWorld (db w) (balanceCache w) c (log w) (clock w).
Definition withLog (l : list (Level * string)) (w : World) : World :=
  mkWorld (db w) (balanceCache w) (pricingCache w) l (clock w).

(** The places where a call to an external client can fail. *)
Inductive Site : Type :=
| RedisGet | RedisSetex | RedisDel
| UserCreditFindUnique | UserCreditCreate | UserCreditUpdate
| CreditTransactionCreate | TransactionCommit
| PricingTierFindUnique
| LowBalanceWarn | LowBalanceTopup.

(** The failures of one service call: for each site, the message of the
    error the client raises there, if it does. *)
Definition Faults : Type := Site -> option string.
Definition noFaults : Faults := fun _ => None.

(** Values of the [userCredit] columns that [createCreditAccount] leaves
    to the schema (the Prisma schema is not part of the sources). *)
Record ColumnDefaults : Type := {
  default_lowBalanceThreshold : option Decimal;
  default_autoTopupEnabled : bool;
  default_autoTopupAmount : option Decimal
}.

(** The service methods of the billing code. *)
Abbreviation M := (St World BillingError).

Definition logger (level : Level) (line : string) : M unit :=
  fun w => (Ok tt, withLog (log w ++ [(level, line)]) w).

(** A call to a client that fails when the site is marked. *)
Definition client (faults : Faults) (site : Site) : M unit :=
  fun w =>
    match faults site with
    | Some msg => (Err (ClientError msg), w)
    | None => (Ok tt, w)
    end.

(** [prisma.$transaction(async (tx) => body)]: the writes of [body] to the
    store are kept when it returns and the commit succeeds, and undone
    when it throws or the commit fails; what it did elsewhere stays. *)
Definition transaction {A} (faults : Faults) (body : M A) : M A :=
  fun w =>
    match body w with
    | (Ok a, w') =>
        match faults TransactionCommit with
        | Some msg => (Err (ClientError msg), withDb (db w) w')
        | None => (Ok a, w')
        end
    | (Err e, w') => (Err e, withDb (db w) w')
    end.

(* ===================================================================== *)
(** ** config/pricing.ts: PricingCalculator                               *)
(* ===================================================================== *)

(** [table && table[endpoint]] selects the override when it is present and
    truthy (a number other than zero); otherwise the price is
    [new Decimal(0)]. *)
Definition endpointOverride (table : option (gmap string Q)) (endpoint : string)
  : Decimal :=
  match table with
  | Some prices =>
      match prices !! endpoint with
      | Some price => if Qeq_bool price 0 then 0%Q else price
      | None => 0%Q
      end
  | None => 0%Q
  end.

Module PricingCalculator.

Record Cost : Type := {
  basePrice : Decimal;
  sizePrice : Decimal;
  durationPrice : Decimal;
  endpointPrice : Decimal;
  totalPrice : Decimal
}.

(** [PricingCalculator.calculateCost(params)] *)
Definition calculateCost (basePrice sizeMultiplier durationMultiplier : Decimal)
    (endpointPricing : option (gmap string Q)) (endpoint : string)
    (requestSize responseSize duration : Z) : Cost :=
  let baseCost := basePrice in
  let totalSize := requestSize + responseSize in
  let sizeCost := (Decimal.ofQuotient totalSize 1024 * sizeMultiplier)%Q in
  let durationCost := (Decimal.ofQuotient duration 1000 * durationMultiplier)%Q in
  let endpointCost := endpointOverride endpointPricing endpoint in
  let totalCost := (baseCost + sizeCost + durationCost + endpointCost)%Q in
  Build_Cost baseCost sizeCost durationCost endpointCost totalCost.

(** [PricingCalculator.estimateCost(params)]; the two estimates are
    optional parameters with defaults. *)
Definition estimateCost (basePrice sizeMultiplier durationMultiplier : Decimal)
    (endpointPricing : option (gmap string Q)) (endpoint : string)
    (requestSize : Z) (estimatedDuration estimatedResponseSize : option Z)
  : Decimal :=
  let duration := default 1000 estimatedDuration in
  let responseSize := default (Z.max requestSize 1024) estimatedResponseSize in
  totalPrice (calculateCost basePrice sizeMultiplier durationMultiplier
                            endpointPricing endpoint requestSize responseSize
                            duration).

End PricingCalculator.

(* ===================================================================== *)
(** ** services/usage-processor.ts: UsageProcessorService                 *)
(* ===================================================================== *)

Module UsageProcessor.

(** [performPricingCalculation(params, pricing)] *)
Definition performPricingCalculation (endpoint : string)
    (requestSize responseSize duration : Z) (pricing : PricingRule)
  : PricingCalculation :=
  let basePrice := basePrice pricing in
  let totalSize := requestSize + responseSize in
  let sizePrice := (Decimal.ofQuotient totalSize 1024 * sizeMultiplier pricing)%Q in
  let durationPrice :=
    (Decimal.ofQuotient duration 1000 * durationMultiplier pricing)%Q in
  let endpointPrice := endpointOverride (endpointPricing pricing) endpoint in
  let totalPrice := (basePrice + sizePrice + durationPrice + endpointPrice)%Q in
  Build_PricingCalculation basePrice sizePrice durationPrice endpointPrice
                           totalPrice "calculated".

Section Service.
Variable faults : Faults.

(** [prisma.pricingTier.findUnique({ where: { name, isActive: true } })] *)
Definition pricingTierFindUnique (tierName : string) : M (option PricingTier) :=
  _ <- client faults PricingTierFindUnique ;;
  fun w =>
    (Ok (match pricingTier (db w) !! tierName with
         | Some tier => if tier_isActive tier then Some tier else None
         | None => None
         end), w).

(** [getPricingRule(tierName)].  The timer that drops the cached rule
    after five minutes is not represented. *)
Definition getPricingRule (tierName : string) : M PricingRule :=
  fun w =>
    match pricingCache w !! tierName with
    | Some rule => (Ok rule, w)
    | None =>
        tryCatch
          (tier <- pricingTierFindUnique tierName ;;
           match tier with
           | None => throw (PricingTierNotFoundError tierName)
           | Some tier =>
               let rule := tier_rule tier in
               fun w1 =>
                 (Ok rule, withPricingCache (<[tierName := rule]> (pricingCache w1)) w1)
           end)
          (fun error =>
             _ <- logger ERROR "Failed to get pricing rule:" ;;
             throw error)
          w
    end.

(** [calculateCost(params)] *)
Definition calculateCost (endpoint : string) (requestSize responseSize duration : Z)
    (tierName : string) : M Decimal :=
  tryCatch
    (pricing <- getPricingRule tierName ;;
     let calculation :=
       performPricingCalculation endpoint requestSize responseSize duration pricing in
     ret (totalPrice calculation))
    (fun error =>
       _ <- logger ERROR "Failed to calculate cost:" ;;
       throw error).

(** [estimateCost(params)] *)
Definition estimateCost (endpoint : string) (requestSize estimatedDuration : Z)
    (tierName : string) : M Decimal :=
  tryCatch
    (pricing <- getPricingRule tierName ;;
     let estimatedResponseSize := Z.max requestSize 1024 in
     let calculation :=
       performPricingCalculation endpoint requestSize estimatedResponseSize
                                 estimatedDuration pricing in
     ret (totalPrice calculation))
    (fun error =>
       _ <- logger ERROR "Failed to estimate cost:" ;;
       ret 0%Q).

End Service.

End UsageProcessor.

(* ===================================================================== *)
(** ** services/credit-management.ts: CreditManagementService             *)
(* ===================================================================== *)

Module CreditManagement.

Definition cacheKey (userId : string) : string := "credits:balance:" ++ userId.

Definition setAmounts (balance' totalAllocated' totalUsed' : Decimal)
    (c : CreditBalance) : CreditBalance :=
  {| balance := balance';
     totalAllocated := totalAllocated';
     totalUsed := totalUsed';
     lowBalanceThreshold := lowBalanceThreshold c;
     autoTopupEnabled := autoTopupEnabled c;
     autoTopupAmount := autoTopupAmount c;
     isActive := isActive c;
     suspendedAt := suspendedAt c;
     suspensionReason := suspensionReason c |}.

Definition setSettings (threshold : option Decimal) (enabled : bool)
    (topup : option Decimal) (c : CreditBalance) : CreditBalance :=
  {| balance := balance c;
     totalAllocated := totalAllocated c;
     totalUsed := totalUsed c;
     lowBalanceThreshold := threshold;
     autoTopupEnabled := enabled;
     autoTopupAmount := topup;
     isActive := isActive c;
     suspendedAt := suspendedAt c;
     suspensionReason := suspensionReason c |}.

Definition setStatus (active : bool) (at_ : option Z) (reason : option string)
    (c : CreditBalance) : CreditBalance :=
  {| balance := balance c;
     totalAllocated := totalAllocated c;
     totalUsed := totalUsed c;
     lowBalanceThreshold := lowBalanceThreshold c;
     autoTopupEnabled := autoTopupEnabled c;
     autoTopupAmount := autoTopupAmount c;
     isActive := active;
     suspendedAt := at_;
     suspensionReason := reason |}.

(** The [settings] argument of [updateCreditSettings]: each field may be
    absent, and an absent field leaves its column alone. *)
Record CreditSettings : Type := {
  set_lowBalanceThreshold : option Decimal;
  set_autoTopupEnabled : option bool;
  set_autoTopupAmount : option Decimal
}.

Section Service.
Variable faults : Faults.
Variable defaults : ColumnDefaults.

(** *** Storage and cache primitives *)

(** [(tx || prisma).userCredit.findUnique({ where: { userId } })] *)
Definition userCreditFindUnique (uid : string) : M (option UserCredit) :=
  _ <- client faults UserCreditFindUnique ;;
  fun w => (Ok (userCredit (db w) !! uid), w).

(** The [data] of [createCreditAccount]: zero amounts and an active
    account; the other columns take the schema's values. *)
Definition newAccountData : CreditBalance :=
  {| balance := 0;
     totalAllocated := 0;
     totalUsed := 0;
     lowBalanceThreshold := default_lowBalanceThreshold defaults;
     autoTopupEnabled := default_autoTopupEnabled defaults;
     autoTopupAmount := default_autoTopupAmount defaults;
     isActive := true;
     suspendedAt := None;
     suspensionReason := None |}.

(** [userCredit.create({ data })] with the data of
    [createCreditAccount]; a second row for the same user violates the
    unique key. *)
Definition userCreditCreate (uid : string) : M UserCredit :=
  _ <- client faults UserCreditCreate ;;
  fun w =>
    match userCredit (db w) !! uid with
    | Some _ => (Err (ClientError "Unique constraint failed on the fields: (`userId`)"), w)
    | None =>
        let row :=
          {| id := idSeq (db w);
             userId := uid;
             credit := newAccountData;
             updatedAt := clock w |} in
        (Ok row,
         withDb (mkDb (<[uid := row]> (userCredit (db w)))
                      (creditTransaction (db w))
                      (pricingTier (db w))
                      (Datatypes.S (idSeq (db w)))) w)
    end.

(** [userCredit.update({ where: { userId }, data })]: [change] applies
    [data] to the columns; [updatedAt] is always part of it. *)
Definition userCreditUpdate (uid : string) (change : CreditBalance -> CreditBalance)
  : M UserCredit :=
  _ <- client faults UserCreditUpdate ;;
  fun w =>
    match userCredit (db w) !! uid with
    | None => (Err (ClientError "Record to update not found."), w)
    | Some row =>
        let row' :=
          {| id := id row; userId := userId row;
             credit := change (credit row); updatedAt := clock w |} in
        (Ok row',
         withDb (mkDb (<[uid := row']> (userCredit (db w)))
                      (creditTransaction (db w))
                      (pricingTier (db w))
                      (idSeq (db w))) w)
    end.

(** [creditTransaction.create({ data })] *)
Definition creditTransactionCreate (row : CreditTransaction) : M unit :=
  _ <- client faults CreditTransactionCreate ;;
  fun w =>
    (Ok tt,
     withDb (mkDb (userCredit (db w))
                  (creditTransaction (db w) ++ [row])
                  (pricingTier (db w))
                  (idSeq (db w))) w).

Definition redisGet (key : string) : M (option CreditBalance) :=
  _ <- client faults RedisGet ;;
  fun w => (Ok (balanceCache w !! key), w).

Definition redisSetex (key : string) (value : CreditBalance) : M unit :=
  _ <- client faults RedisSetex ;;
  fun w => (Ok tt, withBalanceCache (<[key := value]> (balanceCache w)) w).

Definition redisDel (key : string) : M unit :=
  _ <- client faults RedisDel ;;
  fun w => (Ok tt, withBalanceCache (delete key (balanceCache w)) w).

(** *** Private helpers *)

(** [createCreditAccount(userId, tx)] *)
Definition createCreditAccount (uid : string) : M UserCredit :=
  userCreditCreate uid.

(** [clearBalanceCache(userId)] *)
Definition clearBalanceCache (uid : string) : M unit :=
  tryCatch
    (redisDel (cacheKey uid))
    (fun error => logger WARN "Failed to clear balance cache:").

(** [handleLowBalance(userId, userCredit)]; each of the two logger calls
    of the [try] block is a site that can fail. *)
Definition handleLowBalance (uid : string) (row : UserCredit) : M unit :=
  tryCatch
    (_ <- client faults LowBalanceWarn ;;
     _ <- logger WARN "Low balance detected:" ;;
     if autoTopupEnabled (credit row) && bool_decide (is_Some (autoTopupAmount (credit row)))
     then
       _ <- client faults LowBalanceTopup ;;
       logger INFO "Auto-topup triggered:"
     else ret tt)
    (fun error => logger ERROR "Failed to handle low balance:").

(** *** Public methods *)

(** [getBalance(userId)] *)
Definition getBalance (uid : string) : M CreditBalance :=
  tryCatch
    (cached <- redisGet (cacheKey uid) ;;
     match cached with
     | Some cachedBalance => ret cachedBalance
     | None =>
         found <- userCreditFindUnique uid ;;
         row <- match found with
                | Some row => ret row
                | None => createCreditAccount uid
                end ;;
         let result := credit row in
         _ <- redisSetex (cacheKey uid) result ;;
         ret result
     end)
    (fun error =>
       _ <- logger ERROR "Failed to get credit balance:" ;;
       throw error).

Definition transactionRow (row : UserCredit) (amount : Decimal)
    (balanceBefore balanceAfter : Decimal) (data : CreditTransactionData)
  : CreditTransaction :=
  {| userCreditId := id row;
     tx_type := type data;
     amount := amount;
     balanceBefore := balanceBefore;
     balanceAfter := balanceAfter;
     tx_description := description data;
     tx_reference := reference data;
     tx_metadata := metadata data;
     tx_processedBy := processedBy data |}.

(** [addCredits(userId, amount, transactionData)] *)
Definition addCredits (uid : string) (amount : Decimal)
    (transactionData : CreditTransactionData) : M CreditBalance :=
  tryCatch
    (transaction faults
       (found <- userCreditFindUnique uid ;;
        row <- match found with
               | Some row => ret row
               | None => createCreditAccount uid
               end ;;
        let balanceBefore := balance (credit row) in
        let balanceAfter := (balanceBefore + amount)%Q in
        updatedCredit <-
          userCreditUpdate uid
            (fun c => setAmounts balanceAfter
                                 (totalAllocated (credit row) + amount)%Q
                                 (totalUsed c) c) ;;
        _ <- creditTransactionCreate
               (transactionRow updatedCredit amount balanceBefore balanceAfter
                               transactionData) ;;
        _ <- clearBalanceCache uid ;;
        _ <- logger INFO "Credits added successfully:" ;;
        ret (credit updatedCredit)))
    (fun error =>
       _ <- logger ERROR "Failed to add credits:" ;;
       throw error).

(** [deductCredits(userId, amount, transactionData)] *)
Definition deductCredits (uid : string) (amount : Decimal)
    (transactionData : CreditTransactionData) : M CreditBalance :=
  tryCatch
    (transaction faults
       (found <- userCreditFindUnique uid ;;
        match found with
        | None => throw (PlainError ("Credit account not found for user: " ++ uid))
        | Some row =>
            if negb (isActive (credit row))
            then throw (PlainError ("Credit account suspended for user: " ++ uid))
            else
              let balanceBefore := balance (credit row) in
              if Decimal.lt balanceBefore amount
              then throw (InsufficientCreditsError amount balanceBefore uid)
              else
                let balanceAfter := (balanceBefore - amount)%Q in
                updatedCredit <-
                  userCreditUpdate uid
                    (fun c => setAmounts balanceAfter (totalAllocated c)
                                         (totalUsed (credit row) + amount)%Q c) ;;
                _ <- creditTransactionCreate
                       (transactionRow updatedCredit amount balanceBefore
                                       balanceAfter transactionData) ;;
                _ <- clearBalanceCache uid ;;
                _ <- match lowBalanceThreshold (credit updatedCredit) with
                     | Some threshold =>
                         if Decimal.lte balanceAfter threshold
                         then handleLowBalance uid updatedCredit
                         else ret tt
                     | None => ret tt
                     end ;;
                _ <- logger DEBUG "Credits deducted successfully:" ;;
                ret (credit updatedCredit)
        end))
    (fun error =>
       _ <- logger ERROR "Failed to deduct credits:" ;;
       throw error).

(** [updateCreditSettings(userId, settings)] *)
Definition updateCreditSettings (uid : string) (settings : CreditSettings)
  : M CreditBalance :=
  tryCatch
    (updatedCredit <-
       userCreditUpdate uid
         (fun c =>
            setSettings
              (match set_lowBalanceThreshold settings with
               | Some t => Some t | None => lowBalanceThreshold c end)
              (default (autoTopupEnabled c) (set_autoTopupEnabled settings))
              (match set_autoTopupAmount settings with
               | Some a => Some a | None => autoTopupAmount c end)
              c) ;;
     _ <- clearBalanceCache uid ;;
     ret (credit updatedCredit))
    (fun error =>
       _ <- logger ERROR "Failed to update credit settings:" ;;
       throw error).

(** The zero-amount row [suspendAccount] and [reactivateAccount] record. *)
Definition statusRow (row : UserCredit) (kind : CreditTransactionType)
    (text : string) (by_ : option string) : CreditTransaction :=
  {| userCreditId := id row;
     tx_type := kind;
     amount := 0;
     balanceBefore := balance (credit row);
     balanceAfter := balance (credit row);
     tx_description := Some text;
     tx_reference := None;
     tx_metadata := None;
     tx_processedBy := by_ |}.

(** [suspendAccount(userId, reason, suspendedBy)] *)
Definition suspendAccount (uid reason : string) (suspendedBy : option string)
  : M unit :=
  tryCatch
    (now <- (fun w => (Ok (clock w), w)) ;;
     _ <- userCreditUpdate uid (setStatus false (Some now) (Some reason)) ;;
     found <- userCreditFindUnique uid ;;
     _ <- match found with
          | Some row =>
              creditTransactionCreate
                (statusRow row PENALTY ("Account suspended: " ++ reason) suspendedBy)
          | None => ret tt
          end ;;
     _ <- clearBalanceCache uid ;;
     logger WARN "Credit account suspended:")
    (fun error =>
       _ <- logger ERROR "Failed to suspend credit account:" ;;
       throw error).

(** [reactivateAccount(userId, reactivatedBy)] *)
Definition reactivateAccount (uid : string) (reactivatedBy : option string)
  : M unit :=
  tryCatch
    (_ <- userCreditUpdate uid (setStatus true None None) ;;
     found <- userCreditFindUnique uid ;;
     _ <- match found with
          | Some row =>
              creditTransactionCreate
                (statusRow row ADJUSTMENT "Account reactivated" reactivatedBy)
          | None => ret tt
          end ;;
     _ <- clearBalanceCache uid ;;
     logger INFO "Credit account reactivated:")
    (fun error =>
       _ <- logger ERROR "Failed to reactivate credit account:" ;;
       throw error).

End Service.

End CreditManagement.

(** The calls the ledger offers, and a call run for its effect. *)
Inductive LedgerCall : Type :=
| GetBalance (uid : string)
| AddCredits (uid : string) (amount : Decimal) (data : CreditTransactionData)
| DeductCredits (uid : string) (amount : Decimal) (data : CreditTransactionData)
| UpdateCreditSettings (uid : string) (settings : CreditManagement.CreditSettings)
| SuspendAccount (uid reason : string) (suspendedBy : option string)
| ReactivateAccount (uid : string) (reactivatedBy : option string).

Definition runLedgerCall (faults : Faults) (defaults : ColumnDefaults)
    (call : LedgerCall) : M unit :=
  match call with
  | GetBalance uid =>
      _ <- CreditManagement.getBalance faults defaults uid ;; ret tt
  | AddCredits uid amount data =>
      _ <- CreditManagement.addCredits faults defaults uid amount data ;; ret tt
  | DeductCredits uid amount data =>
      _ <- CreditManagement.deductCredits faults uid amount data ;; ret tt
  | UpdateCreditSettings uid settings =>
      _ <- CreditManagement.updateCreditSettings faults uid settings ;; ret tt
  | SuspendAccount uid reason suspendedBy =>
      CreditManagement.suspendAccount faults uid reason suspendedBy
  | ReactivateAccount uid reactivatedBy =>
      CreditManagement.reactivateAccount faults uid reactivatedBy
  end.

(** The account figures of a user as the store has them; a user without
    an account has none, read as zero. *)
Definition balanceOf (d : Db) (uid : string) : Decimal :=
  match userCredit d !! uid with Some row => balance (credit row) | None => 0%Q end.


(** No storage call of a ledger transaction fails. *)
Definition storageUp (faults : Faults) : Prop :=
  faults UserCreditFindUnique = None /\
  faults UserCreditCreate = None /\
  faults UserCreditUpdate = None /\
  faults CreditTransactionCreate = None /\
  faults TransactionCommit = None.

(** No call to the balance cache fails. *)
Definition cacheUp (faults : Faults) : Prop :=
  faults RedisGet = None /\ faults RedisSetex = None /\ faults RedisDel = None.

(** Every cached balance belongs to a user who has an account. *)
Definition cacheBacked (w : World) : Prop :=
  forall uid,
    is_Some (balanceCache w !! CreditManagement.cacheKey uid) ->
    is_Some (userCredit (db w) !! uid).

(* ===================================================================== *)
(** ** middleware/usage-tracking.ts: the credit pre-check                 *)
(* ===================================================================== *)

Module UsageTracking.

Section Middleware.
Variable faults : Faults.
Variable defaults : ColumnDefaults.

(** [estimateRequestCost(request, pricingTier)].  Of the request, the
    estimate reads its size ([getRequestSize]) and its normalised path
    ([normalizeEndpoint]); these two values stand for the request. *)
Definition estimateRequestCost (endpoint : string) (requestSize : Z)
    (tierName : string) : M Decimal :=
  tryCatch
    (UsageProcessor.estimateCost faults endpoint requestSize 1000 tierName)
    (fun error =>
       _ <- logger WARN "Failed to estimate request cost:" ;;
       ret 0%Q).

(** [preCheckCredits(request, userId, pricingTier)] *)
Definition preCheckCredits (endpoint : string) (requestSize : Z)
    (uid tierName : string) : M unit :=
  estimatedCost <- estimateRequestCost endpoint requestSize tierName ;;
  if Decimal.gt estimatedCost 0
  then
    account <- CreditManagement.getBalance faults defaults uid ;;
    if Decimal.lt (balance account) estimatedCost
    then throw (InsufficientCreditsError estimatedCost (balance account) uid)
    else ret tt
  else ret tt.

End Middleware.

End UsageTracking.

(* ===================================================================== *)
(** ** services/blockchain.ts and services/verification.ts: anchoring     *)
(* ===================================================================== *)

Module Verification.

(** [PromiseSettledResult<T>] *)
Inductive Settled (A : Type) : Type :=
| Fulfilled (value : A)
| Rejected (reason : JsError).
Arguments Fulfilled {A} value.
Arguments Rejected {A} reason.

Definition status {A} (r : Settled A) : string :=
  match r with Fulfilled _ => "fulfilled" | Rejected _ => "rejected" end.

(** [Promise.allSettled(promises)] for promises created in list order:
    every call runs, whatever the others did, and the results come in the
    order of the calls. *)
Fixpoint allSettled {C A} (calls : list (C -> Result JsError A * C)) (c : C)
  : list (Settled A) * C :=
  match calls with
  | [] => ([], c)
  | call :: rest =>
      let '(r, c1) := call c in
      let '(settled, c2) := allSettled rest c1 in
      (match r with Ok v => Fulfilled v | Err e => Rejected e end :: settled, c2)
  end.

(** The three anchor methods of [BlockchainService] have one shape: throw
    when the chain is not configured, otherwise send the transaction and
    return its hash, rethrowing a failure under the chain's name. *)
Definition anchorTo {C} (chainName : string) (configured : bool)
    (send : string -> C -> Result JsError string * C)
    (verificationHash : string) (c : C) : Result JsError string * C :=
  if negb configured
  then (Err (newError (chainName ++ " configuration not available")), c)
  else
    match send verificationHash c with
    | (Ok txHash, c') => (Ok txHash, c')
    | (Err e, c') =>
        (Err (newError (chainName ++ " anchoring failed: " ++ message e)), c')
    end.

(** The columns of a [proof] row that anchoring writes. *)
Record ProofRow : Type := {
  proof_submissionId : string;
  ethereumTxHash : option string;
  arbitrumTxHash : option string;
  starknetTxHash : option string
}.

(** The [updateData] object: a column is present when its chain's call
    was fulfilled. *)
Record UpdateData : Type := {
  set_ethereumTxHash : option string;
  set_arbitrumTxHash : option string;
  set_starknetTxHash : option string
}.

(** A row of the [verificationLog] table. *)
Record LogRow : Type := {
  log_submissionId : string;
  log_level : Level;
  log_message : string;
  log_details : option (list string)
}.

Record Submission : Type := {
  submission_id : string;
  vAppId : string;
  sourceHash : string;
  proofHash : string
}.

(** The world of the verification service: the chains behind the three
    adapters, the [proof] and [verificationLog] tables, and the lines given
    to [logger]. *)
Record World (C : Type) : Type := mkWorld {
  chains : C;
  proof : list ProofRow;
  verificationLog : list LogRow;
  lines : list (Level * string)
}.
Arguments mkWorld {C} _ _ _ _.
Arguments chains {C} _.
Arguments proof {C} _.
Arguments verificationLog {C} _.
Arguments lines {C} _.

Inductive Site : Type := ProofUpdateMany | VerificationLogCreate.
Definition Faults : Type := Site -> option string.
Definition noFaults : Faults := fun _ => None.

(** [Object.keys(updateData).length > 0] *)
Definition nonEmpty (data : UpdateData) : bool :=
  bool_decide (is_Some (set_ethereumTxHash data))
  || bool_decide (is_Some (set_arbitrumTxHash data))
  || bool_decide (is_Some (set_starknetTxHash data)).

Definition overwrite (new old : option string) : option string :=
  match new with Some v => Some v | None => old end.

Definition applyUpdate (submissionId : string) (data : UpdateData) (row : ProofRow)
  : ProofRow :=
  if String.eqb (proof_submissionId row) submissionId
  then {| proof_submissionId := proof_submissionId row;
          ethereumTxHash := overwrite (set_ethereumTxHash data) (ethereumTxHash row);
          arbitrumTxHash := overwrite (set_arbitrumTxHash data) (arbitrumTxHash row);
          starknetTxHash := overwrite (set_starknetTxHash data) (starknetTxHash row) |}
  else row.

Section Service.
Context {C R : Type}.
Variable faults : Faults.
(** The three adapters of the [BlockchainService] instance. *)
Variable anchorToEthereum anchorToArbitrum anchorToStarknet :
  string -> C -> Result JsError string * C.
(** [createVerificationHash(submission, results)], a SHA-256 digest. *)
Variable createVerificationHash : Submission -> list R -> string.

Definition client (site : Site) : St (World C) JsError unit :=
  fun w =>
    match faults site with
    | Some msg => (Err (newError msg), w)
    | None => (Ok tt, w)
    end.

Definition logger (level : Level) (line : string) : St (World C) JsError unit :=
  fun w =>
    (Ok tt, mkWorld (chains w) (proof w) (verificationLog w)
                    (lines w ++ [(level, line)])).

(** [logVerification(submissionId, level, message, details)] *)
Definition logVerification (submissionId : string) (level : Level)
    (msg : string) (details : option (list string))
  : St (World C) JsError unit :=
  tryCatch
    (_ <- logger level msg ;;
     _ <- client VerificationLogCreate ;;
     fun w =>
       (Ok tt,
        mkWorld (chains w) (proof w)
                (verificationLog w
                 ++ [{| log_submissionId := submissionId; log_level := level;
                        log_message := msg; log_details := details |}])
                (lines w)))
    (fun error => logger ERROR "Failed to log verification event:").

(** [prisma.proof.updateMany({ where: { submissionId }, data })] *)
Definition proofUpdateMany (submissionId : string) (data : UpdateData)
  : St (World C) JsError unit :=
  _ <- client ProofUpdateMany ;;
  fun w =>
    (Ok tt,
     mkWorld (chains w) (map (applyUpdate submissionId data) (proof w))
             (verificationLog w) (lines w)).

(** The three calls, in the order the promises are created. *)
Definition anchorCalls (verificationHash : string)
  : list (C -> Result JsError string * C) :=
  [anchorToEthereum verificationHash;
   anchorToArbitrum verificationHash;
   anchorToStarknet verificationHash].

(** [anchorResults[i]?.status === 'fulfilled'] and its value *)
Definition fulfilledAt (anchorResults : list (Settled string)) (i : nat)
  : option string :=
  match anchorResults !! i with
  | Some (Fulfilled txHash) => Some txHash
  | _ => None
  end.

Definition updateDataOf (anchorResults : list (Settled string)) : UpdateData :=
  {| set_ethereumTxHash := fulfilledAt anchorResults 0;
     set_arbitrumTxHash := fulfilledAt anchorResults 1;
     set_starknetTxHash := fulfilledAt anchorResults 2 |}.

(** The [for] loop over [results]: one pass per verification result. *)
Fixpoint forEach (passes : nat) (body : St (World C) JsError unit)
  : St (World C) JsError unit :=
  match passes with
  | O => ret tt
  | S passes' => _ <- body ;; forEach passes' body
  end.

(** [anchorToBlockchains(submission, results)] *)
Definition anchorToBlockchains (submission : Submission) (results : list R)
  : St (World C) JsError unit :=
  tryCatch
    (_ <- logVerification (submission_id submission) INFO
                          "Anchoring verification results to blockchains" None ;;
     let verificationHash := createVerificationHash submission results in
     anchorResults <-
       (fun w =>
          let '(settled, c') := allSettled (anchorCalls verificationHash) (chains w) in
          (Ok settled, mkWorld c' (proof w) (verificationLog w) (lines w))) ;;
     _ <- forEach (length results)
            (let updateData := updateDataOf anchorResults in
             if nonEmpty updateData
             then proofUpdateMany (submission_id submission) updateData
             else ret tt) ;;
     logVerification (submission_id submission) INFO
                     "Blockchain anchoring completed"
                     (Some (map status anchorResults)))
    (fun error =>
       logVerification (submission_id submission) WARN
                       ("Blockchain anchoring failed: "
                        ++ (if String.eqb (message error) ""
                            then "Unknown error" else message error))
                       None).

End Service.

(** An adapter that throws in every state, and one that returns a
    transaction hash in every state. *)
Definition alwaysThrows {C A} (call : C -> Result JsError A * C) : Prop :=
  forall c, is_ok (fst (call c)) = false.
Definition alwaysSucceeds {C A} (call : C -> Result JsError A * C) : Prop :=
  forall c, is_ok (fst (call c)) = true.

End Verification.

(* ===================================================================== *)
(** ** Sample values used by the worked instances                         *)
(* ===================================================================== *)

Module Sample.

(** The 'ethereum' breaker as [services/blockchain.ts] creates it. *)
Definition ethereumBreaker : CircuitBreaker.t :=
  CircuitBreaker.create "ethereum" chainBreakerOptions.

(** The same breaker after it opened at time 2005. *)
Definition openedBreaker : CircuitBreaker.t :=
  CircuitBreaker.mk "ethereum" chainBreakerOptions CircuitBreaker.OPEN 3
                    (Some 2005) 62005.

Definition rpcError : JsError := newError "RPC request timed out".
Definition abiError : JsError := newError "Contract anchor method not available".

(** Operations over a world that is just the clock: each call takes 5 ms. *)
Definition rpcDown (w : Z) : Result JsError string * Z := (Err rpcError, w + 5).
Definition rpcUp (w : Z) : Result JsError string * Z := (Ok "0xabc", w + 5).
Definition abiBroken (w : Z) : Result JsError string * Z := (Err abiError, w + 5).

(** A ledger with one account: alice holds 10 credits, 100 allocated and
    90 used, and is warned at 5. *)
Definition aliceCredit (active : bool) : CreditBalance :=
  {| balance := 10;
     totalAllocated := 100;
     totalUsed := 90;
     lowBalanceThreshold := Some 5%Q;
     autoTopupEnabled := true;
     autoTopupAmount := Some 50%Q;
     isActive := active;
     suspendedAt := if active then None else Some 900;
     suspensionReason := if active then None else Some "chargeback" |}.

Definition alice (active : bool) : UserCredit :=
  {| id := 0; userId := "alice"; credit := aliceCredit active; updatedAt := 0 |}.

Definition ledger (active : bool) : World :=
  {| db := {| userCredit := {["alice" := alice active]};
              creditTransaction := [];
              pricingTier := ∅;
              idSeq := 1 |};
     balanceCache := ∅;
     pricingCache := ∅;
     log := [];
     clock := 1000 |}.

Definition usage : CreditTransactionData :=
  {| type := USAGE;
     description := Some "API call: POST /api/v1/proofs";
     reference := Some "1000";
     metadata := None;
     processedBy := None |}.

(** The notification path of the low-balance handler is down; every
    storage and cache call works. *)
Definition handlerDown : Faults :=
  fun site =>
    match site with
    | LowBalanceWarn => Some "notification service unavailable"
    | _ => None
    end.

Definition schemaDefaults : ColumnDefaults :=
  {| default_lowBalanceThreshold := None;
     default_autoTopupEnabled := false;
     default_autoTopupAmount := None |}.

(** Three chains behind one counter of transactions sent; Arbitrum is
    not configured, so its adapter throws on every call. *)
Definition send (verificationHash : string) (sent : nat)
  : Result JsError string * nat :=
  (Ok ("0x" ++ verificationHash)%string, S sent).

Definition ethereum := Verification.anchorTo "Ethereum" true send.
Definition arbitrum := Verification.anchorTo "Arbitrum" false send.
Definition starknet := Verification.anchorTo "Starknet" true send.

Definition digest (submission : Verification.Submission) (results : list unit)
  : string := "abc".

Definition submission : Verification.Submission :=
  {| Verification.submission_id := "s1";
     Verification.vAppId := "v1";
     Verification.sourceHash := "Qm1";
     Verification.proofHash := "Qm2" |}.

Definition verified : Verification.World nat :=
  Verification.mkWorld
    0%nat
    [{| Verification.proof_submissionId := "s1";
        Verification.ethereumTxHash := None;
        Verification.arbitrumTxHash := None;
        Verification.starknetTxHash := None |}]
    [] [].

(** An operation that fails with an RPC error on its first two calls and
    succeeds from the third on; its state counts the calls. *)
Definition flaky (calls : nat) : Result JsError string * nat :=
  if (calls <? 2)%nat
  then (Err (newError "RPC down"), S calls)
  else (Ok "done"%string, S calls).

Definition down (calls : nat) : Result JsError string * nat :=
  (Err (newError "RPC down"), S calls).

(** [{ maxAttempts: 3, baseDelay: 1000, backoffMultiplier: 2, jitter: false }] *)
Definition patient : Retry.PartialRetryOptions :=
  {| Retry.maxAttempts' := Some 3;
     Retry.baseDelay' := Some 1000%Q;
     Retry.maxDelay' := None;
     Retry.backoffMultiplier' := Some 2%Q;
     Retry.jitter' := Some false |}.

Definition quiet : Retry.Env nat := Retry.mkEnv 0%nat (fun _ => 0%Q) 0%nat [].

(** The 'standard' tier of [DEFAULT_PRICING_TIERS] (config/pricing.ts). *)
Definition standardEndpointPricing : gmap string Q :=
  <["/api/v1/auth" := 0.001%Q]>
    (<["/api/v1/proofs" := 0.02%Q]>
       (<["/api/v1/verification" := 0.01%Q]>
          (<["/api/v1/blockchain" := 0.04%Q]> ∅))).

Definition standardRule : PricingRule :=
  {| basePrice := 0.002;
     sizeMultiplier := 0.0002;
     durationMultiplier := 0.00002;
     endpointPricing := Some standardEndpointPricing;
     maxRequestSize := Some (5 * 1024 * 1024);
     maxDuration := Some 60000 |}.

(** The sample ledger with the 'standard' tier in the store. *)
Definition priced : World :=
  withDb (mkDb (userCredit (db (ledger true))) []
               {["standard" := {| tier_rule := standardRule; tier_isActive := true |}]}
               1)
         (ledger true).

End Sample.

(* ===================================================================== *)
(** ** utils/circuit-breaker.ts: further vocabulary and the registry      *)
(* ===================================================================== *)


(** A caller making one call after the other through the same breaker. *)
Fixpoint executeAll {W T} (clock : W -> Z) (cb : CircuitBreaker.t)
    (operations : list (W -> Result JsError T * W)) (w : W)
  : list (Result JsError T) * CircuitBreaker.t * W :=
  match operations with
  | [] => ([], cb, w)
  | operation :: rest =>
      let '(r, cb1, w1) := CircuitBreaker.execute clock cb operation w in
      let '(rs, cb2, w2) := executeAll clock cb1 rest w1 in
      (r :: rs, cb2, w2)
  end.

(** An operation that fails whenever it is called, with an error the
    breaker's options count. *)
Definition failsCounted {W T} (opts : CircuitBreaker.CircuitBreakerOptions)
    (operation : W -> Result JsError T * W) : Prop :=
  forall w, exists e w',
    operation w = (Err e, w') /\ CircuitBreaker.unexpected opts e = false.

Module CircuitBreakerRegistry.

(** [private breakers = new Map<string, CircuitBreaker>()]: the breaker
    registered under each service name. *)
Abbreviation t := (gmap string CircuitBreaker.t).

(** [getOrCreate(serviceName, options)]: the breaker returned and the
    registry afterwards. *)
Definition getOrCreate (serviceName : string)
    (options : CircuitBreaker.CircuitBreakerOptions) (breakers : t)
  : CircuitBreaker.t * t :=
  match breakers !! serviceName with
  | Some cb => (cb, breakers)
  | None =>
      let cb := CircuitBreaker.create serviceName options in
      (cb, <[serviceName := cb]> breakers)
  end.

(** [get(serviceName)] *)
Definition get (serviceName : string) (breakers : t) : option CircuitBreaker.t :=
  breakers !! serviceName.

(** [getStats()] of one breaker *)
Record Stats : Type := {
  stats_state : CircuitBreaker.CircuitBreakerState;
  stats_failureCount : Z;
  stats_lastFailureTime : option Z;
  stats_nextAttemptTime : Z
}.

Definition getStats (cb : CircuitBreaker.t) : Stats :=
  {| stats_state := CircuitBreaker.state cb;
     stats_failureCount := CircuitBreaker.failureCount cb;
     stats_lastFailureTime := CircuitBreaker.lastFailureTime cb;
     stats_nextAttemptTime := CircuitBreaker.nextAttemptTime cb |}.

(** [getAllStats()] *)
Definition getAllStats (breakers : t) : gmap string Stats :=
  getStats <$> breakers.

(** [resetAll()] *)
Definition resetAll (breakers : t) : t := CircuitBreaker.reset <$> breakers.

End CircuitBreakerRegistry.

(** The same breaker constructed with another [monitoringPeriod]. *)
Definition withMonitoringPeriod (period : Z) (cb : CircuitBreaker.t)
  : CircuitBreaker.t :=
  CircuitBreaker.mk (CircuitBreaker.serviceName cb)
    {| CircuitBreaker.failureThreshold :=
         CircuitBreaker.failureThreshold (CircuitBreaker.options cb);
       CircuitBreaker.recoveryTimeout :=
         CircuitBreaker.recoveryTimeout (CircuitBreaker.options cb);
       CircuitBreaker.monitoringPeriod := period;
       CircuitBreaker.expectedErrors :=
         CircuitBreaker.expectedErrors (CircuitBreaker.options cb) |}
    (CircuitBreaker.state cb) (CircuitBreaker.failureCount cb)
    (CircuitBreaker.lastFailureTime cb) (CircuitBreaker.nextAttemptTime cb).

(* ===================================================================== *)
(** ** utils/retry.ts: further vocabulary                                 *)
(* ===================================================================== *)

(** An operation whose outcome on each call is fixed in advance; its state
    is the number of calls made so far. *)
Definition scripted {T} (outcomes : nat -> Result JsError T)
  : nat -> Result JsError T * nat :=
  fun calls => (outcomes calls, S calls).

(** [withSmartRetry(operation, operationName)] *)
Definition withSmartRetry {S T} (operation : S -> Result JsError T * S)
    (operationName : string) (env : Retry.Env S) : Result JsError T * Retry.Env S :=
  Retry.withRetry operation
    {| Retry.maxAttempts' := Some 3;
       Retry.baseDelay' := Some 1000%Q;
       Retry.maxDelay' := Some 10000%Q;
       Retry.backoffMultiplier' := Some 2%Q;
       Retry.jitter' := Some true |}
    operationName env.

(** [breaker.execute(async () => withRetry(operation, options, operationName))],
    the way [services/blockchain.ts] guards its chain calls: the retry
    loop is the breaker's operation. *)
Definition executeWithRetry {S T} (clock : Retry.Env S -> Z)
    (cb : CircuitBreaker.t) (operation : S -> Result JsError T * S)
    (options : Retry.PartialRetryOptions) (operationName : string)
    (env : Retry.Env S) : Result JsError T * CircuitBreaker.t * Retry.Env S :=
  CircuitBreaker.execute clock cb
    (Retry.withRetry operation options operationName) env.

(** The time spent in [setTimeout] over a list of delays. *)
Definition totalDelay (delays : list Q) : Q := fold_right Qplus 0%Q delays.

(* ===================================================================== *)
(** ** services/credit-management.ts: further vocabulary                  *)
(* ===================================================================== *)

(** The user a ledger call is made for. *)
Definition callUser (call : LedgerCall) : string :=
  match call with
  | GetBalance uid
  | AddCredits uid _ _
  | DeductCredits uid _ _
  | UpdateCreditSettings uid _
  | SuspendAccount uid _ _
  | ReactivateAccount uid _ => uid
  end.

(** The row [userCredit.update] leaves when it writes the status columns. *)
Definition statusOf (active : bool) (at_ : option Z) (reason : option string)
    (now : Z) (row : UserCredit) : UserCredit :=
  {| id := id row; userId := userId row;
     credit := CreditManagement.setStatus active at_ reason (credit row);
     updatedAt := now |}.


(** Further sample values. *)
Module Scenario.

(** The journal table refuses every insert; all other calls work. *)
Definition journalDown : Faults :=
  fun site =>
    match site with
    | CreditTransactionCreate => Some "deadlock detected"
    | _ => None
    end.

(** The cache refuses every delete; all other calls work. *)
Definition cacheDeleteDown : Faults :=
  fun site =>
    match site with
    | RedisDel => Some "READONLY You can't write against a read only replica."
    | _ => None
    end.

(** The sample ledger with alice's balance in the cache. *)
Definition cachedLedger : World :=
  withBalanceCache
    {[CreditManagement.cacheKey "alice" := Sample.aliceCredit true]}
    (Sample.ledger true).

(** Every call to a client fails. *)
Definition storeDown : Faults := fun _ => Some "connection refused".

End Scenario.

(* ===================================================================== *)
(** ** config/pricing.ts: PricingValidator                                *)
(* ===================================================================== *)

Module PricingValidator.

(** [PricingValidator.validateRequest(params)].  A limit that is absent or
    0 is falsy and switches its check off. *)
Definition validateRequest (requestSize duration : Z)
    (maxRequestSize maxDuration : option Z) : list string :=
  let errors := [] in
  let errors :=
    match maxRequestSize with
    | Some limit =>
        if negb (limit =? 0) && (limit <? requestSize)
        then errors ++ ["Request size " ++ pretty requestSize
                        ++ " exceeds limit of " ++ pretty limit ++ " bytes"]%string
        else errors
    | None => errors
    end in
  let errors :=
    match maxDuration with
    | Some limit =>
        if negb (limit =? 0) && (limit <? duration)
        then errors ++ ["Request duration " ++ pretty duration
                        ++ "ms exceeds limit of " ++ pretty limit ++ "ms"]%string
        else errors
    | None => errors
    end in
  errors.

End PricingValidator.

(* ===================================================================== *)
(** ** middleware/usage-tracking.ts: the two request hooks                *)
(* ===================================================================== *)

Module UsageTrackingHooks.

(** [BillingMiddlewareOptions] *)
Record BillingMiddlewareOptions : Type := {
  enableRealTimeDeduction : bool;
  skipEndpoints : list string;
  defaultPricingTier : string;
  opt_maxRequestSize : Z;
  opt_maxDuration : Z
}.

(** [defaultUsageTrackingOptions] *)
Definition defaultUsageTrackingOptions : BillingMiddlewareOptions :=
  {| enableRealTimeDeduction := true;
     skipEndpoints := ["/health"; "/docs"; "/api"; "/favicon.ico"; "/metrics"];
     defaultPricingTier := "standard";
     opt_maxRequestSize := 10 * 1024 * 1024;
     opt_maxDuration := 300000 |}.

(** [UsageTrackingContext] *)
Record UsageTrackingContext : Type := {
  startTime : Z;
  ctx_userId : option string;
  ctx_apiKeyId : option string;
  ctx_pricingTier : option string;
  skipBilling : bool
}.

(** What the hooks read of the request and of the reply, and the
    [usageContext] they hang on the request. *)
Record Request : Type := {
  url : string;
  method : string;
  user : option string;            (* request.user?.id *)
  apiKey : option string;          (* request.headers['x-api-key'] *)
  requestSize : Z;                 (* getRequestSize(request) *)
  usageContext : option UsageTrackingContext
}.

Record Reply : Type := {
  statusCode : Z;
  responseSize : Z                 (* getResponseSize(reply) *)
}.

Definition withUsageContext (context : UsageTrackingContext) (request : Request)
  : Request :=
  {| url := url request; method := method request; user := user request;
     apiKey := apiKey request; requestSize := requestSize request;
     usageContext := Some context |}.

(** The selected columns of a row of the [aPIKey] table. *)
Record APIKey : Type := {
  key_id : string;
  key_userId : string;
  key_isActive : bool
}.

(** [ApiUsageMetrics], the fields that reach the ledger. *)
Record ApiUsageMetrics : Type := {
  m_userId : option string;
  m_method : string;
  m_endpoint : string;
  m_startTime : Z;
  m_duration : Z;
  m_statusCode : Z;
  m_creditsCost : option Decimal
}.

(** A string that is defined and not empty is truthy. *)
Definition truthy (s : option string) : bool :=
  match s with
  | Some s => negb (String.eqb s "")
  | None => false
  end.

Section Hooks.
Variable options : BillingMiddlewareOptions.
Variable faults : Faults.
Variable defaults : ColumnDefaults.
(** [new RegExp(pattern.replace(/\*/g, '.*')).test(url)] *)
Variable regexTest : string -> string -> bool.
(** [normalizeEndpoint(url)] *)
Variable normalizeEndpoint : string -> string.
(** The [aPIKey] table by [keyHash], and the failure of its client. *)
Variable apiKeys : gmap string APIKey.
Variable apiKeyFault : option string.

(** [shouldSkipEndpoint(url)] *)
Definition shouldSkipEndpoint (url : string) : bool :=
  existsb (fun pattern =>
             if includes "*" pattern
             then regexTest pattern url
             else String.prefix pattern url)
          (skipEndpoints options).

(** [prisma.aPIKey.findUnique({ where: { keyHash } })] *)
Definition apiKeyFindUnique (keyHash : string) : M (option APIKey) :=
  fun w =>
    match apiKeyFault with
    | Some msg => (Err (ClientError msg), w)
    | None => (Ok (apiKeys !! keyHash), w)
    end.

(** [extractUserIdentity(request)]: the [userId] and the [apiKeyId]. *)
Definition extractUserIdentity (request : Request)
  : M (option string * option string) :=
  let userId := if truthy (user request) then user request else None in
  if truthy (apiKey request)
  then
    tryCatch
      (keyRecord <- apiKeyFindUnique (default "" (apiKey request)) ;;
       match keyRecord with
       | Some record =>
           if key_isActive record
           then ret (Some (key_userId record), Some (key_id record))
           else ret (userId, None)
       | None => ret (userId, None)
       end)
      (fun error =>
         _ <- logger WARN "Failed to validate API key:" ;;
         ret (userId, None))
  else ret (userId, None).

(** [determinePricingTier(userId, apiKeyId)] *)
Definition determinePricingTier (userId apiKeyId : option string) : M string :=
  ret (defaultPricingTier options).

(** [new Date()] *)
Definition now : M Z := fun w => (Ok (clock w), w).

(** [preHandler(request, reply)]: the request as the hook leaves it. *)
Definition preHandler (request : Request) : M Request :=
  tryCatch
    (if shouldSkipEndpoint (url request)
     then ret request
     else
       started <- now ;;
       identity <- extractUserIdentity request ;;
       tier <- determinePricingTier (fst identity) (snd identity) ;;
       let context :=
         {| startTime := started;
            ctx_userId := fst identity;
            ctx_apiKeyId := snd identity;
            ctx_pricingTier := Some tier;
            skipBilling := false |} in
       let request := withUsageContext context request in
       if enableRealTimeDeduction options && truthy (fst identity)
       then
         _ <- UsageTracking.preCheckCredits
                faults defaults (normalizeEndpoint (url request))
                (requestSize request) (default "" (fst identity)) tier ;;
         ret request
       else ret request)
    (fun error =>
       _ <- logger ERROR "Usage tracking pre-handler error:" ;;
       started <- now ;;
       ret (withUsageContext
              {| startTime := started; ctx_userId := None; ctx_apiKeyId := None;
                 ctx_pricingTier := None; skipBilling := true |}
              request)).

(** [calculateUsageMetrics(request, reply, context)] *)
Definition calculateUsageMetrics (request : Request) (reply : Reply)
    (context : UsageTrackingContext) : M ApiUsageMetrics :=
  endTime <- now ;;
  let duration := endTime - startTime context in
  let endpoint := normalizeEndpoint (url request) in
  creditsCost <-
    (if truthy (ctx_pricingTier context)
     then
       tryCatch
         (cost <- UsageProcessor.calculateCost
                    faults endpoint (requestSize request) (responseSize reply)
                    duration (default "" (ctx_pricingTier context)) ;;
          ret (Some cost))
         (fun error =>
            _ <- logger WARN "Failed to calculate usage cost:" ;;
            ret None)
     else ret None) ;;
  ret {| m_userId := ctx_userId context;
         m_method := method request;
         m_endpoint := endpoint;
         m_startTime := startTime context;
         m_duration := duration;
         m_statusCode := statusCode reply;
         m_creditsCost := creditsCost |}.

(** The [transactionData] of the deduction; the [metadata] object is
    carried as a line of text. *)
Definition usageData (metrics : ApiUsageMetrics) : CreditTransactionData :=
  {| type := USAGE;
     description :=
       Some ("API call: " ++ m_method metrics ++ " " ++ m_endpoint metrics)%string;
     reference := Some (pretty (m_startTime metrics));
     metadata :=
       Some ("endpoint: " ++ m_endpoint metrics
             ++ ", duration: " ++ pretty (m_duration metrics)
             ++ ", statusCode: " ++ pretty (m_statusCode metrics))%string;
     processedBy := None |}.

(** [deductCredits(userId, amount, metrics)] *)
Definition deductCredits (userId : string) (amount : Decimal)
    (metrics : ApiUsageMetrics) : M unit :=
  tryCatch
    (_ <- CreditManagement.deductCredits faults userId amount (usageData metrics) ;;
     ret tt)
    (fun error => logger ERROR "Failed to deduct credits:").

(** [postHandler(request, reply)].  [logUsageAsync] hands its work to
    [setImmediate]; it runs after the hook has returned, in a [try] of
    its own, and writes usage keys the world does not hold. *)
Definition postHandler (request : Request) (reply : Reply) : M unit :=
  match usageContext request with
  | None => ret tt
  | Some context =>
      if skipBilling context then ret tt
      else
        tryCatch
          (metrics <- calculateUsageMetrics request reply context ;;
           match m_creditsCost metrics with
           | Some cost =>
               if enableRealTimeDeduction options && truthy (m_userId metrics)
               then deductCredits (default "" (m_userId metrics)) cost metrics
               else ret tt
           | None => ret tt
           end)
          (fun error => logger ERROR "Usage tracking post-handler error:")
  end.

End Hooks.

End UsageTrackingHooks.

(** The context the [catch] of [preHandler] leaves on the request. *)
Definition skipContext (started : Z) : UsageTrackingHooks.UsageTrackingContext :=
  {| UsageTrackingHooks.startTime := started;
     UsageTrackingHooks.ctx_userId := None;
     UsageTrackingHooks.ctx_apiKeyId := None;
     UsageTrackingHooks.ctx_pricingTier := None;
     UsageTrackingHooks.skipBilling := true |}.

Module Traffic.

(** Options that track every route but the health check. *)
Definition tracked : UsageTrackingHooks.BillingMiddlewareOptions :=
  {| UsageTrackingHooks.enableRealTimeDeduction := true;
     UsageTrackingHooks.skipEndpoints := ["/health"];
     UsageTrackingHooks.defaultPricingTier := "standard";
     UsageTrackingHooks.opt_maxRequestSize := 10 * 1024 * 1024;
     UsageTrackingHooks.opt_maxDuration := 300000 |}.

(** A 30 MB upload by alice, whose estimate exceeds her 10 credits. *)
Definition upload : UsageTrackingHooks.Request :=
  {| UsageTrackingHooks.url := "/api/v1/proofs";
     UsageTrackingHooks.method := "POST";
     UsageTrackingHooks.user := Some "alice"%string;
     UsageTrackingHooks.apiKey := None;
     UsageTrackingHooks.requestSize := 30000000;
     UsageTrackingHooks.usageContext := None |}.

(** A small request by alice, as [preHandler] left it at time 990. *)
Definition started : UsageTrackingHooks.Request :=
  {| UsageTrackingHooks.url := "/api/v1/proofs";
     UsageTrackingHooks.method := "POST";
     UsageTrackingHooks.user := Some "alice"%string;
     UsageTrackingHooks.apiKey := None;
     UsageTrackingHooks.requestSize := 2048;
     UsageTrackingHooks.usageContext :=
       Some {| UsageTrackingHooks.startTime := 990;
               UsageTrackingHooks.ctx_userId := Some "alice"%string;
               UsageTrackingHooks.ctx_apiKeyId := None;
               UsageTrackingHooks.ctx_pricingTier := Some "standard"%string;
               UsageTrackingHooks.skipBilling := false |} |}.



End Traffic.

(** The three adapters with no chain configured. *)
Module Offline.
Definition ethereumAdapter := Verification.anchorTo "Ethereum" false Sample.send.
Definition arbitrumAdapter := Verification.anchorTo "Arbitrum" false Sample.send.
Definition starknetAdapter := Verification.anchorTo "Starknet" false Sample.send.
End Offline.

(* ===================================================================== *)
(** * Properties                                                          *)
(* ===================================================================== *)

Section CircuitBreakerFacts.
Import CircuitBreaker.
Context {W T : Type}.
Variable clock : W -> Z.

Lemma onFailure_unexpected cb error now :
  unexpected (options cb) error = true -> onFailure cb error now = cb.
Proof. intros H. unfold onFailure. now rewrite H. Qed.

Lemma admitCall_not_open cb now :
  state cb <> OPEN -> admitCall cb now = Ok cb.
Proof. unfold admitCall. destruct (state cb); congruence. Qed.

Lemma admitCall_open_early cb now :
  state cb = OPEN -> now < nextAttemptTime cb ->
  admitCall cb now = Err (CircuitBreakerOpenError (serviceName cb)).
Proof.
  intros Hs Hlt. unfold admitCall. rewrite Hs.
  destruct (Z.ltb_spec now (nextAttemptTime cb)); [reflexivity | lia].
Qed.

Lemma admitCall_open_due cb now :
  state cb = OPEN -> nextAttemptTime cb <= now ->
  admitCall cb now =
    Ok (mk (serviceName cb) (options cb) HALF_OPEN (failureCount cb)
           (lastFailureTime cb) (nextAttemptTime cb)).
Proof.
  intros Hs Hle. unfold admitCall. rewrite Hs.
  destruct (Z.ltb_spec now (nextAttemptTime cb)); [lia | reflexivity].
Qed.

(** What a call admitted by the breaker does: the operation runs once, in
    the caller's world, and its outcome is passed on. *)
Lemma execute_admitted cb cb1 (operation : W -> Result JsError T * W) w :
  admitCall cb (clock w) = Ok cb1 ->
  execute clock cb operation w =
    (fst (operation w),
     match fst (operation w) with
     | Ok _ => onSuccess cb1
     | Err error => onFailure cb1 error (clock (snd (operation w)))
     end,
     snd (operation w)).
Proof.
  intros H. unfold execute. rewrite H.
  destruct (operation w) as [[v | e] w']; reflexivity.
Qed.

Lemma execute_rejected cb e (operation : W -> Result JsError T * W) w :
  admitCall cb (clock w) = Err e ->
  execute clock cb operation w = (Err e, cb, w).
Proof. intros H. unfold execute. now rewrite H. Qed.

(** A classified failure below the threshold keeps a CLOSED breaker
    CLOSED and counts one more. *)
Lemma onFailure_closed_below cb error now :
  unexpected (options cb) error = false ->
  state cb = CLOSED ->
  failureCount cb + 1 < failureThreshold (options cb) ->
  onFailure cb error now =
    mk (serviceName cb) (options cb) CLOSED (failureCount cb + 1) (Some now)
       (nextAttemptTime cb).
Proof.
  intros Hu Hs Hlt. unfold onFailure. rewrite Hu, Hs.
  destruct (Z.leb_spec (failureThreshold (options cb)) (failureCount cb + 1));
    [lia | reflexivity].
Qed.

Lemma onFailure_closed_reaching cb error now :
  unexpected (options cb) error = false ->
  state cb = CLOSED ->
  failureThreshold (options cb) <= failureCount cb + 1 ->
  onFailure cb error now =
    mk (serviceName cb) (options cb) OPEN (failureCount cb + 1) (Some now)
       (now + recoveryTimeout (options cb)).
Proof.
  intros Hu Hs Hle. unfold onFailure. rewrite Hu, Hs.
  destruct (Z.leb_spec (failureThreshold (options cb)) (failureCount cb + 1));
    [reflexivity | lia].
Qed.

Lemma execute_closed_failure cb (operation : W -> Result JsError T * W) w error w' :
  state cb = CLOSED ->
  operation w = (Err error, w') ->
  execute clock cb operation w = (Err error, onFailure cb error (clock w'), w').
Proof.
  intros Hs Hop. rewrite (execute_admitted cb cb).
  - now rewrite Hop.
  - apply admitCall_not_open. congruence.
Qed.

Lemma execute_counted_rejected cb e (operation : W -> Result JsError T * W) w n :
  admitCall cb (clock w) = Err e ->
  execute (fun wn => clock (fst wn)) cb (counted operation) (w, n)
  = (Err e, cb, (w, n)).
Proof. intros H. unfold execute. cbn [fst]. now rewrite H. Qed.

Lemma execute_counted_admitted cb cb1 (operation : W -> Result JsError T * W) w n :
  admitCall cb (clock w) = Ok cb1 ->
  execute (fun wn => clock (fst wn)) cb (counted operation) (w, n) =
    (fst (operation w),
     match fst (operation w) with
     | Ok _ => onSuccess cb1
     | Err error => onFailure cb1 error (clock (snd (operation w)))
     end,
     (snd (operation w), S n)).
Proof.
  intros H. unfold execute, counted. cbn [fst snd]. rewrite H.
  destruct (operation w) as [[v | e] w']; reflexivity.
Qed.

(** C3. With [failureThreshold = 3], a CLOSED breaker with no counted
    failure is OPEN after three calls that fail with classified errors,
    with [nextAttemptTime] the time of the third failure plus
    [recoveryTimeout]; an OPEN breaker rejects every call made before
    [nextAttemptTime] with the breaker-open error, is itself unchanged and
    does not invoke the operation (the invocation counter stays); a call
    at or after [nextAttemptTime] puts the breaker in HALF_OPEN, invokes
    the operation exactly once, and leaves the breaker CLOSED with
    [failureCount = 0] when that call succeeds. *)
Theorem breaker_threshold_three_lifecycle (cb0 : t) :
  failureThreshold (options cb0) = 3 ->
  state cb0 = CLOSED ->
  failureCount cb0 = 0 ->
  (forall (op1 op2 op3 : W -> Result JsError T * W) w1 w2 w3 w1' w2' w3' e1 e2 e3,
      op1 w1 = (Err e1, w1') ->
      op2 w2 = (Err e2, w2') ->
      op3 w3 = (Err e3, w3') ->
      unexpected (options cb0) e1 = false ->
      unexpected (options cb0) e2 = false ->
      unexpected (options cb0) e3 = false ->
      exists cb1 cb2 cb3,
        execute clock cb0 op1 w1 = (Err e1, cb1, w1') /\ state cb1 = CLOSED /\
        execute clock cb1 op2 w2 = (Err e2, cb2, w2') /\ state cb2 = CLOSED /\
        execute clock cb2 op3 w3 = (Err e3, cb3, w3') /\ state cb3 = OPEN /\
        nextAttemptTime cb3 = clock w3' + recoveryTimeout (options cb0))
  /\
  (forall cb (operation : W -> Result JsError T * W) w n,
      options cb = options cb0 ->
      state cb = OPEN ->
      clock w < nextAttemptTime cb ->
      execute (fun wn => clock (fst wn)) cb (counted operation) (w, n)
      = (Err (CircuitBreakerOpenError (serviceName cb)), cb, (w, n)))
  /\
  (forall cb (operation : W -> Result JsError T * W) w n,
      options cb = options cb0 ->
      state cb = OPEN ->
      nextAttemptTime cb <= clock w ->
      exists probing after,
        admitCall cb (clock w) = Ok probing /\ state probing = HALF_OPEN /\
        execute (fun wn => clock (fst wn)) cb (counted operation) (w, n)
        = (fst (operation w), after, (snd (operation w), S n)) /\
        (is_ok (fst (operation w)) = true ->
         state after = CLOSED /\ failureCount after = 0)).
Proof.
  intros Hthr Hclosed Hzero. repeat split.
  - intros op1 op2 op3 w1 w2 w3 w1' w2' w3' e1 e2 e3 H1 H2 H3 U1 U2 U3.
    set (cb1 := onFailure cb0 e1 (clock w1')).
    assert (E1 : cb1 = mk (serviceName cb0) (options cb0) CLOSED 1
                          (Some (clock w1')) (nextAttemptTime cb0)).
    { subst cb1. rewrite onFailure_closed_below by (auto; lia).
      now rewrite Hzero. }
    set (cb2 := onFailure cb1 e2 (clock w2')).
    assert (E2 : cb2 = mk (serviceName cb0) (options cb0) CLOSED 2
                          (Some (clock w2')) (nextAttemptTime cb0)).
    { subst cb2. rewrite E1.
      rewrite onFailure_closed_below by (cbn; auto; lia). reflexivity. }
    set (cb3 := onFailure cb2 e3 (clock w3')).
    assert (E3 : cb3 = mk (serviceName cb0) (options cb0) OPEN 3
                          (Some (clock w3'))
                          (clock w3' + recoveryTimeout (options cb0))).
    { subst cb3. rewrite E2.
      rewrite onFailure_closed_reaching by (cbn; auto; lia). reflexivity. }
    exists cb1, cb2, cb3. repeat split.
    + now apply execute_closed_failure.
    + now rewrite E1.
    + apply execute_closed_failure; [now rewrite E1 | assumption].
    + now rewrite E2.
    + apply execute_closed_failure; [now rewrite E2 | assumption].
    + now rewrite E3.
    + now rewrite E3.
  - intros cb operation w n _ Hopen Hearly.
    apply execute_counted_rejected. now apply admitCall_open_early.
  - intros cb operation w n _ Hopen Hdue.
    pose proof (admitCall_open_due cb (clock w) Hopen Hdue) as Hadm.
    eexists. eexists. split; [exact Hadm |]. split; [reflexivity |].
    split; [exact (execute_counted_admitted cb _ operation w n Hadm) |].
    destruct (fst (operation w)); [| discriminate].
    intros _. split; reflexivity.
Qed.

(** C8. When the breaker has a classifier and it does not classify the
    error as expected, [onFailure] leaves the breaker as it is, whatever
    its state; a call whose operation fails with such an error rethrows
    that very error, and the breaker it leaves is the one the operation
    was invoked under: the breaker itself in CLOSED and HALF_OPEN, and
    with [failureCount], [lastFailureTime] and [nextAttemptTime] as
    before the call in every state. *)
Theorem unexpected_failure_leaves_breaker_unchanged
    (cb : t) (classify : JsError -> bool) (error : JsError) :
  expectedErrors (options cb) = Some classify ->
  classify error = false ->
  (forall now, onFailure cb error now = cb) /\
  (forall (operation : W -> Result JsError T * W) w w' admitted,
      admitCall cb (clock w) = Ok admitted ->
      operation w = (Err error, w') ->
      execute clock cb operation w = (Err error, admitted, w') /\
      (state cb <> OPEN -> admitted = cb) /\
      failureCount admitted = failureCount cb /\
      lastFailureTime admitted = lastFailureTime cb /\
      nextAttemptTime admitted = nextAttemptTime cb).
Proof.
  intros Hcls Hno.
  assert (Hu : forall c, options c = options cb ->
                         unexpected (options c) error = true).
  { intros c Hc. unfold unexpected. rewrite Hc, Hcls, Hno. reflexivity. }
  split.
  - intros now. apply onFailure_unexpected. now apply Hu.
  - intros operation w w' admitted Hadm Hop.
    assert (Hopts : options admitted = options cb).
    { unfold admitCall in Hadm.
      destruct (state cb); try (injection Hadm as <-; reflexivity).
      destruct (clock w <? nextAttemptTime cb); [discriminate |].
      injection Hadm as <-. reflexivity. }
    split.
    { rewrite (execute_admitted cb admitted) by assumption.
      rewrite Hop. cbn [fst snd].
      rewrite onFailure_unexpected by now apply Hu. reflexivity. }
    unfold admitCall in Hadm.
    destruct (state cb) eqn:Hs.
    + injection Hadm as <-. repeat split; reflexivity.
    + destruct (clock w <? nextAttemptTime cb); [discriminate |].
      injection Hadm as <-. repeat split. intros Hne. now contradiction Hne.
    + injection Hadm as <-. repeat split; reflexivity.
Qed.

End CircuitBreakerFacts.

Lemma breaker_threshold_three_lifecycle_witness :
  (exists cb1 cb2 cb3,
      CircuitBreaker.execute (fun w => w) Sample.ethereumBreaker Sample.rpcDown 0
      = (Err Sample.rpcError, cb1, 5) /\
      CircuitBreaker.state cb1 = CircuitBreaker.CLOSED /\
      CircuitBreaker.execute (fun w => w) cb1 Sample.rpcDown 1000
      = (Err Sample.rpcError, cb2, 1005) /\
      CircuitBreaker.state cb2 = CircuitBreaker.CLOSED /\
      CircuitBreaker.execute (fun w => w) cb2 Sample.rpcDown 2000
      = (Err Sample.rpcError, cb3, 2005) /\
      CircuitBreaker.state cb3 = CircuitBreaker.OPEN /\
      CircuitBreaker.nextAttemptTime cb3 = 2005 + 60000)
  /\
  CircuitBreaker.execute (fun wn => fst wn) Sample.openedBreaker
                         (counted Sample.rpcUp) (62004, 0%nat)
  = (Err (CircuitBreaker.CircuitBreakerOpenError "ethereum"),
     Sample.openedBreaker, (62004, 0%nat))
  /\
  (exists probing after,
      CircuitBreaker.admitCall Sample.openedBreaker 62005 = Ok probing /\
      CircuitBreaker.state probing = CircuitBreaker.HALF_OPEN /\
      CircuitBreaker.execute (fun wn => fst wn) Sample.openedBreaker
                             (counted Sample.rpcUp) (62005, 0%nat)
      = (Ok "0xabc", after, (62010, 1%nat)) /\
      (true = true ->
       CircuitBreaker.state after = CircuitBreaker.CLOSED /\
       CircuitBreaker.failureCount after = 0)).
Proof.
  destruct (breaker_threshold_three_lifecycle
              (W := Z) (T := string) (fun w => w) Sample.ethereumBreaker
              eq_refl eq_refl eq_refl) as (Hopen & Hreject & Hprobe).
  split; [| split].
  - apply (Hopen Sample.rpcDown Sample.rpcDown Sample.rpcDown
                 0 1000 2000 5 1005 2005
                 Sample.rpcError Sample.rpcError Sample.rpcError);
      reflexivity.
  - apply (Hreject Sample.openedBreaker Sample.rpcUp 62004 0%nat);
      reflexivity.
  - apply (Hprobe Sample.openedBreaker Sample.rpcUp 62005 0%nat);
      [reflexivity | reflexivity | cbn; lia].
Defined.

Lemma unexpected_failure_leaves_breaker_unchanged_witness :
  (forall now,
      CircuitBreaker.onFailure Sample.openedBreaker Sample.abiError now
      = Sample.openedBreaker) /\
  (forall (operation : Z -> Result JsError string * Z) w w' admitted,
      CircuitBreaker.admitCall Sample.openedBreaker w = Ok admitted ->
      operation w = (Err Sample.abiError, w') ->
      CircuitBreaker.execute (fun w => w) Sample.openedBreaker operation w
      = (Err Sample.abiError, admitted, w') /\
      (CircuitBreaker.state Sample.openedBreaker <> CircuitBreaker.OPEN ->
       admitted = Sample.openedBreaker) /\
      CircuitBreaker.failureCount admitted = 3 /\
      CircuitBreaker.lastFailureTime admitted = Some 2005 /\
      CircuitBreaker.nextAttemptTime admitted = 62005).
Proof.
  apply (unexpected_failure_leaves_breaker_unchanged
           (W := Z) (T := string) (fun w => w)
           Sample.openedBreaker chainExpectedErrors Sample.abiError);
    reflexivity.
Defined.

Section RetryFacts.
Import Retry.
Context {S T : Type}.
Variable operation : S -> Result JsError T * S.
Variable config : RetryOptions.
Variable operationName : string.

(** One more round of the loop when the attempt fails with a retryable
    error and is not the last one. *)
Lemma retryLoop_retry remaining attempt lastError (env env1 : Env S) error :
  call operation env = (Err error, env1) ->
  isNonRetryable error = false ->
  attempt <> maxAttempts config ->
  retryLoop operation config operationName (Datatypes.S remaining) attempt lastError env
  = if jitter config
    then retryLoop operation config operationName remaining (attempt + 1) (Some error)
           (sleep (backoffDelay config attempt * jitterFactor (fst (random env1)))%Q
                  (snd (random env1)))
    else retryLoop operation config operationName remaining (attempt + 1) (Some error)
           (sleep (backoffDelay config attempt) env1).
Proof.
  intros Hcall Hretry Hne. cbn [retryLoop]. rewrite Hcall, Hretry.
  destruct (Z.eqb_spec attempt (maxAttempts config)); [contradiction |].
  destruct (jitter config); reflexivity.
Qed.

Lemma retryLoop_nonretryable remaining attempt lastError (env env1 : Env S) error :
  call operation env = (Err error, env1) ->
  isNonRetryable error = true ->
  retryLoop operation config operationName (Datatypes.S remaining) attempt lastError env
  = (Err error, env1).
Proof. intros Hcall Hnr. cbn [retryLoop]. now rewrite Hcall, Hnr. Qed.

Lemma retryLoop_last remaining lastError (env env1 : Env S) error :
  call operation env = (Err error, env1) ->
  isNonRetryable error = false ->
  retryLoop operation config operationName (Datatypes.S remaining)
            (maxAttempts config) lastError env
  = (Err (exhausted config operationName (Some error)), env1).
Proof.
  intros Hcall Hretry. cbn [retryLoop]. rewrite Hcall, Hretry.
  now rewrite Z.eqb_refl.
Qed.

End RetryFacts.

Lemma jitterFactor_bounds (r : Q) :
  (0 <= r)%Q -> (r < 1)%Q ->
  (5 # 10 <= Retry.jitterFactor r)%Q /\ (Retry.jitterFactor r <= 1)%Q.
Proof. intros H0 H1. unfold Retry.jitterFactor. split; lra. Qed.

Lemma call_counted {S T} (operation : S -> Result JsError T * S)
    (env : Retry.Env (S * nat)) :
  snd (Retry.opState (snd (Retry.call (counted operation) env)))
  = Datatypes.S (snd (Retry.opState env)) /\
  Retry.slept (snd (Retry.call (counted operation) env)) = Retry.slept env.
Proof.
  unfold Retry.call, counted.
  destruct (operation (fst (Retry.opState env))) as [r s']. split; reflexivity.
Qed.

(** The number of invocations a run of the loop adds is at most the
    number of iterations it was entered with. *)
Lemma retryLoop_invocations {S T} (operation : S -> Result JsError T * S)
    config operationName remaining :
  forall attempt lastError (env : Retry.Env (S * nat)),
    (snd (Retry.opState
            (snd (Retry.retryLoop (counted operation) config operationName
                                  remaining attempt lastError env)))
     <= snd (Retry.opState env) + remaining)%nat.
Proof.
  induction remaining as [| remaining IH]; intros attempt lastError env.
  - cbn. lia.
  - cbn [Retry.retryLoop].
    pose proof (call_counted operation env) as [Hcount _].
    destruct (Retry.call (counted operation) env) as [[v | e] env1];
      cbn [snd] in *.
    + lia.
    + destruct (Retry.isNonRetryable e); cbn [snd]; [lia |].
      destruct (attempt =? Retry.maxAttempts config); cbn [snd]; [lia |].
      destruct (Retry.jitter config).
      * etransitivity; [apply IH |]. cbn. lia.
      * etransitivity; [apply IH |]. cbn. lia.
Qed.

(** An operation that fails on every attempt, never with a non-retryable
    error, uses up all the attempts: the loop entered at [attempt] with
    exactly the iterations up to [maxAttempts] left invokes it once per
    iteration, sleeps between consecutive attempts, and ends in the
    [throw] after the loop. *)
Lemma retryLoop_always_failing {S T} (operation : S -> Result JsError T * S)
    config operationName :
  (forall s, exists e s',
      operation s = (Err e, s') /\ Retry.isNonRetryable e = false) ->
  forall remaining attempt lastError (env : Retry.Env (S * nat)),
    attempt + Z.of_nat remaining = Retry.maxAttempts config ->
    exists e env',
      Retry.retryLoop (counted operation) config operationName
                      (Datatypes.S remaining) attempt lastError env
      = (Err (Retry.exhausted config operationName (Some e)), env') /\
      snd (Retry.opState env') = (snd (Retry.opState env) + Datatypes.S remaining)%nat /\
      length (Retry.slept env') = (length (Retry.slept env) + remaining)%nat.
Proof.
  intros Hfail.
  assert (Hcall : forall env : Retry.Env (S * nat), exists e env1,
             Retry.call (counted operation) env = (Err e, env1) /\
             Retry.isNonRetryable e = false /\
             snd (Retry.opState env1) = Datatypes.S (snd (Retry.opState env)) /\
             Retry.slept env1 = Retry.slept env /\
             Retry.draws env1 = Retry.draws env).
  { intros env. destruct (Hfail (fst (Retry.opState env))) as (e & s' & Hop & Hr).
    exists e. eexists. unfold Retry.call, counted. rewrite Hop.
    repeat split; [exact Hr | reflexivity..]. }
  induction remaining as [| remaining IH]; intros attempt lastError env Hsum.
  - destruct (Hcall env) as (e & env1 & Hc & Hr & Hn & Hs & _).
    exists e, env1. replace attempt with (Retry.maxAttempts config) by lia.
    rewrite (retryLoop_last _ _ _ _ _ env env1 e Hc Hr).
    repeat split; [lia | rewrite Hs; lia].
  - destruct (Hcall env) as (e & env1 & Hc & Hr & Hn & Hs & _).
    rewrite (retryLoop_retry _ _ _ _ _ _ env env1 e Hc Hr) by lia.
    destruct (Retry.jitter config).
    + edestruct (IH (attempt + 1) (Some e)) as (e' & env' & Heq & Hn' & Hs');
        [lia |].
      exists e', env'. split; [exact Heq |].
      rewrite Hn', Hs'. cbn. rewrite length_app, Hs, Hn. cbn. lia.
    + edestruct (IH (attempt + 1) (Some e)) as (e' & env' & Heq & Hn' & Hs');
        [lia |].
      exists e', env'. split; [exact Heq |].
      rewrite Hn', Hs'. cbn. rewrite length_app, Hs, Hn. cbn. lia.
Qed.

(** C5. [withRetry] invokes the operation at most [maxAttempts] times; an
    attempt that fails with a [NonRetryableError] ends the call with that
    very error, nothing slept and no further attempt made; an attempt
    that fails otherwise and is not the last is followed by one sleep of
    [min(baseDelay * backoffMultiplier^(attempt-1), maxDelay)],
    multiplied, when [jitter] is on, by [0.5 + r * 0.5] for the next
    random draw [r], a factor between 0.5 and 1 for [r] in [0,1); and
    with [maxAttempts = 3] an operation that fails on every attempt is
    invoked 3 times and the call ends in an error whose message carries
    the attempt count 3. *)
Theorem withRetry_bounded_backoff
    {S T : Type} (operation : S -> Result JsError T * S)
    (options : Retry.PartialRetryOptions) (operationName : string) :
  let config := Retry.mergeOptions options in
  (forall env : Retry.Env (S * nat),
      (snd (Retry.opState
              (snd (Retry.withRetry (counted operation) options operationName env)))
       <= snd (Retry.opState env) + Z.to_nat (Retry.maxAttempts config))%nat)
  /\
  (forall remaining attempt lastError (env env1 : Retry.Env S) error,
      Retry.call operation env = (Err error, env1) ->
      Retry.isNonRetryable error = true ->
      Retry.retryLoop operation config operationName
                      (Datatypes.S remaining) attempt lastError env
      = (Err error, env1) /\
      Retry.slept env1 = Retry.slept env)
  /\
  (forall remaining attempt lastError (env env1 : Retry.Env S) error,
      Retry.call operation env = (Err error, env1) ->
      Retry.isNonRetryable error = false ->
      attempt <> Retry.maxAttempts config ->
      exists delay env2,
        Retry.retryLoop operation config operationName
                        (Datatypes.S remaining) attempt lastError env
        = Retry.retryLoop operation config operationName
                          remaining (attempt + 1) (Some error)
                          (Retry.sleep delay env2) /\
        Retry.slept (Retry.sleep delay env2) = Retry.slept env ++ [delay] /\
        let backoff :=
          Qmin (Retry.baseDelay config
                * Retry.backoffMultiplier config ^ (attempt - 1))
               (Retry.maxDelay config) in
        (Retry.jitter config = false -> delay = backoff /\ env2 = env1) /\
        (Retry.jitter config = true ->
         exists factor,
           factor = ((5 # 10) + Retry.rng env1 (Retry.draws env1) * (5 # 10))%Q /\
           delay = (backoff * factor)%Q /\
           env2 = snd (Retry.random env1) /\
           ((0 <= Retry.rng env1 (Retry.draws env1))%Q ->
            (Retry.rng env1 (Retry.draws env1) < 1)%Q ->
            (5 # 10 <= factor)%Q /\ (factor <= 1)%Q)))
  /\
  (Retry.maxAttempts config = 3 ->
   (forall s, exists e s',
       operation s = (Err e, s') /\ Retry.isNonRetryable e = false) ->
   forall env : Retry.Env (S * nat),
   exists lastError env',
     Retry.withRetry (counted operation) options operationName env
     = (Err (newError (operationName ++ " failed after 3 attempts: "
                       ++ message lastError)), env') /\
     snd (Retry.opState env') = (snd (Retry.opState env) + 3)%nat).
Proof.
  intros config. split; [| split; [| split]].
  - intros env. unfold Retry.withRetry. apply retryLoop_invocations.
  - intros remaining attempt lastError env env1 error Hcall Hnr. split.
    + now apply retryLoop_nonretryable.
    + unfold Retry.call in Hcall.
      destruct (operation (Retry.opState env)) as [r s'].
      injection Hcall as _ <-. reflexivity.
  - intros remaining attempt lastError env env1 error Hcall Hr Hne.
    rewrite (retryLoop_retry _ _ _ _ _ _ env env1 error Hcall Hr Hne).
    assert (Hs : Retry.slept env1 = Retry.slept env).
    { unfold Retry.call in Hcall.
      destruct (operation (Retry.opState env)) as [r s'].
      injection Hcall as _ <-. reflexivity. }
    unfold Retry.backoffDelay, Retry.jitterFactor.
    destruct (Retry.jitter config) eqn:Hj.
    + eexists. eexists. split; [reflexivity |].
      split; [cbn; now rewrite Hs |].
      split; [discriminate |].
      intros _. eexists. split; [reflexivity |]. split; [reflexivity |].
      split; [reflexivity |].
      intros H0 H1. split; lra.
    + eexists. eexists. split; [reflexivity |].
      split; [cbn; now rewrite Hs |].
      split; [intros _; split; reflexivity | discriminate].
  - intros Hmax Hfail env. unfold Retry.withRetry. fold config. rewrite Hmax.
    destruct (retryLoop_always_failing operation config operationName Hfail
                2%nat 1 None env) as (e & env' & Heq & Hn & _); [lia |].
    exists e, env'. split; [| exact Hn].
    change (Z.to_nat 3) with 3%nat. rewrite Heq.
    unfold Retry.exhausted. rewrite Hmax. reflexivity.
Qed.

(* --------------------------------------------------------------------- *)
(** ** Pricing                                                            *)
(* --------------------------------------------------------------------- *)

Lemma endpointOverride_mapped prices endpoint price :
  prices !! endpoint = Some price ->
  ~ (price == 0)%Q ->
  endpointOverride (Some prices) endpoint = price.
Proof.
  intros Hlook Hnz. unfold endpointOverride. rewrite Hlook.
  destruct (Qeq_bool price 0) eqn:E; [| reflexivity].
  apply Qeq_bool_eq in E. contradiction.
Qed.

Lemma performPricingCalculation_agrees endpoint requestSize responseSize duration rule :
  let c := UsageProcessor.performPricingCalculation
             endpoint requestSize responseSize duration rule in
  let k := PricingCalculator.calculateCost
             (basePrice rule) (sizeMultiplier rule) (durationMultiplier rule)
             (endpointPricing rule) endpoint requestSize responseSize duration in
  calc_basePrice c = PricingCalculator.basePrice k /\
  sizePrice c = PricingCalculator.sizePrice k /\
  durationPrice c = PricingCalculator.durationPrice k /\
  endpointPrice c = PricingCalculator.endpointPrice k /\
  totalPrice c = PricingCalculator.totalPrice k.
Proof. repeat split; reflexivity. Qed.

(** C6. With [basePrice = 0.002], [sizeMultiplier = 0.0002],
    [durationMultiplier = 0.00002], a request and a response of 2048 bytes
    each, a duration of 2000 ms and the endpoint "/api/v1/proofs" priced
    at 0.02, both copies of the calculation
    ([UsageProcessorService.performPricingCalculation] and
    [PricingCalculator.calculateCost]) return [sizePrice = 0.0008],
    [durationPrice = 0.00004], [endpointPrice = 0.02] and
    [totalPrice = 0.02284], as exact decimal values. *)
Theorem calculateCost_proofs_example
    (rule : PricingRule) (prices : gmap string Q) (price : Q) :
  (basePrice rule == 0.002)%Q ->
  (sizeMultiplier rule == 0.0002)%Q ->
  (durationMultiplier rule == 0.00002)%Q ->
  endpointPricing rule = Some prices ->
  prices !! "/api/v1/proofs" = Some price ->
  (price == 0.02)%Q ->
  let c := UsageProcessor.performPricingCalculation
             "/api/v1/proofs" 2048 2048 2000 rule in
  let k := PricingCalculator.calculateCost
             (basePrice rule) (sizeMultiplier rule) (durationMultiplier rule)
             (endpointPricing rule) "/api/v1/proofs" 2048 2048 2000 in
  ((sizePrice c == 0.0008)%Q /\ (durationPrice c == 0.00004)%Q /\
   (endpointPrice c == 0.02)%Q /\ (totalPrice c == 0.02284)%Q) /\
  ((PricingCalculator.sizePrice k == 0.0008)%Q /\
   (PricingCalculator.durationPrice k == 0.00004)%Q /\
   (PricingCalculator.endpointPrice k == 0.02)%Q /\
   (PricingCalculator.totalPrice k == 0.02284)%Q).
Proof.
  intros Hb Hs Hd Hmap Hlook Hp c k.
  assert (Hsize : (Decimal.ofQuotient (2048 + 2048) 1024 == 4)%Q) by reflexivity.
  assert (Hdur : (Decimal.ofQuotient 2000 1000 == 2)%Q) by reflexivity.
  assert (He : endpointOverride (endpointPricing rule) "/api/v1/proofs" = price).
  { rewrite Hmap. apply endpointOverride_mapped; [assumption |].
    intros H0. rewrite Hp in H0. discriminate H0. }
  assert (Hc : (sizePrice c == 0.0008)%Q /\ (durationPrice c == 0.00004)%Q /\
               (endpointPrice c == 0.02)%Q /\ (totalPrice c == 0.02284)%Q).
  { subst c. unfold UsageProcessor.performPricingCalculation.
    cbn [sizePrice durationPrice endpointPrice totalPrice].
    rewrite He, Hsize, Hdur, Hb, Hs, Hd, Hp. repeat split; reflexivity. }
  split; [exact Hc |].
  destruct (performPricingCalculation_agrees
              "/api/v1/proofs" 2048 2048 2000 rule) as (_ & E1 & E2 & E3 & E4).
  cbv zeta in E1, E2, E3, E4. subst c k.
  rewrite <- E1, <- E2, <- E3, <- E4. exact Hc.
Qed.

Lemma calculateCost_proofs_example_witness :
  let c := UsageProcessor.performPricingCalculation
             "/api/v1/proofs" 2048 2048 2000 Sample.standardRule in
  let k := PricingCalculator.calculateCost
             0.002 0.0002 0.00002 (Some Sample.standardEndpointPricing)
             "/api/v1/proofs" 2048 2048 2000 in
  ((sizePrice c == 0.0008)%Q /\ (durationPrice c == 0.00004)%Q /\
   (endpointPrice c == 0.02)%Q /\ (totalPrice c == 0.02284)%Q) /\
  ((PricingCalculator.sizePrice k == 0.0008)%Q /\
   (PricingCalculator.durationPrice k == 0.00004)%Q /\
   (PricingCalculator.endpointPrice k == 0.02)%Q /\
   (PricingCalculator.totalPrice k == 0.02284)%Q).
Proof.
  apply (calculateCost_proofs_example
           Sample.standardRule Sample.standardEndpointPricing 0.02%Q);
    reflexivity.
Defined.

(* --------------------------------------------------------------------- *)
(** ** Cost estimate and credit pre-check                                 *)
(* --------------------------------------------------------------------- *)

Section EstimateFacts.
Variable faults : Faults.
Variable defaults : ColumnDefaults.

(** [estimateCost] in terms of the outcome of the tier lookup. *)
Lemma estimateCost_unfold endpoint requestSize estimatedDuration tierName w :
  UsageProcessor.estimateCost faults endpoint requestSize estimatedDuration tierName w
  = match UsageProcessor.getPricingRule faults tierName w with
    | (Ok pricing, w1) =>
        (Ok (totalPrice (UsageProcessor.performPricingCalculation
                           endpoint requestSize (Z.max requestSize 1024)
                           estimatedDuration pricing)), w1)
    | (Err _, w1) =>
        (Ok 0%Q, withLog (log w1 ++ [(ERROR, "Failed to estimate cost:")]) w1)
    end.
Proof.
  unfold UsageProcessor.estimateCost, tryCatch, bind, ret, logger.
  destruct (UsageProcessor.getPricingRule faults tierName w) as [[p | e] w1];
    reflexivity.
Qed.

(** The tier lookup writes neither to the store nor to the balance cache. *)
Lemma getPricingRule_frame tierName w :
  db (snd (UsageProcessor.getPricingRule faults tierName w)) = db w /\
  balanceCache (snd (UsageProcessor.getPricingRule faults tierName w))
  = balanceCache w.
Proof.
  unfold UsageProcessor.getPricingRule, UsageProcessor.pricingTierFindUnique,
    tryCatch, bind, client, throw, logger.
  destruct (pricingCache w !! tierName); [split; reflexivity |].
  destruct (faults PricingTierFindUnique); [split; reflexivity |].
  destruct (pricingTier (db w) !! tierName) as [tier |];
    [destruct (tier_isActive tier) |]; split; reflexivity.
Qed.

Lemma getPricingRule_not_found tierName w :
  pricingCache w !! tierName = None ->
  faults PricingTierFindUnique = None ->
  (pricingTier (db w) !! tierName = None \/
   exists tier, pricingTier (db w) !! tierName = Some tier /\
                tier_isActive tier = false) ->
  UsageProcessor.getPricingRule faults tierName w
  = (Err (PricingTierNotFoundError tierName),
     withLog (log w ++ [(ERROR, "Failed to get pricing rule:")]) w).
Proof.
  intros Hcache Hfault Htier.
  unfold UsageProcessor.getPricingRule, UsageProcessor.pricingTierFindUnique,
    tryCatch, bind, client, throw, logger.
  rewrite Hcache, Hfault.
  destruct Htier as [Hnone | (tier & Hsome & Hinactive)].
  - now rewrite Hnone.
  - now rewrite Hsome, Hinactive.
Qed.

Lemma getPricingRule_client_failure tierName w msg :
  pricingCache w !! tierName = None ->
  faults PricingTierFindUnique = Some msg ->
  UsageProcessor.getPricingRule faults tierName w
  = (Err (ClientError msg),
     withLog (log w ++ [(ERROR, "Failed to get pricing rule:")]) w).
Proof.
  intros Hcache Hfault.
  unfold UsageProcessor.getPricingRule, UsageProcessor.pricingTierFindUnique,
    tryCatch, bind, client, throw, logger.
  now rewrite Hcache, Hfault.
Qed.

(** C9. [estimateCost] returns a value on every input, in every world and
    under every client failure; when the tier lookup fails it returns 0,
    which is the case in particular for an unknown or inactive tier (the
    lookup raises [PricingTierNotFoundError]) and for a failing storage
    call; and [preCheckCredits] then returns without throwing and without
    consulting the balance: all it leaves behind are the log lines of the
    failed estimate, whatever the balance, the cache or the failures of
    the other clients are. *)
Theorem estimateCost_never_throws :
  (forall endpoint requestSize estimatedDuration tierName w,
      exists cost w',
        UsageProcessor.estimateCost faults endpoint requestSize
                                    estimatedDuration tierName w
        = (Ok cost, w'))
  /\
  (forall endpoint requestSize estimatedDuration uid tierName w e w1,
      UsageProcessor.getPricingRule faults tierName w = (Err e, w1) ->
      let w' := withLog (log w1 ++ [(ERROR, "Failed to estimate cost:")]) w1 in
      UsageProcessor.estimateCost faults endpoint requestSize
                                  estimatedDuration tierName w
      = (Ok 0%Q, w') /\
      UsageTracking.preCheckCredits faults defaults endpoint requestSize
                                    uid tierName w
      = (Ok tt, w') /\
      db w' = db w /\ balanceCache w' = balanceCache w)
  /\
  (forall tierName w,
      pricingCache w !! tierName = None ->
      (faults PricingTierFindUnique = None ->
       (pricingTier (db w) !! tierName = None \/
        exists tier, pricingTier (db w) !! tierName = Some tier /\
                     tier_isActive tier = false) ->
       fst (UsageProcessor.getPricingRule faults tierName w)
       = Err (PricingTierNotFoundError tierName)) /\
      (forall msg,
          faults PricingTierFindUnique = Some msg ->
          fst (UsageProcessor.getPricingRule faults tierName w)
          = Err (ClientError msg))).
Proof.
  split; [| split].
  - intros endpoint requestSize estimatedDuration tierName w.
    rewrite estimateCost_unfold.
    destruct (UsageProcessor.getPricingRule faults tierName w) as [[p | e] w1];
      eexists; eexists; reflexivity.
  - intros endpoint requestSize estimatedDuration uid tierName w e w1 Hrule w'.
    assert (Hest : forall duration,
               UsageProcessor.estimateCost faults endpoint requestSize
                                           duration tierName w = (Ok 0%Q, w')).
    { intros duration. rewrite estimateCost_unfold, Hrule. reflexivity. }
    split; [apply Hest |]. split.
    + unfold UsageTracking.preCheckCredits, UsageTracking.estimateRequestCost,
        tryCatch, bind. rewrite Hest. reflexivity.
    + pose proof (getPricingRule_frame tierName w) as [Hdb Hcache].
      rewrite Hrule in Hdb, Hcache. exact (conj Hdb Hcache).
  - intros tierName w Hcache. split.
    + intros Hfault Htier. now rewrite getPricingRule_not_found.
    + intros msg Hfault. now rewrite (getPricingRule_client_failure _ _ msg).
Qed.

End EstimateFacts.

(* --------------------------------------------------------------------- *)
(** ** Credit ledger                                                      *)
(* --------------------------------------------------------------------- *)

Ltac unfold_monad :=
  unfold tryCatch, transaction, bind, ret, throw, client, logger in *.

Ltac unfold_ledger :=
  unfold runLedgerCall,
    CreditManagement.deductCredits, CreditManagement.addCredits,
    CreditManagement.getBalance, CreditManagement.updateCreditSettings,
    CreditManagement.suspendAccount, CreditManagement.reactivateAccount,
    CreditManagement.createCreditAccount,
    CreditManagement.userCreditFindUnique, CreditManagement.userCreditUpdate,
    CreditManagement.userCreditCreate, CreditManagement.creditTransactionCreate,
    CreditManagement.clearBalanceCache, CreditManagement.handleLowBalance,
    CreditManagement.redisDel, CreditManagement.redisGet,
    CreditManagement.redisSetex in *.

(** Runs a service method through all its branches. *)
Ltac run_cases := unfold_ledger; unfold_monad; repeat (case_match; simplify_eq/=).

Lemma Decimal_lt_true a b : Decimal.lt a b = true <-> (a < b)%Q.
Proof.
  unfold Decimal.lt. rewrite negb_true_iff.
  destruct (Qle_bool b a) eqn:E.
  - apply Qle_bool_iff in E. split; [discriminate | intros H; lra].
  - split; [intros _ | reflexivity].
    destruct (Qlt_le_dec a b) as [Hlt | Hle]; [assumption |].
    apply Qle_bool_iff in Hle. congruence.
Qed.

Lemma Decimal_lt_false a b : Decimal.lt a b = false <-> (b <= a)%Q.
Proof.
  unfold Decimal.lt. rewrite negb_false_iff. apply Qle_bool_iff.
Qed.

Lemma Decimal_lte_true a b : Decimal.lte a b = true <-> (a <= b)%Q.
Proof. apply Qle_bool_iff. Qed.

Section LedgerFacts.
Variable faults : Faults.
Variable defaults : ColumnDefaults.


(** An accepted deduction found an active account that covers the amount,
    and leaves the store with that account updated and one more row. *)
Lemma deductCredits_commit uid amount data w b :
  fst (CreditManagement.deductCredits faults uid amount data w) = Ok b ->
  exists row,
    userCredit (db w) !! uid = Some row /\
    isActive (credit row) = true /\
    Decimal.lt (balance (credit row)) amount = false /\
    let row' :=
      {| id := id row; userId := userId row;
         credit := CreditManagement.setAmounts
                     (balance (credit row) - amount)%Q
                     (totalAllocated (credit row))
                     (totalUsed (credit row) + amount)%Q (credit row);
         updatedAt := clock w |} in
    b = credit row' /\
    db (snd (CreditManagement.deductCredits faults uid amount data w))
    = mkDb (<[uid := row']> (userCredit (db w)))
           (creditTransaction (db w)
            ++ [CreditManagement.transactionRow
                  row' amount (balance (credit row))
                  (balance (credit row) - amount)%Q data])
           (pricingTier (db w)) (idSeq (db w)).
Proof.
  run_cases; try done.
  all: intros; simplify_eq/=; eexists; repeat split; eauto.
  all: try (destruct (isActive _); done).
Qed.

(** A deduction the balance does not cover: the call throws and the world
    is the one it started in, plus the log line of the outer [catch]. *)
Lemma deductCredits_uncovered uid amount data w row :
  userCredit (db w) !! uid = Some row ->
  (balance (credit row) < amount)%Q ->
  exists e,
    CreditManagement.deductCredits faults uid amount data w
    = (Err e, withLog (log w ++ [(ERROR, "Failed to deduct credits:")]) w) /\
    (faults UserCreditFindUnique = None ->
     e = if isActive (credit row)
         then InsufficientCreditsError amount (balance (credit row)) uid
         else PlainError ("Credit account suspended for user: " ++ uid)).
Proof.
  intros Hrow Hlt. apply Decimal_lt_true in Hlt.
  unfold_ledger. unfold_monad.
  destruct (faults UserCreditFindUnique).
  - eexists. split; [reflexivity | discriminate].
  - rewrite Hrow. destruct (isActive (credit row)); cbn [negb].
    + rewrite Hlt. eexists. split; reflexivity.
    + eexists. split; reflexivity.
Qed.

Lemma deductCredits_no_account uid amount data w :
  userCredit (db w) !! uid = None ->
  faults UserCreditFindUnique = None ->
  CreditManagement.deductCredits faults uid amount data w
  = (Err (PlainError ("Credit account not found for user: " ++ uid)),
     withLog (log w ++ [(ERROR, "Failed to deduct credits:")]) w).
Proof.
  intros Hrow Hfault. unfold_ledger. unfold_monad.
  now rewrite Hfault, Hrow.
Qed.

(** C1 (amended). A deduction of more than the balance is rejected and
    writes nothing, whatever the state of the account: the account row
    (balance, totalAllocated, totalUsed) is the same, no transaction row
    is added and the balance cache is untouched.  When the account is
    active (and the read of the account did not fail) the error is
    [InsufficientCreditsError] with [required] the amount and [available]
    the balance. *)
Theorem deductCredits_insufficient_no_writes uid amount data w row :
  userCredit (db w) !! uid = Some row ->
  (balance (credit row) < amount)%Q ->
  exists e w',
    CreditManagement.deductCredits faults uid amount data w = (Err e, w') /\
    userCredit (db w') !! uid = Some row /\
    creditTransaction (db w') = creditTransaction (db w) /\
    db w' = db w /\
    balanceCache w' = balanceCache w /\
    (faults UserCreditFindUnique = None ->
     isActive (credit row) = true ->
     e = InsufficientCreditsError amount (balance (credit row)) uid).
Proof.
  intros Hrow Hlt.
  destruct (deductCredits_uncovered uid amount data w row Hrow Hlt)
    as (e & Hrun & Herr).
  exists e. eexists. split; [exact Hrun |].
  cbn [db withLog balanceCache]. repeat split; try assumption.
  intros Hfault Hactive. rewrite (Herr Hfault), Hactive. reflexivity.
Qed.

End LedgerFacts.

Lemma deductCredits_insufficient_no_writes_witness :
  exists e w',
    CreditManagement.deductCredits noFaults "alice" 15 Sample.usage
                                   (Sample.ledger true)
    = (Err e, w') /\
    userCredit (db w') !! "alice" = Some (Sample.alice true) /\
    creditTransaction (db w') = [] /\
    db w' = db (Sample.ledger true) /\
    balanceCache w' = ∅ /\
    (noFaults UserCreditFindUnique = None ->
     true = true ->
     e = InsufficientCreditsError 15 10 "alice").
Proof.
  apply (deductCredits_insufficient_no_writes
           noFaults "alice" 15%Q Sample.usage (Sample.ledger true)
           (Sample.alice true));
    reflexivity.
Defined.

(** C1 as stated fails on a suspended account: the deduction of 15 from
    a balance of 10 is rejected with the suspension error, not with
    [InsufficientCreditsError]. *)
Lemma deductCredits_suspended_counterexample :
  userCredit (db (Sample.ledger false)) !! "alice" = Some (Sample.alice false) /\
  balance (credit (Sample.alice false)) = 10%Q /\
  (10 < 15)%Q /\
  fst (CreditManagement.deductCredits noFaults "alice" 15 Sample.usage
                                      (Sample.ledger false))
  = Err (PlainError "Credit account suspended for user: alice") /\
  fst (CreditManagement.deductCredits noFaults "alice" 15 Sample.usage
                                      (Sample.ledger false))
  <> Err (InsufficientCreditsError 15 10 "alice").
Proof.
  assert (H : fst (CreditManagement.deductCredits noFaults "alice" 15 Sample.usage
                                                  (Sample.ledger false))
              = Err (PlainError "Credit account suspended for user: alice"))
    by reflexivity.
  repeat split; try reflexivity. rewrite H. discriminate.
Qed.


Section LedgerJournal.
Variable faults : Faults.
Variable defaults : ColumnDefaults.





End LedgerJournal.

Section LowBalance.
Variable faults : Faults.

(** A deduction the balance covers, on an active account and with the
    storage calls working, is accepted: the account is updated and the row
    appended; when the new balance is at or below the threshold the
    low-balance handler has run, as the lines this call adds to the log
    show (the handler's warning, or the line of its own [catch]). *)
Lemma deductCredits_accepted uid a data w row :
  storageUp faults ->
  userCredit (db w) !! uid = Some row ->
  isActive (credit row) = true ->
  (a <= balance (credit row))%Q ->
  let row' :=
    {| id := id row; userId := userId row;
       credit := CreditManagement.setAmounts
                   (balance (credit row) - a)%Q
                   (totalAllocated (credit row))
                   (totalUsed (credit row) + a)%Q (credit row);
       updatedAt := clock w |} in
  exists w',
    CreditManagement.deductCredits faults uid a data w = (Ok (credit row'), w') /\
    db w' = mkDb (<[uid := row']> (userCredit (db w)))
                 (creditTransaction (db w)
                  ++ [CreditManagement.transactionRow
                        row' a (balance (credit row))
                        (balance (credit row) - a)%Q data])
                 (pricingTier (db w)) (idSeq (db w)) /\
    (forall threshold,
        lowBalanceThreshold (credit row) = Some threshold ->
        (balance (credit row) - a <= threshold)%Q ->
        exists added,
          log w' = log w ++ added /\
          ((WARN, "Low balance detected:"%string) ∈ added \/
           (ERROR, "Failed to handle low balance:"%string) ∈ added) /\
          (faults LowBalanceWarn = None ->
           (WARN, "Low balance detected:"%string) ∈ added)).
Proof.
  intros (Hfind & _ & Hupd & Hrowc & Hcommit) Hrow Hactive Hcover row'.
  apply Decimal_lt_false in Hcover.
  unfold_ledger. unfold_monad.
  rewrite Hfind, Hrow, Hactive. cbn [negb]. rewrite Hcover, Hupd.
  cbn [db withDb userCredit]. rewrite Hrow, Hrowc, Hcommit.
  destruct (lowBalanceThreshold (credit row)) as [threshold |] eqn:Hthr; cbn.
  - rewrite Hthr.
    destruct (Decimal.lte (balance (credit row) - a) threshold) eqn:Hlte.
    + repeat (case_match; simplify_eq/=).
      all: eexists; split; [reflexivity |]; split; [reflexivity |].
      all: intros t [= <-] _; cbn; rewrite <- ?app_assoc.
      all: eexists; split; [reflexivity |].
      all: split; [| intros ?; simplify_eq]; set_solver.
    + repeat (case_match; simplify_eq/=).
      all: eexists; split; [reflexivity |]; split; [reflexivity |].
      all: intros t [= <-] Hle; apply Decimal_lte_true in Hle; congruence.
  - rewrite Hthr. repeat (case_match; simplify_eq/=).
    all: eexists; split; [reflexivity |]; split; [reflexivity |]; intros t [=].
Qed.

End LowBalance.

(** C7. A deduction that takes the balance of an active account from
    above its [lowBalanceThreshold] to or below it runs the low-balance
    handler (the call adds the handler's warning to the log, or the line
    of the handler's own [catch] when the handler failed), and the
    deduction is committed whatever fails in the handler:
    the call returns the new balance, the account is updated and its
    transaction row appended, and the returned balance and the store are
    the same under every other pattern of handler (and cache) failures. *)
Theorem deduct_low_balance_never_blocks
    (faults : Faults) uid a data w row threshold :
  storageUp faults ->
  userCredit (db w) !! uid = Some row ->
  isActive (credit row) = true ->
  lowBalanceThreshold (credit row) = Some threshold ->
  (a <= balance (credit row))%Q ->
  (threshold < balance (credit row))%Q ->
  (balance (credit row) - a <= threshold)%Q ->
  exists b w',
    CreditManagement.deductCredits faults uid a data w = (Ok b, w') /\
    balance b = (balance (credit row) - a)%Q /\
    balanceOf (db w') uid = (balance (credit row) - a)%Q /\
    (exists t,
        creditTransaction (db w') = creditTransaction (db w) ++ [t] /\
        amount t = a /\
        balanceBefore t = balance (credit row) /\
        balanceAfter t = (balance (credit row) - a)%Q) /\
    (exists added,
        log w' = log w ++ added /\
        ((WARN, "Low balance detected:"%string) ∈ added \/
         (ERROR, "Failed to handle low balance:"%string) ∈ added) /\
        (faults LowBalanceWarn = None ->
         (WARN, "Low balance detected:"%string) ∈ added)) /\
    (forall others : Faults,
        storageUp others ->
        exists w'',
          CreditManagement.deductCredits others uid a data w = (Ok b, w'') /\
          db w'' = db w').
Proof.
  intros Hup Hrow Hactive Hthr Hcover _ Hcross.
  destruct (deductCredits_accepted faults uid a data w row Hup Hrow Hactive Hcover)
    as (w' & Hrun & Hdb & Hlow).
  eexists. exists w'. split; [exact Hrun |].
  split; [reflexivity |].
  split; [unfold balanceOf; rewrite Hdb; cbn; now rewrite lookup_insert_eq |].
  split; [eexists; rewrite Hdb; cbn; repeat split; reflexivity |].
  split; [exact (Hlow threshold Hthr Hcross) |].
  intros others Hup'.
  destruct (deductCredits_accepted others uid a data w row Hup' Hrow Hactive Hcover)
    as (w'' & Hrun' & Hdb' & _).
  exists w''. split; [exact Hrun' | now rewrite Hdb', Hdb].
Qed.

Lemma deduct_low_balance_never_blocks_witness :
  exists b w',
    CreditManagement.deductCredits Sample.handlerDown "alice" 6 Sample.usage
                                   (Sample.ledger true)
    = (Ok b, w') /\
    balance b = (10 - 6)%Q /\
    balanceOf (db w') "alice" = (10 - 6)%Q /\
    (exists t,
        creditTransaction (db w') = [] ++ [t] /\
        amount t = 6%Q /\
        balanceBefore t = 10%Q /\
        balanceAfter t = (10 - 6)%Q) /\
    (exists added,
        log w' = [] ++ added /\
        ((WARN, "Low balance detected:"%string) ∈ added \/
         (ERROR, "Failed to handle low balance:"%string) ∈ added) /\
        (Sample.handlerDown LowBalanceWarn = None ->
         (WARN, "Low balance detected:"%string) ∈ added)) /\
    (forall others : Faults,
        storageUp others ->
        exists w'',
          CreditManagement.deductCredits others "alice" 6 Sample.usage
                                         (Sample.ledger true)
          = (Ok b, w'') /\
          db w'' = db w').
Proof.
  apply (deduct_low_balance_never_blocks
           Sample.handlerDown "alice" 6%Q Sample.usage (Sample.ledger true)
           (Sample.alice true) 5%Q);
    first [ repeat split; reflexivity | reflexivity | vm_compute; discriminate ].
Defined.

Section LazyCreation.
Variable faults : Faults.
Variable defaults : ColumnDefaults.

Lemma cacheBacked_miss uid w :
  cacheBacked w ->
  userCredit (db w) !! uid = None ->
  balanceCache w !! CreditManagement.cacheKey uid = None.
Proof.
  intros Hback Hnone.
  destruct (balanceCache w !! CreditManagement.cacheKey uid) eqn:Hc; [| reflexivity].
  destruct (Hback uid) as [row Hrow]; [rewrite Hc; eauto |]. congruence.
Qed.

(** C10. For a user without an account (in a world where the balance
    cache only holds balances of existing accounts, and with the storage
    and cache calls working): [getBalance] creates the account, active
    and with [balance], [totalAllocated] and [totalUsed] all 0, and
    returns it; [addCredits] creates the same account and credits it, its
    transaction row starting from a balance of 0; [deductCredits] throws
    'Credit account not found for user: ...' and leaves the store as it
    was, with no account and no transaction row added. *)
Theorem lazy_account_creation_asymmetry uid w :
  userCredit (db w) !! uid = None ->
  cacheBacked w ->
  storageUp faults ->
  cacheUp faults ->
  let fresh :=
    {| id := idSeq (db w); userId := uid;
       credit := CreditManagement.newAccountData defaults;
       updatedAt := clock w |} in
  (balance (credit fresh) = 0%Q /\ totalAllocated (credit fresh) = 0%Q /\
   totalUsed (credit fresh) = 0%Q /\ isActive (credit fresh) = true)
  /\
  (exists w',
      CreditManagement.getBalance faults defaults uid w = (Ok (credit fresh), w') /\
      userCredit (db w') = <[uid := fresh]> (userCredit (db w)) /\
      creditTransaction (db w') = creditTransaction (db w))
  /\
  (forall a data,
      let credited :=
        {| id := id fresh; userId := uid;
           credit := CreditManagement.setAmounts (0 + a)%Q (0 + a)%Q 0%Q (credit fresh);
           updatedAt := clock w |} in
      exists w',
        CreditManagement.addCredits faults defaults uid a data w
        = (Ok (credit credited), w') /\
        userCredit (db w') = <[uid := credited]> (userCredit (db w)) /\
        creditTransaction (db w')
        = creditTransaction (db w)
          ++ [CreditManagement.transactionRow credited a 0%Q (0 + a)%Q data])
  /\
  (forall a data,
      exists w',
        CreditManagement.deductCredits faults uid a data w
        = (Err (PlainError ("Credit account not found for user: " ++ uid)), w') /\
        db w' = db w /\
        userCredit (db w') !! uid = None /\
        creditTransaction (db w') = creditTransaction (db w)).
Proof.
  intros Hnone Hback (Hfind & Hcreate & Hupd & Hrowc & Hcommit)
         (Hget & Hsetex & Hdel) fresh.
  pose proof (cacheBacked_miss uid w Hback Hnone) as Hmiss.
  split; [repeat split; reflexivity |]. split; [| split].
  - unfold_ledger. unfold_monad.
    rewrite Hget, Hmiss, Hfind, Hnone, Hcreate. cbn [db withDb].
    rewrite Hnone, Hsetex. eexists. split; [reflexivity |].
    split; reflexivity.
  - intros a data credited. unfold_ledger. unfold_monad.
    rewrite Hfind, Hnone, Hcreate. cbn [db withDb userCredit].
    rewrite Hnone, Hupd. cbn [db withDb userCredit].
    rewrite lookup_insert_eq, Hrowc, Hdel, Hcommit.
    eexists. split; [reflexivity |]. cbn [db withDb withLog withBalanceCache
                                            userCredit creditTransaction].
    split; [apply insert_insert_eq | reflexivity].
  - intros a data. rewrite (deductCredits_no_account faults uid a data w Hnone Hfind).
    eexists. split; [reflexivity |]. cbn. repeat split; assumption.
Qed.

End LazyCreation.

Lemma lazy_account_creation_asymmetry_witness :
  let w := Sample.ledger true in
  let fresh :=
    {| id := 1; userId := "bob";
       credit := CreditManagement.newAccountData Sample.schemaDefaults;
       updatedAt := 1000 |} in
  (balance (credit fresh) = 0%Q /\ totalAllocated (credit fresh) = 0%Q /\
   totalUsed (credit fresh) = 0%Q /\ isActive (credit fresh) = true)
  /\
  (exists w',
      CreditManagement.getBalance noFaults Sample.schemaDefaults "bob" w
      = (Ok (credit fresh), w') /\
      userCredit (db w') = <["bob" := fresh]> (userCredit (db w)) /\
      creditTransaction (db w') = creditTransaction (db w))
  /\
  (forall a data,
      let credited :=
        {| id := id fresh; userId := "bob";
           credit := CreditManagement.setAmounts (0 + a)%Q (0 + a)%Q 0%Q (credit fresh);
           updatedAt := 1000 |} in
      exists w',
        CreditManagement.addCredits noFaults Sample.schemaDefaults "bob" a data w
        = (Ok (credit credited), w') /\
        userCredit (db w') = <["bob" := credited]> (userCredit (db w)) /\
        creditTransaction (db w')
        = creditTransaction (db w)
          ++ [CreditManagement.transactionRow credited a 0%Q (0 + a)%Q data])
  /\
  (forall a data,
      exists w',
        CreditManagement.deductCredits noFaults "bob" a data w
        = (Err (PlainError "Credit account not found for user: bob"), w') /\
        db w' = db w /\
        userCredit (db w') !! "bob" = None /\
        creditTransaction (db w') = creditTransaction (db w)).
Proof.
  apply (lazy_account_creation_asymmetry
           noFaults Sample.schemaDefaults "bob" (Sample.ledger true)).
  - reflexivity.
  - intros uid [cached Hcached]. vm_compute in Hcached. discriminate Hcached.
  - repeat split; reflexivity.
  - repeat split; reflexivity.
Defined.

(* --------------------------------------------------------------------- *)
(** ** The balance cache never runs ahead of the store                    *)
(* --------------------------------------------------------------------- *)

Lemma cacheKey_inj u u' :
  CreditManagement.cacheKey u = CreditManagement.cacheKey u' -> u = u'.
Proof. unfold CreditManagement.cacheKey. cbn. intros H. now simplify_eq. Qed.

Ltac cacheBacked_leaf Hback :=
  let u := fresh "u" in
  let v := fresh "v" in
  let Hv := fresh "Hv" in
  simplify_map_eq/=; intros u [v Hv]; cbn in Hv |- *;
  repeat match type of Hv with
         | delete _ _ !! _ = Some _ =>
             apply lookup_delete_Some in Hv; destruct Hv as [? Hv]
         | <[_ := _]> _ !! _ = Some _ =>
             apply lookup_insert_Some in Hv;
             destruct Hv as [[Hk ?] | [? Hv]];
             [apply cacheKey_inj in Hk; subst | ]
         end;
  rewrite ?lookup_insert_is_Some';
  eauto 6 using mk_is_Some.

(** [cacheBacked] holds of a world with an empty cache and is kept by
    every call of the ledger, whatever fails in it: it holds in every
    world the service can reach. *)
Lemma cacheBacked_initial d pc l c :
  cacheBacked (mkWorld d ∅ pc l c).
Proof. intros uid [v Hv]. cbn in Hv. now rewrite lookup_empty in Hv. Qed.

Lemma runLedgerCall_cacheBacked faults defaults call w :
  cacheBacked w ->
  cacheBacked (snd (runLedgerCall faults defaults call w)).
Proof.
  intros Hback. destruct call.
  - run_cases; try exact Hback; cacheBacked_leaf Hback.
  - run_cases; try exact Hback; cacheBacked_leaf Hback.
  - run_cases; try exact Hback; cacheBacked_leaf Hback.
  - run_cases; try exact Hback; cacheBacked_leaf Hback.
  - run_cases; try exact Hback; cacheBacked_leaf Hback.
  - run_cases; try exact Hback; cacheBacked_leaf Hback.
Qed.

(* --------------------------------------------------------------------- *)
(** ** Multi-chain anchoring                                              *)
(* --------------------------------------------------------------------- *)

Section AnchoringFacts.
Import Verification.
Context {C R : Type}.
Variable faults : Verification.Faults.
Variable anchorToEthereum anchorToArbitrum anchorToStarknet :
  string -> C -> Result JsError string * C.
Variable createVerificationHash : Submission -> list R -> string.

(** [Promise.allSettled] settles every call: one result per call, a
    rejection for a call that always throws and a value for a call that
    always succeeds, wherever it stands among the others. *)
Lemma allSettled_length {A} (calls : list (C -> Result JsError A * C)) c :
  length (fst (allSettled calls c)) = length calls.
Proof.
  revert c. induction calls as [| call rest IH]; intros c; [reflexivity |].
  cbn [allSettled]. destruct (call c) as [r c1].
  specialize (IH c1). destruct (allSettled rest c1) as [settled c2].
  cbn in *. now rewrite IH.
Qed.

Lemma allSettled_lookup {A} (calls : list (C -> Result JsError A * C)) c i call :
  calls !! i = Some call ->
  (alwaysThrows call ->
   exists reason, fst (allSettled calls c) !! i = Some (Rejected reason)) /\
  (alwaysSucceeds call ->
   exists value, fst (allSettled calls c) !! i = Some (Fulfilled value)).
Proof.
  revert c i. induction calls as [| first rest IH]; intros c i Hcall;
    [discriminate |].
  cbn [allSettled]. destruct (first c) as [r c1] eqn:Hfirst.
  destruct (allSettled rest c1) as [settled c2] eqn:Hrest.
  destruct i as [| i]; cbn in Hcall |- *.
  - injection Hcall as ->. split; intros Hall; specialize (Hall c);
      rewrite Hfirst in Hall; destruct r; try discriminate; eauto.
  - specialize (IH c1 i Hcall). now rewrite Hrest in IH.
Qed.

Lemma logVerification_returns submissionId level msg details (w : World C) :
  exists w',
    logVerification faults submissionId level msg details w = (Ok tt, w') /\
    chains w' = chains w /\ proof w' = proof w /\
    (faults VerificationLogCreate = None ->
     verificationLog w'
     = verificationLog w
       ++ [{| log_submissionId := submissionId; log_level := level;
              log_message := msg; log_details := details |}]).
Proof.
  unfold logVerification, Verification.logger, Verification.client,
    tryCatch, bind.
  cbn. destruct (faults VerificationLogCreate); eexists; repeat split;
    discriminate.
Qed.

Lemma applyUpdate_idempotent submissionId data row :
  applyUpdate submissionId data (applyUpdate submissionId data row)
  = applyUpdate submissionId data row.
Proof.
  unfold applyUpdate.
  destruct (String.eqb (proof_submissionId row) submissionId) eqn:E; cbn;
    rewrite E; [| reflexivity].
  unfold overwrite.
  destruct (set_ethereumTxHash data), (set_arbitrumTxHash data),
    (set_starknetTxHash data); reflexivity.
Qed.

(** The update loop leaves the chains alone; when the storage call works
    and there is at least one pass, every [proof] row of the submission
    carries the hashes of [data] afterwards. *)
Lemma forEach_update passes submissionId data (w : World C) :
  let body :=
    if nonEmpty data then proofUpdateMany faults submissionId data else ret tt in
  chains (snd (forEach passes body w)) = chains w /\
  verificationLog (snd (forEach passes body w)) = verificationLog w /\
  (faults ProofUpdateMany = None ->
   nonEmpty data = true ->
   fst (forEach passes body w) = Ok tt /\
   proof (snd (forEach passes body w))
   = match passes with
     | O => proof w
     | S _ => map (applyUpdate submissionId data) (proof w)
     end).
Proof.
  intros body. subst body. revert w.
  induction passes as [| passes IH]; intros w; [repeat split; reflexivity |].
  cbn [forEach]. unfold bind at 1. unfold bind at 1. unfold bind at 1.
  destruct (nonEmpty data) eqn:Hne.
  - unfold proofUpdateMany, bind, Verification.client.
    destruct (faults ProofUpdateMany) eqn:Hf; cbn.
    + repeat split; discriminate.
    + match goal with |- context [forEach passes ?b ?w1] =>
        destruct (IH w1) as (Hc & Hl & Hp) end.
      unfold proofUpdateMany, bind, Verification.client in Hc, Hl, Hp.
      rewrite Hf in Hc, Hl, Hp.
      split; [exact Hc |]. split; [exact Hl |].
      intros _ _. destruct (Hp eq_refl eq_refl) as [Hok Hproof].
      split; [exact Hok |]. rewrite Hproof. cbn.
      destruct passes; [reflexivity |].
      rewrite map_map. apply map_ext. intros row.
      apply applyUpdate_idempotent.
  - cbn. destruct (IH w) as (Hc & Hl & Hp).
    split; [exact Hc |]. split; [exact Hl |]. discriminate.
Qed.

End AnchoringFacts.

Section AnchoringFanout.
Import Verification.
Context {C R : Type}.
Variable faults : Verification.Faults.
Variable anchorToEthereum anchorToArbitrum anchorToStarknet :
  string -> C -> Result JsError string * C.
Variable createVerificationHash : Submission -> list R -> string.



End AnchoringFanout.


(** The run of the instance above, evaluated: Ethereum and Starknet hashes
    are written, the Arbitrum column stays empty, and the log has the three
    statuses. *)
Example anchoring_fanout_run :
  Verification.anchorToBlockchains
    Verification.noFaults Sample.ethereum Sample.arbitrum Sample.starknet
    Sample.digest Sample.submission [tt] Sample.verified
  = (Ok tt,
     Verification.mkWorld
       2%nat
       [{| Verification.proof_submissionId := "s1";
           Verification.ethereumTxHash := Some "0xabc";
           Verification.arbitrumTxHash := None;
           Verification.starknetTxHash := Some "0xabc" |}]
       [{| Verification.log_submissionId := "s1";
           Verification.log_level := INFO;
           Verification.log_message := "Anchoring verification results to blockchains";
           Verification.log_details := None |};
        {| Verification.log_submissionId := "s1";
           Verification.log_level := INFO;
           Verification.log_message := "Blockchain anchoring completed";
           Verification.log_details := Some ["fulfilled"; "rejected"; "fulfilled"] |}]
       [(INFO, "Anchoring verification results to blockchains");
        (INFO, "Blockchain anchoring completed")]).
Proof. reflexivity. Qed.

(* --------------------------------------------------------------------- *)
(** ** Worked runs                                                        *)
(* --------------------------------------------------------------------- *)

(** Two failures, then success: the call returns the value after sleeping
    1000 ms and then 2000 ms. *)
Example withRetry_recovers :
  Retry.withRetry Sample.flaky Sample.patient "anchor" Sample.quiet
  = (Ok "done"%string, Retry.mkEnv 3%nat (fun _ => 0%Q) 0%nat [1000%Q; 2000%Q]).
Proof. reflexivity. Qed.

(** Three failures out of three attempts. *)
Example withRetry_gives_up :
  fst (Retry.withRetry Sample.down Sample.patient "anchor" Sample.quiet)
  = Err (newError "anchor failed after 3 attempts: RPC down").
Proof. reflexivity. Qed.

(** With no attempt allowed the operation is never called and the [throw]
    after the loop has no last error to report. *)
Example withRetry_no_attempt :
  Retry.withRetry Sample.down
    {| Retry.maxAttempts' := Some 0; Retry.baseDelay' := None;
       Retry.maxDelay' := None; Retry.backoffMultiplier' := None;
       Retry.jitter' := None |}
    "anchor" Sample.quiet
  = (Err (mkJsError ClassTypeError
                    "Cannot read properties of undefined (reading 'message')"),
     Sample.quiet).
Proof. reflexivity. Qed.

(** A probe that fails with an unclassified error: the error passes
    through and the breaker stays as the probe found it, HALF_OPEN, with
    its counters and times untouched. *)
Example breaker_probe_unclassified :
  let '(r, cb, w) :=
    CircuitBreaker.execute (fun w => w) Sample.openedBreaker Sample.abiBroken 70000 in
  (r, CircuitBreaker.state cb, CircuitBreaker.failureCount cb,
   CircuitBreaker.lastFailureTime cb, CircuitBreaker.nextAttemptTime cb, w)
  = (Err Sample.abiError, CircuitBreaker.HALF_OPEN, 3, Some 2005, 62005, 70005).
Proof. reflexivity. Qed.

(** A probe that fails with a classified error reopens the breaker. *)
Example breaker_probe_classified :
  let '(r, cb, w) :=
    CircuitBreaker.execute (fun w => w) Sample.openedBreaker Sample.rpcDown 70000 in
  (r, CircuitBreaker.state cb, CircuitBreaker.failureCount cb,
   CircuitBreaker.lastFailureTime cb, CircuitBreaker.nextAttemptTime cb, w)
  = (Err Sample.rpcError, CircuitBreaker.OPEN, 4, Some 70005, 130005, 70005).
Proof. reflexivity. Qed.

(** Balance 10, deduct 15: rejected, and nothing but the log has changed. *)
Example deduct_15_from_10 :
  CreditManagement.deductCredits noFaults "alice" 15 Sample.usage (Sample.ledger true)
  = (Err (InsufficientCreditsError 15 10 "alice"),
     withLog [(ERROR, "Failed to deduct credits:")] (Sample.ledger true)).
Proof. reflexivity. Qed.

(** The log of a deduction that crosses the threshold, with the handler
    working and with its first statement failing. *)
Example deduct_low_balance_log :
  log (snd (CreditManagement.deductCredits noFaults "alice" 6 Sample.usage
                                           (Sample.ledger true)))
  = [(WARN, "Low balance detected:"); (INFO, "Auto-topup triggered:");
     (DEBUG, "Credits deducted successfully:")]
  /\
  log (snd (CreditManagement.deductCredits Sample.handlerDown "alice" 6 Sample.usage
                                           (Sample.ledger true)))
  = [(ERROR, "Failed to handle low balance:");
     (DEBUG, "Credits deducted successfully:")].
Proof. split; reflexivity. Qed.

(** The pre-check for bob, who has no account.  With the tier loaded the
    estimate is positive, [getBalance] creates his empty account and the
    request is refused; with an unknown tier the estimate is 0 and the
    request is let through without a look at the ledger. *)
Example preCheck_known_tier :
  exists estimate,
    fst (UsageTracking.preCheckCredits noFaults Sample.schemaDefaults
                                       "/api/v1/proofs" 2048 "bob" "standard"
                                       Sample.priced)
    = Err (InsufficientCreditsError estimate 0 "bob") /\
    (estimate == 0.02282)%Q.
Proof. eexists. split; reflexivity. Qed.

Example preCheck_unknown_tier :
  UsageTracking.preCheckCredits noFaults Sample.schemaDefaults
                                "/api/v1/proofs" 2048 "bob" "gold" Sample.priced
  = (Ok tt,
     withLog [(ERROR, "Failed to get pricing rule:");
              (ERROR, "Failed to estimate cost:")] Sample.priced).
Proof. reflexivity. Qed.

(* ===================================================================== *)
(** * Further properties                                                  *)
(* ===================================================================== *)

(* --------------------------------------------------------------------- *)
(** ** Circuit breaker: invariant, threshold, registry                    *)
(* --------------------------------------------------------------------- *)

Section BreakerInvariant.
Import CircuitBreaker.
Context {W T : Type}.
Variable clock : W -> Z.



End BreakerInvariant.


Section BreakerThreshold.
Import CircuitBreaker.
Context {W T : Type}.
Variable clock : W -> Z.

Lemma executeAll_failing (operations : list (W -> Result JsError T * W)) :
  forall cb w,
    state cb = CLOSED ->
    Forall (failsCounted (options cb)) operations ->
    failureCount cb + Z.of_nat (length operations) < failureThreshold (options cb) ->
    let '(rs, cb', _) := executeAll clock cb operations w in
    state cb' = CLOSED /\
    failureCount cb' = failureCount cb + Z.of_nat (length operations) /\
    options cb' = options cb /\
    serviceName cb' = serviceName cb /\
    Forall (fun r => is_ok r = false) rs /\
    length rs = length operations.
Proof.
  induction operations as [| operation rest IH]; intros cb w Hs Hall Hlt.
  - cbn. repeat split; first [assumption | lia | constructor].
  - cbn [executeAll]. inversion Hall as [| ? ? Hfirst Hrest]; subst.
    destruct (Hfirst w) as (e & w1 & Hop & Hcount).
    rewrite (execute_closed_failure clock cb operation w e w1 Hs Hop).
    cbn [length] in Hlt.
    rewrite (onFailure_closed_below cb e (clock w1) Hcount Hs) by lia.
    set (cb1 := mk _ _ _ _ _ _).
    specialize (IH cb1 w1 eq_refl Hrest).
    destruct (executeAll clock cb1 rest w1) as [[rs cb2] w2].
    cbn in IH. destruct IH as (H1 & H2 & H3 & H4 & H5 & H6); [lia |].
    repeat split; try assumption; [cbn [length]; lia | | cbn; congruence].
    constructor; [reflexivity | assumption].
Qed.


Lemma executeAll_app (first rest : list (W -> Result JsError T * W)) :
  forall cb w,
    executeAll clock cb (first ++ rest) w =
      let '(rs1, cb1, w1) := executeAll clock cb first w in
      let '(rs2, cb2, w2) := executeAll clock cb1 rest w1 in
      (rs1 ++ rs2, cb2, w2).
Proof.
  induction first as [| operation first IH]; intros cb w.
  - cbn. now destruct (executeAll clock cb rest w) as [[rs2 cb2] w2].
  - cbn [app executeAll].
    destruct (execute clock cb operation w) as [[r cb1] w1].
    rewrite IH.
    destruct (executeAll clock cb1 first w1) as [[rs1 cb2] w2].
    now destruct (executeAll clock cb2 rest w2) as [[rs2 cb3] w3].
Qed.

(** X3. Only consecutive failures count.  A success between two runs of
    counted failures, each run shorter than the threshold allows, resets the
    count: after the whole sequence the breaker is CLOSED and its count is
    the length of the second run, however many failures preceded the
    success. *)
Theorem breaker_counts_consecutive_failures
    (cb : t) (before after : list (W -> Result JsError T * W))
    (success : W -> Result JsError T * W) (w : W) :
  state cb = CLOSED ->
  Forall (failsCounted (options cb)) before ->
  Forall (failsCounted (options cb)) after ->
  (forall w1, is_ok (fst (success w1)) = true) ->
  failureCount cb + Z.of_nat (length before) < failureThreshold (options cb) ->
  Z.of_nat (length after) < failureThreshold (options cb) ->
  let '(_, cb', _) := executeAll clock cb (before ++ success :: after) w in
  state cb' = CLOSED /\
  failureCount cb' = Z.of_nat (length after).
Proof.
  intros Hs Hbefore Hafter Hok Hlt1 Hlt2.
  rewrite executeAll_app.
  pose proof (executeAll_failing before cb w Hs Hbefore Hlt1) as H1.
  destruct (executeAll clock cb before w) as [[rs1 cb1] w1].
  destruct H1 as (Hs1 & Hc1 & Ho1 & _).
  cbn [executeAll].
  rewrite (execute_admitted clock cb1 cb1 success w1)
    by (apply admitCall_not_open; congruence).
  specialize (Hok w1).
  destruct (success w1) as [[value | e] w2]; [| discriminate]. cbn [fst snd].
  assert (Hs2 : state (onSuccess cb1) = CLOSED)
    by (unfold onSuccess; cbn; now rewrite Hs1).
  assert (Ho2 : options (onSuccess cb1) = options cb)
    by (unfold onSuccess; cbn; now rewrite Hs1).
  assert (Hc2 : failureCount (onSuccess cb1) = 0)
    by (unfold onSuccess; cbn; now rewrite Hs1).
  pose proof (executeAll_failing after (onSuccess cb1) w2 Hs2) as H2.
  rewrite Ho2, Hc2 in H2. specialize (H2 Hafter).
  destruct (executeAll clock (onSuccess cb1) after w2) as [[rs2 cb2] w3].
  destruct H2 as (Hs3 & Hc3 & _); [lia |].
  split; [exact Hs3 | lia].
Qed.

(** X4. [monitoringPeriod] has no effect on [execute]: two breakers that
    differ in that option only return the same outcome, leave the same world
    and end in states that again differ in that option only.  Failures are
    never forgotten by age. *)
Theorem execute_ignores_monitoringPeriod
    (cb : t) (operation : W -> Result JsError T * W) (w : W) (period : Z) :
  execute clock (withMonitoringPeriod period cb) operation w =
    let '(r, cb', w') := execute clock cb operation w in
    (r, withMonitoringPeriod period cb', w').
Proof.
  destruct cb as [name [threshold timeout monitoring classify] st count failedAt next].
  unfold execute, admitCall, withMonitoringPeriod, onSuccess, onFailure, unexpected.
  cbn.
  destruct st; cbn;
    repeat first
      [ reflexivity
      | match goal with
        | |- context [operation w] => destruct (operation w) as [[v | e] w']; cbn
        | |- context [if ?b then _ else _] => destruct b eqn:?; cbn
        | |- context [match ?o with Some _ => _ | None => _ end] =>
            destruct o eqn:?; cbn
        end ].
Qed.

End BreakerThreshold.

Lemma rpcDown_failsCounted :
  failsCounted chainBreakerOptions Sample.rpcDown.
Proof. intros w. eexists _, _. split; reflexivity. Qed.


Lemma breaker_counts_consecutive_failures_witness :
  let '(_, cb', _) :=
    executeAll (fun w : Z => w) Sample.ethereumBreaker
               ([Sample.rpcDown; Sample.rpcDown]
                ++ Sample.rpcUp :: [Sample.rpcDown; Sample.rpcDown]) 1000 in
  CircuitBreaker.state cb' = CircuitBreaker.CLOSED /\
  CircuitBreaker.failureCount cb' = 2.
Proof.
  apply (breaker_counts_consecutive_failures
           (fun w : Z => w) Sample.ethereumBreaker
           [Sample.rpcDown; Sample.rpcDown] [Sample.rpcDown; Sample.rpcDown]
           Sample.rpcUp 1000).
  - reflexivity.
  - repeat constructor; exact rpcDown_failsCounted.
  - repeat constructor; exact rpcDown_failsCounted.
  - intros w1. reflexivity.
  - cbn. lia.
  - cbn. lia.
Defined.

(* --------------------------------------------------------------------- *)
(** ** The breaker registry                                               *)
(* --------------------------------------------------------------------- *)

(** X5. [getOrCreate] registers a service once.  The second call for the
    same name returns the breaker of the first and leaves the registry as it
    is, whatever options it is given; the breaker is the one [get] returns,
    it is a fresh one with the first options when the name was not
    registered, and no other name's entry changes. *)
Theorem getOrCreate_keeps_first_registration
    (serviceName : string) (first later : CircuitBreaker.CircuitBreakerOptions)
    (breakers : CircuitBreakerRegistry.t) :
  let '(cb1, breakers1) :=
    CircuitBreakerRegistry.getOrCreate serviceName first breakers in
  let '(cb2, breakers2) :=
    CircuitBreakerRegistry.getOrCreate serviceName later breakers1 in
  cb2 = cb1 /\
  breakers2 = breakers1 /\
  CircuitBreakerRegistry.get serviceName breakers1 = Some cb1 /\
  (CircuitBreakerRegistry.get serviceName breakers = None ->
   cb1 = CircuitBreaker.create serviceName first) /\
  (forall other, other <> serviceName ->
     CircuitBreakerRegistry.get other breakers1
     = CircuitBreakerRegistry.get other breakers).
Proof.
  unfold CircuitBreakerRegistry.getOrCreate, CircuitBreakerRegistry.get.
  destruct (breakers !! serviceName) as [cb |] eqn:Hget.
  - rewrite Hget. repeat split; first [assumption | discriminate].
  - rewrite lookup_insert_eq. repeat split.
    intros other Hne. now apply lookup_insert_ne.
Qed.

(** X6. After [resetAll], every registered breaker keeps its name and
    options, reports the statistics of a freshly constructed breaker
    ([getStats]), and admits a call at any time; names that were not
    registered are still not registered. *)
Theorem resetAll_readmits_every_breaker
    (breakers : CircuitBreakerRegistry.t) (serviceName : string) :
  match CircuitBreakerRegistry.get serviceName breakers with
  | Some cb =>
      exists cb',
        CircuitBreakerRegistry.get serviceName
          (CircuitBreakerRegistry.resetAll breakers) = Some cb' /\
        CircuitBreaker.options cb' = CircuitBreaker.options cb /\
        CircuitBreaker.serviceName cb' = CircuitBreaker.serviceName cb /\
        CircuitBreakerRegistry.getStats cb'
        = CircuitBreakerRegistry.getStats
            (CircuitBreaker.create (CircuitBreaker.serviceName cb)
                                   (CircuitBreaker.options cb)) /\
        forall now, CircuitBreaker.admitCall cb' now = Ok cb'
  | None =>
      CircuitBreakerRegistry.get serviceName
        (CircuitBreakerRegistry.resetAll breakers) = None
  end.
Proof.
  unfold CircuitBreakerRegistry.get, CircuitBreakerRegistry.resetAll.
  rewrite lookup_fmap.
  destruct (breakers !! serviceName) as [cb |]; cbn; [| reflexivity].
  eexists. split; [reflexivity |]. repeat split.
Qed.

(* --------------------------------------------------------------------- *)
(** ** Retry: sleeps, scripted runs, and the breaker around a retry      *)
(* --------------------------------------------------------------------- *)

Lemma backoffDelay_capped config attempt :
  (Retry.backoffDelay config attempt <= Retry.maxDelay config)%Q.
Proof. unfold Retry.backoffDelay. apply Q.le_min_r. Qed.

Lemma jittered_capped (delay cap r : Q) :
  (0 <= cap)%Q -> (delay <= cap)%Q -> (0 <= r)%Q -> (r < 1)%Q ->
  (delay * Retry.jitterFactor r <= cap)%Q.
Proof.
  intros Hcap Hd H0 H1. unfold Retry.jitterFactor.
  destruct (Qlt_le_dec delay 0) as [Hneg | Hpos]; nra.
Qed.

Lemma call_frame {S T} (operation : S -> Result JsError T * S) (env : Retry.Env S) :
  Retry.slept (snd (Retry.call operation env)) = Retry.slept env /\
  Retry.rng (snd (Retry.call operation env)) = Retry.rng env /\
  Retry.draws (snd (Retry.call operation env)) = Retry.draws env.
Proof.
  unfold Retry.call. destruct (operation (Retry.opState env)). repeat split.
Qed.

(** The sleeps of one run of the loop: each is capped by [maxDelay], and
    there is exactly one between two consecutive invocations. *)
Lemma retryLoop_sleeps {S T} (operation : S -> Result JsError T * S)
    config operationName remaining :
  (0 <= Retry.maxDelay config)%Q ->
  forall attempt lastError (env : Retry.Env (S * nat)),
    attempt + Z.of_nat remaining = Retry.maxAttempts config + 1 ->
    (forall i, (0 <= Retry.rng env i)%Q /\ (Retry.rng env i < 1)%Q) ->
    let env' := snd (Retry.retryLoop (counted operation) config operationName
                                     remaining attempt lastError env) in
    exists added,
      Retry.slept env' = Retry.slept env ++ added /\
      Forall (fun delay => (delay <= Retry.maxDelay config)%Q) added /\
      (remaining <> 0%nat ->
       snd (Retry.opState env')
       = (snd (Retry.opState env) + length added + 1)%nat).
Proof.
  intros Hcap.
  induction remaining as [| remaining IH]; intros attempt lastError env Hsum Hrng.
  - exists []. cbn. rewrite app_nil_r. repeat split; [constructor | congruence].
  - cbn [Retry.retryLoop].
    pose proof (call_counted operation env) as [Hcount _].
    pose proof (call_frame (counted operation) env) as (Hs & Hr & _).
    destruct (Retry.call (counted operation) env) as [[v | e] env1];
      cbn [snd] in *.
    { exists []. rewrite app_nil_r. repeat split; [congruence | constructor |].
      intros _. cbn. lia. }
    destruct (Retry.isNonRetryable e).
    { exists []. cbn [snd]. rewrite app_nil_r.
      repeat split; [congruence | constructor |]. intros _. cbn. lia. }
    destruct (Z.eqb_spec attempt (Retry.maxAttempts config)) as [Heq | Hne].
    { exists []. cbn [snd]. rewrite app_nil_r.
      repeat split; [congruence | constructor |]. intros _. cbn. lia. }
    assert (Hrem : remaining <> 0%nat) by lia.
    assert (Hrng1 : forall i, (0 <= Retry.rng env1 i)%Q /\ (Retry.rng env1 i < 1)%Q)
      by (intros i; rewrite Hr; apply Hrng).
    destruct (Retry.jitter config).
    + cbn [Retry.random].
      match goal with |- context [Retry.retryLoop _ _ _ remaining ?a ?l ?e2] =>
        destruct (IH a l e2) as (added & Hslept & Hall & Hinv) end.
      { lia. }
      { intros i. cbn. apply Hrng1. }
      cbn [Retry.sleep Retry.slept Retry.opState] in Hslept, Hinv.
      eexists (_ :: added). split; [rewrite Hslept, Hs, <- app_assoc; reflexivity |].
      split.
      * constructor; [| exact Hall].
        destruct (Hrng1 (Retry.draws env1)).
        apply jittered_capped; auto using backoffDelay_capped.
      * intros _. rewrite Hinv by assumption. cbn [length]. lia.
    + match goal with |- context [Retry.retryLoop _ _ _ remaining ?a ?l ?e2] =>
        destruct (IH a l e2) as (added & Hslept & Hall & Hinv) end.
      { lia. }
      { intros i. cbn. apply Hrng1. }
      cbn [Retry.sleep Retry.slept Retry.opState] in Hslept, Hinv.
      eexists (_ :: added). split; [rewrite Hslept, Hs, <- app_assoc; reflexivity |].
      split.
      * constructor; [apply backoffDelay_capped | exact Hall].
      * intros _. rewrite Hinv by assumption. cbn [length]. lia.
Qed.

(** X7. For [maxAttempts >= 1], a non-negative [maxDelay] and random numbers
    in [0, 1): [withRetry] only appends to the delays slept, each delay it
    adds is at most [maxDelay], the operation is invoked exactly once more
    than there are added delays (one sleep between two consecutive attempts,
    none after the last), and the number of sleeps is below [maxAttempts]. *)
Theorem withRetry_sleeps_capped {S T} (operation : S -> Result JsError T * S)
    options operationName (env : Retry.Env (S * nat)) :
  let config := Retry.mergeOptions options in
  1 <= Retry.maxAttempts config ->
  (0 <= Retry.maxDelay config)%Q ->
  (forall i, (0 <= Retry.rng env i)%Q /\ (Retry.rng env i < 1)%Q) ->
  let env' := snd (Retry.withRetry (counted operation) options operationName env) in
  exists added,
    Retry.slept env' = Retry.slept env ++ added /\
    Forall (fun delay => (delay <= Retry.maxDelay config)%Q) added /\
    snd (Retry.opState env') = (snd (Retry.opState env) + length added + 1)%nat /\
    (Z.of_nat (length added) < Retry.maxAttempts config).
Proof.
  intros config Hmax Hcap Hrng env'.
  destruct (retryLoop_sleeps operation config operationName
              (Z.to_nat (Retry.maxAttempts config)) Hcap 1 None env)
    as (added & Hslept & Hall & Hinv); [lia | exact Hrng |].
  exists added. split; [exact Hslept |]. split; [exact Hall |].
  assert (Hcount : snd (Retry.opState env')
                   = (snd (Retry.opState env) + length added + 1)%nat)
    by (apply Hinv; lia).
  split; [exact Hcount |].
  pose proof (retryLoop_invocations operation config operationName
                (Z.to_nat (Retry.maxAttempts config)) 1 None env) as Hbound.
  fold config in Hbound. change (Retry.retryLoop _ _ _ _ _ _ _) with
    (Retry.withRetry (counted operation) options operationName env) in Hbound.
  fold env' in Hbound. lia.
Qed.

Lemma retryLoop_scripted {T} (outcomes : nat -> Result JsError T)
    config operationName value k :
  Retry.jitter config = false ->
  forall remaining attempt lastError (env : Retry.Env nat),
    (k < remaining)%nat ->
    attempt + Z.of_nat remaining = Retry.maxAttempts config + 1 ->
    (forall i, (i < k)%nat ->
       exists e, outcomes (Retry.opState env + i)%nat = Err e /\
                 Retry.isNonRetryable e = false) ->
    outcomes (Retry.opState env + k)%nat = Ok value ->
    Retry.retryLoop (scripted outcomes) config operationName
                    remaining attempt lastError env
    = (Ok value,
       Retry.mkEnv (Retry.opState env + k + 1)%nat (Retry.rng env) (Retry.draws env)
                   (Retry.slept env
                    ++ map (fun i => Retry.backoffDelay config (attempt + Z.of_nat i))
                           (seq 0 k))).
Proof.
  intros Hjitter.
  induction k as [| k IH]; intros remaining attempt lastError env Hk Hsum Hfail Hok.
  - destruct remaining as [| remaining]; [lia |].
    cbn [Retry.retryLoop]. unfold Retry.call, scripted.
    rewrite Nat.add_0_r in Hok. rewrite Hok. cbn. rewrite app_nil_r.
    do 2 f_equal. lia.
  - destruct remaining as [| remaining]; [lia |].
    cbn [Retry.retryLoop]. unfold Retry.call, scripted.
    destruct (Hfail 0%nat) as (e & He & Hretry); [lia |].
    rewrite Nat.add_0_r in He. rewrite He, Hretry.
    destruct (Z.eqb_spec attempt (Retry.maxAttempts config)) as [Heq | _]; [lia |].
    rewrite Hjitter.
    rewrite (IH remaining (attempt + 1) (Some e));
      unfold Retry.sleep; cbn [Retry.opState].
    + cbn [Retry.rng Retry.draws Retry.slept seq map].
      rewrite <- app_assoc. cbn [app].
      f_equal. f_equal; [lia |]. f_equal. rewrite Z.add_0_r. f_equal.
      rewrite <- seq_shift, map_map. apply map_ext. intros i. f_equal. lia.
    + lia.
    + lia.
    + intros i Hi. destruct (Hfail (Datatypes.S i)) as (e' & He' & Hr'); [lia |].
      exists e'. split; [| exact Hr'].
      rewrite <- He'. f_equal. lia.
    + rewrite <- Hok. f_equal. lia.
Qed.

(** X8. Without jitter, an operation that fails with retryable errors on its
    first k calls and succeeds on the next one, with k below [maxAttempts]:
    [withRetry] returns that value after exactly k+1 invocations, having
    slept exactly [min(baseDelay * backoffMultiplier^(i-1), maxDelay)] after
    attempt i for i = 1..k, in that order, and having drawn no random
    number. *)
Theorem withRetry_scripted_success {T} (outcomes : nat -> Result JsError T)
    options operationName (env : Retry.Env nat) k value :
  let config := Retry.mergeOptions options in
  Z.of_nat k < Retry.maxAttempts config ->
  Retry.jitter config = false ->
  (forall i, (i < k)%nat ->
     exists e, outcomes (Retry.opState env + i)%nat = Err e /\
               Retry.isNonRetryable e = false) ->
  outcomes (Retry.opState env + k)%nat = Ok value ->
  Retry.withRetry (scripted outcomes) options operationName env
  = (Ok value,
     Retry.mkEnv (Retry.opState env + k + 1)%nat (Retry.rng env) (Retry.draws env)
                 (Retry.slept env
                  ++ map (fun i => Retry.backoffDelay config (1 + Z.of_nat i))
                         (seq 0 k))).
Proof.
  intros config Hk Hjitter Hfail Hok. unfold Retry.withRetry. fold config.
  apply retryLoop_scripted; try assumption; lia.
Qed.

(** [includes]: what a text includes, every text ending in it includes. *)
Lemma includes_append sub before s :
  includes sub s = true -> includes sub (before ++ s) = true.
Proof.
  intros H. induction before as [| c before IH]; [exact H |].
  unfold includes in *. change (String c before +:+ s) with (String c (before +:+ s)).
  cbn [String.index].
  destruct (String.prefix sub (String c (before +:+ s))); [reflexivity |].
  destruct (String.index 0 sub (before +:+ s)); [reflexivity | discriminate].
Qed.

(** The error thrown after the last attempt carries the last error's
    message at its end, so the chain breakers classify it as they would
    classify the last error. *)
Lemma exhausted_classified config operationName e :
  chainExpectedErrors e = true ->
  chainExpectedErrors (Retry.exhausted config operationName (Some e)) = true.
Proof.
  unfold chainExpectedErrors. intros H.
  apply orb_true_iff in H. apply orb_true_iff.
  cbn [Retry.exhausted newError message].
  destruct H as [H | H]; [left | right];
    repeat apply includes_append; exact H.
Qed.

(** [retryLoop_always_failing], keeping track of a property of the errors
    the operation throws. *)
Lemma retryLoop_always_failing_with {S T} (operation : S -> Result JsError T * S)
    (P : JsError -> Prop) config operationName :
  (forall s, exists e s',
      operation s = (Err e, s') /\ Retry.isNonRetryable e = false /\ P e) ->
  forall remaining attempt lastError (env : Retry.Env (S * nat)),
    attempt + Z.of_nat remaining = Retry.maxAttempts config ->
    exists e env',
      Retry.retryLoop (counted operation) config operationName
                      (Datatypes.S remaining) attempt lastError env
      = (Err (Retry.exhausted config operationName (Some e)), env') /\
      P e /\
      snd (Retry.opState env') = (snd (Retry.opState env) + Datatypes.S remaining)%nat.
Proof.
  intros Hfail.
  assert (Hcall : forall env : Retry.Env (S * nat), exists e env1,
             Retry.call (counted operation) env = (Err e, env1) /\
             Retry.isNonRetryable e = false /\ P e /\
             snd (Retry.opState env1) = Datatypes.S (snd (Retry.opState env))).
  { intros env.
    destruct (Hfail (fst (Retry.opState env))) as (e & s' & Hop & Hr & HP).
    exists e. eexists. unfold Retry.call, counted. rewrite Hop.
    repeat split; [exact Hr | exact HP]. }
  induction remaining as [| remaining IH]; intros attempt lastError env Hsum.
  - destruct (Hcall env) as (e & env1 & Hc & Hr & HP & Hn).
    exists e, env1. replace attempt with (Retry.maxAttempts config) by lia.
    rewrite (retryLoop_last _ _ _ _ _ env env1 e Hc Hr).
    repeat split; [exact HP | lia].
  - destruct (Hcall env) as (e & env1 & Hc & Hr & HP & Hn).
    rewrite (retryLoop_retry _ _ _ _ _ _ env env1 e Hc Hr) by lia.
    destruct (Retry.jitter config).
    + edestruct (IH (attempt + 1) (Some e)) as (e' & env' & Heq & HP' & Hn');
        [lia |].
      exists e', env'. split; [exact Heq |]. split; [exact HP' |].
      rewrite Hn'. cbn. rewrite Hn. lia.
    + edestruct (IH (attempt + 1) (Some e)) as (e' & env' & Heq & HP' & Hn');
        [lia |].
      exists e', env'. split; [exact Heq |]. split; [exact HP' |].
      rewrite Hn'. cbn. rewrite Hn. lia.
Qed.

(** X9. [breaker.execute(() => withRetry(operation, ...))] with a chain
    breaker (its [expectedErrors] looks for 'RPC' or 'network' in the
    message): when the operation always fails with retryable errors
    classified that way, an admitted call invokes the operation
    [maxAttempts] times and counts as one failure of the breaker.  The error
    thrown after the last attempt ends in the last error's message, so it is
    classified too: the count goes up by exactly 1, [lastFailureTime] is the
    clock at the end of the retries, and the breaker either opens or stays
    in its state below the threshold. *)
Theorem breaker_counts_exhausted_retry_once {S T}
    (clock : Retry.Env (S * nat) -> Z) (cb cb1 : CircuitBreaker.t)
    (operation : S -> Result JsError T * S) options operationName
    (env : Retry.Env (S * nat)) :
  let config := Retry.mergeOptions options in
  CircuitBreaker.expectedErrors (CircuitBreaker.options cb)
    = Some chainExpectedErrors ->
  CircuitBreaker.admitCall cb (clock env) = Ok cb1 ->
  1 <= Retry.maxAttempts config ->
  (forall s, exists e s',
      operation s = (Err e, s') /\ Retry.isNonRetryable e = false /\
      chainExpectedErrors e = true) ->
  exists e cb' env',
    executeWithRetry clock cb (counted operation) options operationName env
    = (Err (Retry.exhausted config operationName (Some e)), cb', env') /\
    chainExpectedErrors e = true /\
    Z.of_nat (snd (Retry.opState env'))
    = Z.of_nat (snd (Retry.opState env)) + Retry.maxAttempts config /\
    CircuitBreaker.failureCount cb' = CircuitBreaker.failureCount cb + 1 /\
    CircuitBreaker.lastFailureTime cb' = Some (clock env') /\
    (CircuitBreaker.state cb' = CircuitBreaker.OPEN \/
     CircuitBreaker.state cb' = CircuitBreaker.state cb /\
     CircuitBreaker.failureCount cb' 
     < CircuitBreaker.failureThreshold (CircuitBreaker.options cb)).
Proof.
  intros config Hopts Hadm Hmax Hfail.
  unfold executeWithRetry, Retry.withRetry. fold config.
  destruct (retryLoop_always_failing_with operation
              (fun e => chainExpectedErrors e = true) config operationName Hfail
              (Z.to_nat (Retry.maxAttempts config - 1)) 1 None env)
    as (e & env' & Hloop & HP & Hn); [lia |].
  replace (Z.to_nat (Retry.maxAttempts config))
    with (Datatypes.S (Z.to_nat (Retry.maxAttempts config - 1))) by lia.
  exists e. eexists. exists env'.
  rewrite (execute_admitted clock cb cb1 _ env Hadm), Hloop. cbn [fst snd].
  split; [reflexivity |]. split; [exact HP |]. split; [lia |].
  assert (Hcb1 : CircuitBreaker.options cb1 = CircuitBreaker.options cb /\
                 CircuitBreaker.failureCount cb1 = CircuitBreaker.failureCount cb /\
                 (CircuitBreaker.state cb1 = CircuitBreaker.state cb \/
                  CircuitBreaker.state cb1 = CircuitBreaker.HALF_OPEN)).
  { unfold CircuitBreaker.admitCall in Hadm.
    destruct (CircuitBreaker.state cb) eqn:Hs.
    - injection Hadm as <-. repeat split. now left.
    - destruct (clock env <? CircuitBreaker.nextAttemptTime cb); [discriminate |].
      injection Hadm as <-. repeat split. now right.
    - injection Hadm as <-. repeat split. now left. }
  destruct Hcb1 as (Ho & Hc & Hst).
  unfold CircuitBreaker.onFailure, CircuitBreaker.unexpected.
  rewrite Ho, Hopts, (exhausted_classified config operationName e HP).
  cbn [negb].
  destruct (CircuitBreaker.state cb1) eqn:Hs1;
    [| | cbn; repeat split; [lia | now left]];
    (destruct (Z.leb_spec (CircuitBreaker.failureThreshold (CircuitBreaker.options cb))
                          (CircuitBreaker.failureCount cb1 + 1)) as [Hle | Hlt];
     cbn; (repeat split; [lia |]); [now left |]).
  - right. destruct Hst as [Hst | Hst]; [split; [congruence | exact Hlt] | discriminate].
  - right. destruct Hst as [Hst | Hst]; [split; [congruence | exact Hlt] | discriminate].
Qed.

Lemma withRetry_sleeps_capped_witness :
  let env := Retry.mkEnv (0%nat, 0%nat) (fun _ => 0%Q) 0%nat [] in
  let env' :=
    snd (Retry.withRetry (counted Sample.flaky) Sample.patient "anchor" env) in
  exists added,
    Retry.slept env' = Retry.slept env ++ added /\
    Forall (fun delay =>
              (delay <= Retry.maxDelay (Retry.mergeOptions Sample.patient))%Q)
           added /\
    snd (Retry.opState env') = (snd (Retry.opState env) + length added + 1)%nat /\
    (Z.of_nat (length added) < Retry.maxAttempts (Retry.mergeOptions Sample.patient)).
Proof.
  apply (withRetry_sleeps_capped Sample.flaky Sample.patient "anchor"
           (Retry.mkEnv (0%nat, 0%nat) (fun _ => 0%Q) 0%nat [])).
  - cbn. lia.
  - cbn. lra.
  - intros i. cbn. lra.
Defined.

Lemma withRetry_scripted_success_witness :
  Retry.withRetry
    (scripted (fun calls => if (calls <? 2)%nat
                            then Err (newError "RPC down")
                            else Ok "done"%string))
    Sample.patient "anchor" Sample.quiet
  = (Ok "done"%string,
     Retry.mkEnv (0 + 2 + 1)%nat (fun _ => 0%Q) 0%nat
       ([] ++ map (fun i => Retry.backoffDelay (Retry.mergeOptions Sample.patient)
                                               (1 + Z.of_nat i))
                  (seq 0 2))).
Proof.
  apply (withRetry_scripted_success
           (fun calls => if (calls <? 2)%nat
                         then Err (newError "RPC down")
                         else Ok "done"%string)
           Sample.patient "anchor" Sample.quiet 2 "done"%string).
  - cbn. lia.
  - reflexivity.
  - intros i Hi. exists (newError "RPC down"). cbn [Sample.quiet Retry.opState].
    destruct i as [| [| i]]; [split; reflexivity | split; reflexivity | lia].
  - reflexivity.
Defined.

Lemma breaker_counts_exhausted_retry_once_witness :
  exists e cb' env',
    executeWithRetry (fun env => Z.of_nat (snd (Retry.opState env)))
      Sample.ethereumBreaker (counted Sample.down) Sample.patient
      "Ethereum anchor verification"
      (Retry.mkEnv (0%nat, 0%nat) (fun _ => 0%Q) 0%nat [])
    = (Err (Retry.exhausted (Retry.mergeOptions Sample.patient)
                            "Ethereum anchor verification" (Some e)),
       cb', env') /\
    chainExpectedErrors e = true /\
    Z.of_nat (snd (Retry.opState env'))
    = Z.of_nat (snd (Retry.opState
                       (Retry.mkEnv (0%nat, 0%nat) (fun _ => 0%Q) 0%nat [])))
      + Retry.maxAttempts (Retry.mergeOptions Sample.patient) /\
    CircuitBreaker.failureCount cb'
    = CircuitBreaker.failureCount Sample.ethereumBreaker + 1 /\
    CircuitBreaker.lastFailureTime cb'
    = Some (Z.of_nat (snd (Retry.opState env'))) /\
    (CircuitBreaker.state cb' = CircuitBreaker.OPEN \/
     CircuitBreaker.state cb' = CircuitBreaker.state Sample.ethereumBreaker /\
     CircuitBreaker.failureCount cb'
     < CircuitBreaker.failureThreshold
         (CircuitBreaker.options Sample.ethereumBreaker)).
Proof.
  apply (breaker_counts_exhausted_retry_once
           (fun env => Z.of_nat (snd (Retry.opState env)))
           Sample.ethereumBreaker Sample.ethereumBreaker
           Sample.down Sample.patient "Ethereum anchor verification"
           (Retry.mkEnv (0%nat, 0%nat) (fun _ => 0%Q) 0%nat [])).
  - reflexivity.
  - reflexivity.
  - cbn. lia.
  - intros s. exists (newError "RPC down"), (S s). repeat split.
Defined.

Lemma retryLoop_success {S T} (operation : S -> Result JsError T * S)
    config operationName remaining attempt lastError (env env1 : Retry.Env S) value :
  Retry.call operation env = (Ok value, env1) ->
  Retry.retryLoop operation config operationName (Datatypes.S remaining)
                  attempt lastError env
  = (Ok value, env1).
Proof. intros Hcall. cbn [Retry.retryLoop]. now rewrite Hcall. Qed.

(** One attempt of the loop: it ends the loop in the world the call left,
    or the loop goes on from that world, one draw and one sleep later. *)
Lemma retryLoop_step {S T} (operation : S -> Result JsError T * S)
    config operationName remaining attempt lastError (env : Retry.Env S) :
  Retry.jitter config = true ->
  let env1 := snd (Retry.call operation env) in
  Retry.retryLoop operation config operationName (Datatypes.S remaining)
                  attempt lastError env
  = (fst (Retry.retryLoop operation config operationName (Datatypes.S remaining)
                          attempt lastError env), env1)
  \/ attempt <> Retry.maxAttempts config /\
     exists error,
       Retry.retryLoop operation config operationName (Datatypes.S remaining)
                       attempt lastError env
       = Retry.retryLoop operation config operationName remaining (attempt + 1)
           (Some error)
           (Retry.sleep (Retry.backoffDelay config attempt
                         * Retry.jitterFactor (Retry.rng env1 (Retry.draws env1)))%Q
                        (snd (Retry.random env1))).
Proof.
  intros Hjitter env1. subst env1. cbn [Retry.retryLoop].
  destruct (Retry.call operation env) as [[value | error] env1]; cbn [fst snd].
  - now left.
  - destruct (Retry.isNonRetryable error); [now left |].
    destruct (Z.eqb_spec attempt (Retry.maxAttempts config)); [now left |].
    right. split; [assumption |]. exists error. now rewrite Hjitter.
Qed.

(** X10. [withSmartRetry] (3 attempts, base delay 1000, factor 2, cap 10000,
    jitter on) with random numbers in [0, 1): whatever the operation does,
    it is invoked at most 3 times, at most 2 delays are slept, each of at
    least 500 ms, and together they are at most 3000 ms. *)
Theorem withSmartRetry_waits_at_most_3s {S T}
    (operation : S -> Result JsError T * S) operationName
    (env : Retry.Env (S * nat)) :
  (forall i, (0 <= Retry.rng env i)%Q /\ (Retry.rng env i < 1)%Q) ->
  let env' := snd (withSmartRetry (counted operation) operationName env) in
  exists added,
    Retry.slept env' = Retry.slept env ++ added /\
    (length added <= 2)%nat /\
    Forall (fun delay => (500 <= delay)%Q) added /\
    (totalDelay added <= 3000)%Q /\
    (snd (Retry.opState env') <= snd (Retry.opState env) + 3)%nat.
Proof.
  intros Hrng. cbv zeta. unfold withSmartRetry, Retry.withRetry.
  change (Z.to_nat (Retry.maxAttempts (Retry.mergeOptions _))) with 3%nat.
  set (config := Retry.mergeOptions _).
  assert (Hd1 : (Retry.backoffDelay config 1 == 1000)%Q) by reflexivity.
  assert (Hd2 : (Retry.backoffDelay config (1 + 1) == 2000)%Q) by reflexivity.
  assert (Hframe : forall env0 : Retry.Env (S * nat),
             Retry.rng (snd (Retry.call (counted operation) env0)) = Retry.rng env0).
  { intros env0. unfold Retry.call, counted.
    now destruct (operation (fst (Retry.opState env0))). }
  (* first attempt *)
  pose proof (call_counted operation env) as [Hn1 Hs1].
  pose proof (Hframe env) as Hr1.
  destruct (retryLoop_step (counted operation) config operationName 2 1 None env
              eq_refl) as [-> | [_ [e1 ->]]].
  { exists []. cbn [snd]. rewrite app_nil_r, Hs1, Hn1.
    repeat split; [cbn; lia | constructor | cbn; lra | lia]. }
  set (env1 := snd (Retry.call (counted operation) env)) in *.
  set (d1 := (Retry.backoffDelay config 1
              * Retry.jitterFactor (Retry.rng env1 (Retry.draws env1)))%Q).
  assert (Hb1 : (500 <= d1)%Q /\ (d1 <= 1000)%Q).
  { unfold d1, Retry.jitterFactor. rewrite Hd1, Hr1.
    destruct (Hrng (Retry.draws env1)). split; lra. }
  set (env2 := Retry.sleep d1 (snd (Retry.random env1))).
  assert (Hs2 : Retry.slept env2 = Retry.slept env ++ [d1])
    by (cbn; now rewrite Hs1).
  assert (Hn2 : snd (Retry.opState env2) = Datatypes.S (snd (Retry.opState env)))
    by (cbn; now rewrite Hn1).
  assert (Hr2 : Retry.rng env2 = Retry.rng env) by (cbn; exact Hr1).
  (* second attempt *)
  pose proof (call_counted operation env2) as [Hn3 Hs3].
  pose proof (Hframe env2) as Hr3.
  destruct (retryLoop_step (counted operation) config operationName 1 (1 + 1)
              (Some e1) env2 eq_refl) as [-> | [_ [e2 ->]]].
  { exists [d1]. cbn [snd]. rewrite Hs3, Hs2, Hn3, Hn2.
    repeat split; [cbn; lia | repeat constructor; apply Hb1 | cbn; lra | lia]. }
  set (env3 := snd (Retry.call (counted operation) env2)) in *.
  set (d2 := (Retry.backoffDelay config (1 + 1)
              * Retry.jitterFactor (Retry.rng env3 (Retry.draws env3)))%Q).
  assert (Hb2 : (500 <= d2)%Q /\ (d2 <= 2000)%Q).
  { unfold d2, Retry.jitterFactor. rewrite Hd2, Hr3, Hr2.
    destruct (Hrng (Retry.draws env3)). split; lra. }
  set (env4 := Retry.sleep d2 (snd (Retry.random env3))).
  assert (Hs4 : Retry.slept env4 = Retry.slept env ++ [d1; d2])
    by (cbn; rewrite Hs3, Hs2; now rewrite <- app_assoc).
  assert (Hn4 : snd (Retry.opState env4) = (snd (Retry.opState env) + 2)%nat)
    by (cbn; rewrite Hn3, Hn2; lia).
  (* third attempt *)
  pose proof (call_counted operation env4) as [Hn5 Hs5].
  exists [d1; d2].
  destruct (retryLoop_step (counted operation) config operationName 0 (1 + 1 + 1)
              (Some e2) env4 eq_refl) as [-> | [Hne _]];
    [| now contradiction Hne].
  cbn [snd]. rewrite Hs5, Hs4, Hn5, Hn4.
  repeat split; [cbn; lia | repeat constructor; [apply Hb1 | apply Hb2]
                 | cbn; lra | lia].
Qed.

Lemma withSmartRetry_waits_at_most_3s_witness :
  let env := Retry.mkEnv (0%nat, 0%nat) (fun _ => 0%Q) 0%nat [] in
  let env' := snd (withSmartRetry (counted Sample.down) "anchor" env) in
  exists added,
    Retry.slept env' = Retry.slept env ++ added /\
    (length added <= 2)%nat /\
    Forall (fun delay => (500 <= delay)%Q) added /\
    (totalDelay added <= 3000)%Q /\
    (snd (Retry.opState env') <= snd (Retry.opState env) + 3)%nat.
Proof.
  apply (withSmartRetry_waits_at_most_3s Sample.down "anchor"
           (Retry.mkEnv (0%nat, 0%nat) (fun _ => 0%Q) 0%nat [])).
  intros i. cbn. lra.
Defined.

(* --------------------------------------------------------------------- *)
(** ** Credit ledger: isolation, cache, suspension                        *)
(* --------------------------------------------------------------------- *)

Section LedgerIsolation.
Variable faults : Faults.
Variable defaults : ColumnDefaults.

(** X11. A ledger call ([getBalance], [addCredits], [deductCredits],
    [updateCreditSettings], [suspendAccount], [reactivateAccount]) made for
    one user leaves every other user's account row and cached balance as
    they were, under every pattern of client failures; it never touches the
    pricing tiers, the pricing cache or the clock. *)
Theorem ledger_call_touches_one_user (call : LedgerCall) (w : World) :
  let w' := snd (runLedgerCall faults defaults call w) in
  (forall other, other <> callUser call ->
     userCredit (db w') !! other = userCredit (db w) !! other /\
     balanceCache w' !! CreditManagement.cacheKey other
     = balanceCache w !! CreditManagement.cacheKey other) /\
  pricingTier (db w') = pricingTier (db w) /\
  pricingCache w' = pricingCache w /\
  clock w' = clock w.
Proof.
  assert (Hkey : forall other uid, other <> uid ->
             CreditManagement.cacheKey uid <> CreditManagement.cacheKey other).
  { intros other uid Hne Heq. apply Hne. symmetry. now apply cacheKey_inj. }
  destruct call; cbn [callUser]; cbv zeta.
  all: split; [intros other Hne; specialize (Hkey other uid Hne) |].
  all: run_cases; simplify_map_eq/=; try done.
Qed.

End LedgerIsolation.

Section LedgerCache.
Variable faults : Faults.
Variable defaults : ColumnDefaults.

(** What [getBalance] does on a cache hit. *)
Lemma getBalance_hit uid w cached :
  faults RedisGet = None ->
  balanceCache w !! CreditManagement.cacheKey uid = Some cached ->
  CreditManagement.getBalance faults defaults uid w = (Ok cached, w).
Proof.
  intros Hget Hhit. unfold_ledger. unfold_monad. now rewrite Hget, Hhit.
Qed.

(** What [getBalance] does on a cache miss for an existing account. *)
Lemma getBalance_miss uid w row :
  faults RedisGet = None ->
  faults UserCreditFindUnique = None ->
  faults RedisSetex = None ->
  balanceCache w !! CreditManagement.cacheKey uid = None ->
  userCredit (db w) !! uid = Some row ->
  CreditManagement.getBalance faults defaults uid w
  = (Ok (credit row),
     withBalanceCache (<[CreditManagement.cacheKey uid := credit row]>
                         (balanceCache w)) w).
Proof.
  intros Hget Hfind Hset Hmiss Hrow. unfold_ledger. unfold_monad.
  now rewrite Hget, Hmiss, Hfind, Hrow, Hset.
Qed.


(** The balance cache after an accepted deduction: the user's entry is
    gone, unless the cache refused the delete, which is logged and
    otherwise ignored. *)
Lemma deductCredits_cache uid amount data w b :
  fst (CreditManagement.deductCredits faults uid amount data w) = Ok b ->
  let w1 := snd (CreditManagement.deductCredits faults uid amount data w) in
  match faults RedisDel with
  | None =>
      balanceCache w1 = delete (CreditManagement.cacheKey uid) (balanceCache w)
  | Some _ =>
      balanceCache w1 = balanceCache w /\
      (WARN, "Failed to clear balance cache:"%string) ∈ log w1
  end.
Proof.
  run_cases; try done.
  all: intros _; split; [reflexivity |].
  all: rewrite ?elem_of_app, ?elem_of_cons; tauto.
Qed.

(** X13. Read-your-writes: with the cache and the account read working, the
    [getBalance] that follows an accepted [deductCredits] returns exactly
    the balance record the deduction returned, whatever was cached before,
    and changes nothing in the store. *)
Theorem getBalance_after_deduct uid amount data w b :
  cacheUp faults ->
  faults UserCreditFindUnique = None ->
  fst (CreditManagement.deductCredits faults uid amount data w) = Ok b ->
  let w1 := snd (CreditManagement.deductCredits faults uid amount data w) in
  fst (CreditManagement.getBalance faults defaults uid w1) = Ok b /\
  db (snd (CreditManagement.getBalance faults defaults uid w1)) = db w1.
Proof.
  intros (Hget & Hset & Hdel) Hfind Hrun w1.
  pose proof (deductCredits_cache uid amount data w b Hrun) as Hcache.
  destruct (deductCredits_commit faults uid amount data w b Hrun)
    as (row & Hrow & _ & _ & Hb & Hdb).
  cbv zeta in Hcache, Hb, Hdb. fold w1 in Hcache, Hdb.
  rewrite Hdel in Hcache.
  erewrite (getBalance_miss uid w1 _ Hget Hfind Hset).
  - cbn. split; [now rewrite Hb | reflexivity].
  - rewrite Hcache. apply lookup_delete_eq.
  - rewrite Hdb. cbn. apply lookup_insert_eq.
Qed.

(** X14. When the cache refuses the delete, [clearBalanceCache] logs a
    warning and the deduction is still accepted: the store holds the reduced
    balance, while the [getBalance] that follows returns the balance cached
    before the deduction. *)
Theorem getBalance_stale_after_failed_cache_clear uid amount data w b cached msg :
  faults RedisGet = None ->
  faults RedisDel = Some msg ->
  balanceCache w !! CreditManagement.cacheKey uid = Some cached ->
  fst (CreditManagement.deductCredits faults uid amount data w) = Ok b ->
  let w1 := snd (CreditManagement.deductCredits faults uid amount data w) in
  fst (CreditManagement.getBalance faults defaults uid w1) = Ok cached /\
  balanceOf (db w1) uid = balance b /\
  (WARN, "Failed to clear balance cache:"%string) ∈ log w1.
Proof.
  intros Hget Hdel Hhit Hrun w1.
  pose proof (deductCredits_cache uid amount data w b Hrun) as Hcache.
  destruct (deductCredits_commit faults uid amount data w b Hrun)
    as (row & Hrow & _ & _ & Hb & Hdb).
  cbv zeta in Hcache, Hb, Hdb. fold w1 in Hcache, Hdb.
  rewrite Hdel in Hcache. destruct Hcache as [Hcache Hlog].
  rewrite (getBalance_hit uid w1 cached Hget) by now rewrite Hcache.
  split; [reflexivity |]. split; [| exact Hlog].
  unfold balanceOf. rewrite Hdb. cbn. rewrite lookup_insert_eq. now rewrite Hb.
Qed.

End LedgerCache.


Lemma getBalance_after_deduct_witness :
  let w1 := snd (CreditManagement.deductCredits noFaults "alice" 4 Sample.usage
                                                Scenario.cachedLedger) in
  fst (CreditManagement.getBalance noFaults Sample.schemaDefaults "alice" w1)
  = Ok (CreditManagement.setAmounts (10 - 4)%Q 100%Q (90 + 4)%Q
                                    (Sample.aliceCredit true)) /\
  db (snd (CreditManagement.getBalance noFaults Sample.schemaDefaults "alice" w1))
  = db w1.
Proof.
  apply (getBalance_after_deduct
           noFaults Sample.schemaDefaults "alice" 4%Q Sample.usage
           Scenario.cachedLedger).
  - repeat split.
  - reflexivity.
  - reflexivity.
Defined.

Lemma getBalance_stale_after_failed_cache_clear_witness :
  let w1 := snd (CreditManagement.deductCredits
                   Scenario.cacheDeleteDown "alice" 4 Sample.usage
                   Scenario.cachedLedger) in
  fst (CreditManagement.getBalance Scenario.cacheDeleteDown Sample.schemaDefaults
                                   "alice" w1)
  = Ok (Sample.aliceCredit true) /\
  balanceOf (db w1) "alice"
  = balance (CreditManagement.setAmounts (10 - 4)%Q 100%Q (90 + 4)%Q
                                         (Sample.aliceCredit true)) /\
  (WARN, "Failed to clear balance cache:"%string) ∈ log w1.
Proof.
  apply (getBalance_stale_after_failed_cache_clear
           Scenario.cacheDeleteDown Sample.schemaDefaults "alice" 4%Q Sample.usage
           Scenario.cachedLedger _ (Sample.aliceCredit true)
           "READONLY You can't write against a read only replica.");
    reflexivity.
Defined.

Section LedgerSuspension.
Variable faults : Faults.
Variable defaults : ColumnDefaults.

(** A suspension with the store working: the account is marked, one
    PENALTY row of amount 0 is recorded. *)
Lemma suspendAccount_done uid reason suspendedBy w row :
  faults UserCreditUpdate = None ->
  faults UserCreditFindUnique = None ->
  faults CreditTransactionCreate = None ->
  userCredit (db w) !! uid = Some row ->
  let row' := statusOf false (Some (clock w)) (Some reason) (clock w) row in
  let w' := snd (CreditManagement.suspendAccount faults uid reason suspendedBy w) in
  fst (CreditManagement.suspendAccount faults uid reason suspendedBy w) = Ok tt /\
  db w' = mkDb (<[uid := row']> (userCredit (db w)))
               (creditTransaction (db w)
                ++ [CreditManagement.statusRow
                      row' PENALTY ("Account suspended: " ++ reason) suspendedBy])
               (pricingTier (db w)) (idSeq (db w)) /\
  clock w' = clock w.
Proof.
  intros Hupd Hfind Hrowc Hrow. unfold_ledger. unfold_monad.
  cbn. rewrite Hupd, Hrow. cbn. rewrite Hfind. cbn.
  rewrite lookup_insert_eq, Hrowc. cbn.
  destruct (faults RedisDel); cbn; repeat split; f_equal; apply insert_insert_eq.
Qed.

Lemma reactivateAccount_done uid reactivatedBy w row :
  faults UserCreditUpdate = None ->
  faults UserCreditFindUnique = None ->
  faults CreditTransactionCreate = None ->
  userCredit (db w) !! uid = Some row ->
  let row' := statusOf true None None (clock w) row in
  let w' := snd (CreditManagement.reactivateAccount faults uid reactivatedBy w) in
  fst (CreditManagement.reactivateAccount faults uid reactivatedBy w) = Ok tt /\
  db w' = mkDb (<[uid := row']> (userCredit (db w)))
               (creditTransaction (db w)
                ++ [CreditManagement.statusRow
                      row' ADJUSTMENT "Account reactivated" reactivatedBy])
               (pricingTier (db w)) (idSeq (db w)) /\
  clock w' = clock w.
Proof.
  intros Hupd Hfind Hrowc Hrow. unfold_ledger. unfold_monad.
  cbn. rewrite Hupd, Hrow. cbn. rewrite Hfind. cbn.
  rewrite lookup_insert_eq, Hrowc. cbn.
  destruct (faults RedisDel); cbn; repeat split; f_equal; apply insert_insert_eq.
Qed.


(** X16. [suspendAccount] runs outside a transaction: when the account
    update succeeds and the insert of the PENALTY row fails, the call throws
    that error while the account stays suspended; no row is recorded and the
    balance cache is not cleared. *)
Theorem suspendAccount_not_atomic uid reason suspendedBy w row msg :
  faults UserCreditUpdate = None ->
  faults UserCreditFindUnique = None ->
  faults CreditTransactionCreate = Some msg ->
  userCredit (db w) !! uid = Some row ->
  let w' := snd (CreditManagement.suspendAccount faults uid reason suspendedBy w) in
  fst (CreditManagement.suspendAccount faults uid reason suspendedBy w)
  = Err (ClientError msg) /\
  userCredit (db w') !! uid
  = Some (statusOf false (Some (clock w)) (Some reason) (clock w) row) /\
  creditTransaction (db w') = creditTransaction (db w) /\
  balanceCache w' = balanceCache w.
Proof.
  intros Hupd Hfind Hrowc Hrow. unfold_ledger. unfold_monad.
  cbn. rewrite Hupd, Hrow. cbn. rewrite Hfind. cbn.
  rewrite lookup_insert_eq, Hrowc. cbn.
  rewrite lookup_insert_eq. repeat split.
Qed.

(** X17. With the storage working, [reactivateAccount] after
    [suspendAccount] succeeds and leaves the account active with
    [suspendedAt] and [suspensionReason] cleared and its balance and totals
    as before; the journal gains exactly two rows of amount 0, a PENALTY and
    then an ADJUSTMENT, both carrying the unchanged balance.  An account
    that was active before ends with the very same credit columns. *)
Theorem reactivateAccount_after_suspendAccount
    uid reason suspendedBy reactivatedBy w row :
  storageUp faults ->
  userCredit (db w) !! uid = Some row ->
  let w1 := snd (CreditManagement.suspendAccount faults uid reason suspendedBy w) in
  let w2 := snd (CreditManagement.reactivateAccount faults uid reactivatedBy w1) in
  fst (CreditManagement.reactivateAccount faults uid reactivatedBy w1) = Ok tt /\
  userCredit (db w2)
  = <[uid := statusOf true None None (clock w) row]> (userCredit (db w)) /\
  (exists suspension reactivation,
      creditTransaction (db w2)
      = creditTransaction (db w) ++ [suspension; reactivation] /\
      tx_type suspension = PENALTY /\ tx_type reactivation = ADJUSTMENT /\
      amount suspension = 0%Q /\ amount reactivation = 0%Q /\
      balanceAfter suspension = balance (credit row) /\
      balanceAfter reactivation = balance (credit row)) /\
  (isActive (credit row) = true ->
   suspendedAt (credit row) = None ->
   suspensionReason (credit row) = None ->
   credit <$> userCredit (db w2) !! uid = Some (credit row)).
Proof.
  intros Hup Hrow w1 w2.
  destruct Hup as (Hfind & Hcreate & Hupd & Hrowc & Hcommit).
  destruct (suspendAccount_done uid reason suspendedBy w row Hupd Hfind Hrowc Hrow)
    as (_ & Hdb1 & Hclock1).
  cbv zeta in Hdb1, Hclock1. fold w1 in Hdb1, Hclock1.
  set (row1 := statusOf false (Some (clock w)) (Some reason) (clock w) row) in *.
  assert (Hrow1 : userCredit (db w1) !! uid = Some row1)
    by (rewrite Hdb1; cbn; apply lookup_insert_eq).
  destruct (reactivateAccount_done uid reactivatedBy w1 row1 Hupd Hfind Hrowc Hrow1)
    as (Hok & Hdb2 & _).
  cbv zeta in Hdb2. fold w2 in Hdb2. rewrite Hclock1 in Hdb2.
  assert (Hmap : userCredit (db w2)
                 = <[uid := statusOf true None None (clock w) row]> (userCredit (db w))).
  { rewrite Hdb2, Hdb1. cbn. now rewrite insert_insert_eq. }
  split; [exact Hok |]. split; [exact Hmap |]. split.
  - eexists _, _. rewrite Hdb2, Hdb1. cbn. rewrite <- app_assoc. cbn.
    split; [reflexivity |]. repeat split.
  - intros Hactive Hat Hreason. rewrite Hmap, lookup_insert_eq. cbn.
    f_equal. unfold CreditManagement.setStatus.
    destruct (credit row); cbn in *. now subst.
Qed.

End LedgerSuspension.


Lemma suspendAccount_not_atomic_witness :
  let w' := snd (CreditManagement.suspendAccount
                   Scenario.journalDown "alice" "chargeback" (Some "admin")
                   Scenario.cachedLedger) in
  fst (CreditManagement.suspendAccount
         Scenario.journalDown "alice" "chargeback" (Some "admin")
         Scenario.cachedLedger)
  = Err (ClientError "deadlock detected") /\
  userCredit (db w') !! "alice"
  = Some (statusOf false (Some (clock Scenario.cachedLedger)) (Some "chargeback")
                   (clock Scenario.cachedLedger) (Sample.alice true)) /\
  creditTransaction (db w') = creditTransaction (db Scenario.cachedLedger) /\
  balanceCache w' = balanceCache Scenario.cachedLedger.
Proof.
  apply (suspendAccount_not_atomic
           Scenario.journalDown "alice" "chargeback" (Some "admin")
           Scenario.cachedLedger (Sample.alice true) "deadlock detected");
    reflexivity.
Defined.

Lemma reactivateAccount_after_suspendAccount_witness :
  let w1 := snd (CreditManagement.suspendAccount noFaults "alice" "chargeback"
                                                 (Some "admin") (Sample.ledger true)) in
  let w2 := snd (CreditManagement.reactivateAccount noFaults "alice"
                                                    (Some "admin") w1) in
  fst (CreditManagement.reactivateAccount noFaults "alice" (Some "admin") w1)
  = Ok tt /\
  userCredit (db w2)
  = <["alice" := statusOf true None None (clock (Sample.ledger true))
                          (Sample.alice true)]>
      (userCredit (db (Sample.ledger true))) /\
  (exists suspension reactivation,
      creditTransaction (db w2)
      = creditTransaction (db (Sample.ledger true)) ++ [suspension; reactivation] /\
      tx_type suspension = PENALTY /\ tx_type reactivation = ADJUSTMENT /\
      amount suspension = 0%Q /\ amount reactivation = 0%Q /\
      balanceAfter suspension = balance (credit (Sample.alice true)) /\
      balanceAfter reactivation = balance (credit (Sample.alice true))) /\
  (isActive (credit (Sample.alice true)) = true ->
   suspendedAt (credit (Sample.alice true)) = None ->
   suspensionReason (credit (Sample.alice true)) = None ->
   credit <$> userCredit (db w2) !! "alice" = Some (credit (Sample.alice true))).
Proof.
  apply (reactivateAccount_after_suspendAccount
           noFaults "alice" "chargeback" (Some "admin") (Some "admin")
           (Sample.ledger true) (Sample.alice true)).
  - repeat split.
  - reflexivity.
Defined.

(* --------------------------------------------------------------------- *)
(** ** Pricing: estimates, the rule cache, request limits                 *)
(* --------------------------------------------------------------------- *)

Lemma ofQuotient_mono n m d :
  0 < d -> n <= m -> (Decimal.ofQuotient n d <= Decimal.ofQuotient m d)%Q.
Proof.
  intros Hd Hle. unfold Decimal.ofQuotient.
  apply Qmult_le_compat_r.
  - rewrite <- Zle_Qle. exact Hle.
  - apply Qinv_le_0_compat. change 0%Q with (inject_Z 0).
    rewrite <- Zle_Qle. lia.
Qed.

(** X18. For non-negative size and duration multipliers, the estimate of the
    pre-check bounds the actual price from above whenever the response is no
    larger than [max(requestSize, 1024)] and the request takes no longer
    than the estimated duration.  This holds for both copies of the
    calculation ([performPricingCalculation] and
    [PricingCalculator.calculateCost] / [estimateCost]). *)
Theorem estimate_bounds_actual_cost
    endpoint requestSize responseSize duration estimatedDuration rule :
  (0 <= sizeMultiplier rule)%Q ->
  (0 <= durationMultiplier rule)%Q ->
  responseSize <= Z.max requestSize 1024 ->
  duration <= estimatedDuration ->
  (totalPrice (UsageProcessor.performPricingCalculation
                 endpoint requestSize responseSize duration rule)
   <= totalPrice (UsageProcessor.performPricingCalculation
                    endpoint requestSize (Z.max requestSize 1024)
                    estimatedDuration rule))%Q /\
  (PricingCalculator.totalPrice
     (PricingCalculator.calculateCost
        (basePrice rule) (sizeMultiplier rule) (durationMultiplier rule)
        (endpointPricing rule) endpoint requestSize responseSize duration)
   <= PricingCalculator.estimateCost
        (basePrice rule) (sizeMultiplier rule) (durationMultiplier rule)
        (endpointPricing rule) endpoint requestSize (Some estimatedDuration) None)%Q.
Proof.
  intros Hsize Hduration Hresponse Htime.
  assert (H : (totalPrice (UsageProcessor.performPricingCalculation
                             endpoint requestSize responseSize duration rule)
               <= totalPrice (UsageProcessor.performPricingCalculation
                                endpoint requestSize (Z.max requestSize 1024)
                                estimatedDuration rule))%Q).
  { unfold UsageProcessor.performPricingCalculation. cbn [totalPrice].
    pose proof (ofQuotient_mono (requestSize + responseSize)
                  (requestSize + Z.max requestSize 1024) 1024) as H1.
    pose proof (ofQuotient_mono duration estimatedDuration 1000) as H2.
    specialize (H1 ltac:(lia) ltac:(lia)). specialize (H2 ltac:(lia) Htime).
    nra. }
  split; [exact H |]. exact H.
Qed.

Lemma estimate_bounds_actual_cost_witness :
  (totalPrice (UsageProcessor.performPricingCalculation
                 "/api/v1/proofs" 2048 1500 800 Sample.standardRule)
   <= totalPrice (UsageProcessor.performPricingCalculation
                    "/api/v1/proofs" 2048 (Z.max 2048 1024) 1000
                    Sample.standardRule))%Q /\
  (PricingCalculator.totalPrice
     (PricingCalculator.calculateCost
        (basePrice Sample.standardRule) (sizeMultiplier Sample.standardRule)
        (durationMultiplier Sample.standardRule)
        (endpointPricing Sample.standardRule) "/api/v1/proofs" 2048 1500 800)
   <= PricingCalculator.estimateCost
        (basePrice Sample.standardRule) (sizeMultiplier Sample.standardRule)
        (durationMultiplier Sample.standardRule)
        (endpointPricing Sample.standardRule) "/api/v1/proofs" 2048
        (Some 1000%Z) None)%Q.
Proof.
  apply (estimate_bounds_actual_cost
           "/api/v1/proofs" 2048 1500 800 1000 Sample.standardRule).
  - cbn. lra.
  - cbn. lra.
  - cbn. lia.
  - lia.
Defined.

Section PricingService.
Variable faults : Faults.


(** X20. Once [calculateCost] has returned a price for a tier, the rule is
    in the pricing cache: the same call returns the same price without
    reading the store or changing the world, whatever has become of the
    store (the tier changed, deactivated or deleted) and whatever calls
    fail.  (The timer that drops the cached rule after five minutes is not
    represented.) *)
Theorem calculateCost_pinned_by_cache
    endpoint requestSize responseSize duration tierName w cost :
  fst (UsageProcessor.calculateCost faults endpoint requestSize responseSize
                                    duration tierName w) = Ok cost ->
  let w1 := snd (UsageProcessor.calculateCost faults endpoint requestSize
                                              responseSize duration tierName w) in
  forall (faults' : Faults) (store : Db),
    UsageProcessor.calculateCost faults' endpoint requestSize responseSize
                                 duration tierName (withDb store w1)
    = (Ok cost, withDb store w1).
Proof.
  intros Hrun w1 faults' store. subst w1. revert Hrun.
  unfold UsageProcessor.calculateCost, UsageProcessor.getPricingRule,
    UsageProcessor.pricingTierFindUnique, tryCatch, bind, ret, client, throw, logger.
  repeat (case_match; simplify_eq/=); intros; simplify_map_eq/=; try done.
Qed.

End PricingService.

Lemma calculateCost_pinned_by_cache_witness :
  let w1 := snd (UsageProcessor.calculateCost noFaults "/api/v1/proofs" 2048 2048
                                              2000 "standard" Sample.priced) in
  UsageProcessor.calculateCost Scenario.storeDown "/api/v1/proofs" 2048 2048 2000
                               "standard" (withDb (db (Sample.ledger true)) w1)
  = (Ok (totalPrice (UsageProcessor.performPricingCalculation
                       "/api/v1/proofs" 2048 2048 2000 Sample.standardRule)),
     withDb (db (Sample.ledger true)) w1).
Proof.
  apply (calculateCost_pinned_by_cache
           noFaults "/api/v1/proofs" 2048 2048 2000 "standard" Sample.priced
           (totalPrice (UsageProcessor.performPricingCalculation
                          "/api/v1/proofs" 2048 2048 2000 Sample.standardRule))
           eq_refl Scenario.storeDown (db (Sample.ledger true))).
Defined.

(** X21. [PricingValidator.validateRequest] returns no error exactly when
    the request size and the duration are each within their limit, where a
    limit that is absent or 0 is no limit; it returns at most two errors,
    the one about the size first, and the two checks are independent of each
    other. *)
Theorem validateRequest_no_errors_iff
    (requestSize duration : Z) (maxRequestSize maxDuration : option Z) :
  let within (value : Z) (limit : option Z) :=
    forall l, limit = Some l -> l = 0 \/ value <= l in
  (PricingValidator.validateRequest requestSize duration maxRequestSize maxDuration
   = [] <-> within requestSize maxRequestSize /\ within duration maxDuration) /\
  (length (PricingValidator.validateRequest requestSize duration
                                            maxRequestSize maxDuration)
   <= 2)%nat /\
  PricingValidator.validateRequest requestSize duration maxRequestSize maxDuration
  = PricingValidator.validateRequest requestSize 0 maxRequestSize None
    ++ PricingValidator.validateRequest 0 duration None maxDuration.
Proof.
  cbv zeta. unfold PricingValidator.validateRequest.
  destruct maxRequestSize as [sizeLimit |], maxDuration as [timeLimit |]; cbn.
  all: repeat match goal with
         | |- context [?a =? ?b] => destruct (Z.eqb_spec a b); cbn
         | |- context [?a <? ?b] => destruct (Z.ltb_spec a b); cbn
         end.
  all: repeat split; try lia; try reflexivity; try discriminate.
  all: try (intros; simplify_eq; lia).
  all: try (intros [H1 H2];
            first [destruct (H1 _ eq_refl); lia | destruct (H2 _ eq_refl); lia]).
Qed.

(* --------------------------------------------------------------------- *)
(** ** The usage-tracking hooks                                           *)
(* --------------------------------------------------------------------- *)

Section HookFacts.
Import UsageTrackingHooks.
Variable options : BillingMiddlewareOptions.
Variable faults : Faults.
Variable defaults : ColumnDefaults.
Variable regexTest : string -> string -> bool.
Variable normalizeEndpoint : string -> string.
Variable apiKeys : gmap string APIKey.
Variable apiKeyFault : option string.

(** The identity lookup returns, and writes at most a log line. *)
Lemma extractUserIdentity_returns request w :
  exists identity w',
    extractUserIdentity apiKeys apiKeyFault request w = (Ok identity, w') /\
    db w' = db w /\ balanceCache w' = balanceCache w /\
    pricingCache w' = pricingCache w /\ clock w' = clock w /\
    (apiKey request = None -> w' = w /\
       identity = (if truthy (user request) then user request else None, None)).
Proof.
  unfold extractUserIdentity, apiKeyFindUnique, tryCatch, bind, ret, logger.
  destruct (apiKey request) as [key |] eqn:Hkey; cbn [truthy].
  - destruct (negb (String.eqb key "")); [| eexists _, _; repeat split; discriminate].
    destruct apiKeyFault; [eexists _, _; repeat split; discriminate |].
    destruct (apiKeys !! default "" (Some key)) as [record |];
      [destruct (key_isActive record) |];
      eexists _, _; repeat split; discriminate.
  - eexists _, _. repeat split.
Qed.

(** X22. [preHandler] never throws, whatever the request, the world and the
    failures: it returns the request with its url, method, user, API key and
    size unchanged.  For a skipped endpoint the request and the world are
    untouched; otherwise the request carries a usage context, which either
    has [skipBilling] set or has the clock reading at entry as its start
    time and the default pricing tier. *)
Theorem preHandler_never_throws (request : Request) (w : World) :
  exists request' w',
    preHandler options faults defaults regexTest normalizeEndpoint
               apiKeys apiKeyFault request w
    = (Ok request', w') /\
    (url request', method request', user request', apiKey request',
     requestSize request')
    = (url request, method request, user request, apiKey request,
       requestSize request) /\
    (shouldSkipEndpoint options regexTest (url request) = true ->
     request' = request /\ w' = w) /\
    (shouldSkipEndpoint options regexTest (url request) = false ->
     exists context,
       usageContext request' = Some context /\
       (skipBilling context = false ->
        startTime context = clock w /\
        ctx_pricingTier context = Some (defaultPricingTier options))).
Proof.
  unfold preHandler, determinePricingTier, now.
  unfold tryCatch at 1. unfold bind at 1.
  destruct (shouldSkipEndpoint options regexTest (url request)) eqn:Hskip.
  { exists request, w. cbn. repeat split; discriminate. }
  unfold bind, ret. 
  destruct (extractUserIdentity_returns request w)
    as (identity & w1 & -> & _ & _ & _ & Hclock & _).
  destruct (enableRealTimeDeduction options && truthy (fst identity)).
  - destruct (UsageTracking.preCheckCredits _ _ _ _ _ _ w1) as [[[] | e] w2].
    + eexists _, _. split; [reflexivity |]. cbn. repeat split; try discriminate.
      eexists. split; [reflexivity |]. cbn. now split.
    + eexists _, _. unfold logger. cbn. split; [reflexivity |].
      repeat split; try discriminate.
      eexists. split; [reflexivity |]. cbn. discriminate.
  - eexists _, _. split; [reflexivity |]. cbn. repeat split; try discriminate.
    eexists. split; [reflexivity |]. cbn. now split.
Qed.

(** X23. When the credit pre-check throws [InsufficientCreditsError]
    (real-time deduction enabled, endpoint not skipped, user identified by
    the token), [preHandler] catches it: it returns normally, logs one error
    line and leaves the context [{ startTime, skipBilling: true }] on the
    request; [postHandler] then returns at once for that request, in any
    world, so the request is neither refused nor billed. *)
Theorem preHandler_swallows_insufficient_credits
    (request : Request) (w w1 : World) uid required available :
  shouldSkipEndpoint options regexTest (url request) = false ->
  enableRealTimeDeduction options = true ->
  user request = Some uid ->
  uid <> ""%string ->
  apiKey request = None ->
  UsageTracking.preCheckCredits
    faults defaults (normalizeEndpoint (url request)) (requestSize request)
    uid (defaultPricingTier options) w
  = (Err (InsufficientCreditsError required available uid), w1) ->
  let request' := withUsageContext (skipContext (clock w1)) request in
  preHandler options faults defaults regexTest normalizeEndpoint
             apiKeys apiKeyFault request w
  = (Ok request',
     withLog (log w1 ++ [(ERROR, "Usage tracking pre-handler error:"%string)]) w1) /\
  forall reply w2,
    postHandler options faults normalizeEndpoint request' reply w2 = (Ok tt, w2).
Proof.
  intros Hskip Henabled Huser Hne Hkey Hcheck request'. split.
  - unfold preHandler, determinePricingTier, now, extractUserIdentity.
    unfold tryCatch at 1. unfold bind at 1. rewrite Hskip, Hkey, Huser.
    assert (Htruthy : truthy (Some uid) = true).
    { cbn. destruct (String.eqb_spec uid ""); [contradiction | reflexivity]. }
    cbn [truthy] in Htruthy |- *. unfold bind, ret. rewrite Htruthy. cbn.
    rewrite Henabled, Htruthy. cbn. rewrite Hcheck. reflexivity.
  - intros reply w2. reflexivity.
Qed.

(** A handler that only logs turns every failure into a return. *)
Lemma tryCatch_logger (body : M unit) level line (w : World) :
  exists w', tryCatch body (fun _ : BillingError => logger level line) w = (Ok tt, w').
Proof.
  unfold tryCatch, logger. destruct (body w) as [[[] | e] w1]; eexists; reflexivity.
Qed.

(** X24. [postHandler] never throws, whatever the request, the reply, the
    world and the failures; for a request without a usage context, or with
    [skipBilling] set, or when real-time deduction is disabled, it leaves
    the store and the balance cache as they are. *)
Theorem postHandler_never_throws (request : Request) (reply : Reply) (w : World) :
  exists w',
    postHandler options faults normalizeEndpoint request reply w = (Ok tt, w') /\
    ((usageContext request = None \/
      skipBilling <$> usageContext request = Some true \/
      enableRealTimeDeduction options = false) ->
     db w' = db w /\ balanceCache w' = balanceCache w).
Proof.
  unfold postHandler.
  destruct (usageContext request) as [context |].
  2: { exists w. split; [reflexivity |]. intros _. split; reflexivity. }
  destruct (skipBilling context) eqn:Hskip.
  { exists w. split; [reflexivity |]. intros _. split; reflexivity. }
  match goal with
  | |- context [tryCatch ?body ?handler w] =>
      destruct (tryCatch_logger body ERROR "Usage tracking post-handler error:" w)
        as [w' Hrun]
  end.
  exists w'. split; [exact Hrun |].
  intros [Hnone | [Hskipped | Hdisabled]]; [discriminate | cbn in Hskipped; congruence |].
  revert Hrun. rewrite Hdisabled. cbn [andb].
  unfold calculateUsageMetrics, now, UsageProcessor.calculateCost,
    tryCatch, bind, ret, logger.
  destruct (truthy (ctx_pricingTier context)).
  - pose proof (getPricingRule_frame faults (default "" (ctx_pricingTier context)) w)
      as [Hdb Hcache].
    destruct (UsageProcessor.getPricingRule faults _ w) as [[rule | e] w1];
      cbn in *; intros [= <-]; cbn; split; assumption.
  - cbn. intros [= <-]. split; reflexivity.
Qed.


End HookFacts.

(** X26. With [defaultUsageTrackingOptions], whose [skipEndpoints] holds the
    prefix '/api', every url starting with '/api' is skipped: [preHandler]
    returns the request and the world untouched, no usage context is set,
    and [postHandler] returns at once, in any world.  No request under
    '/api' is pre-checked or billed. *)
Theorem default_options_skip_api_routes
    faults defaults regexTest normalizeEndpoint apiKeys apiKeyFault
    (request : UsageTrackingHooks.Request) (w : World) :
  String.prefix "/api" (UsageTrackingHooks.url request) = true ->
  UsageTrackingHooks.usageContext request = None ->
  UsageTrackingHooks.preHandler
    UsageTrackingHooks.defaultUsageTrackingOptions faults defaults regexTest
    normalizeEndpoint apiKeys apiKeyFault request w
  = (Ok request, w) /\
  forall reply w1,
    UsageTrackingHooks.postHandler
      UsageTrackingHooks.defaultUsageTrackingOptions faults normalizeEndpoint
      request reply w1
    = (Ok tt, w1).
Proof.
  intros Hprefix Hfresh. split.
  - unfold UsageTrackingHooks.preHandler, UsageTrackingHooks.shouldSkipEndpoint,
      tryCatch, ret.
    cbn [UsageTrackingHooks.skipEndpoints
           UsageTrackingHooks.defaultUsageTrackingOptions existsb].
    change (includes "*" "/api") with false. cbn iota. rewrite Hprefix.
    now rewrite !orb_true_r.
  - intros reply w1. unfold UsageTrackingHooks.postHandler. now rewrite Hfresh.
Qed.

Lemma default_options_skip_api_routes_witness :
  let request :=
    {| UsageTrackingHooks.url := "/api/v1/proofs";
       UsageTrackingHooks.method := "POST";
       UsageTrackingHooks.user := Some "alice"%string;
       UsageTrackingHooks.apiKey := None;
       UsageTrackingHooks.requestSize := 2048;
       UsageTrackingHooks.usageContext := None |} in
  UsageTrackingHooks.preHandler
    UsageTrackingHooks.defaultUsageTrackingOptions noFaults Sample.schemaDefaults
    (fun _ _ => false) (fun url => url) ∅ None request Sample.priced
  = (Ok request, Sample.priced) /\
  forall reply w1,
    UsageTrackingHooks.postHandler
      UsageTrackingHooks.defaultUsageTrackingOptions noFaults (fun url => url)
      request reply w1
    = (Ok tt, w1).
Proof.
  apply (default_options_skip_api_routes
           noFaults Sample.schemaDefaults (fun _ _ => false) (fun url => url) ∅ None
           {| UsageTrackingHooks.url := "/api/v1/proofs";
              UsageTrackingHooks.method := "POST";
              UsageTrackingHooks.user := Some "alice"%string;
              UsageTrackingHooks.apiKey := None;
              UsageTrackingHooks.requestSize := 2048;
              UsageTrackingHooks.usageContext := None |}
           Sample.priced);
    reflexivity.
Defined.


Lemma preHandler_swallows_insufficient_credits_witness :
  let w1 :=
    snd (UsageTracking.preCheckCredits
           noFaults Sample.schemaDefaults "/api/v1/proofs" 30000000 "alice"
           "standard" Sample.priced) in
  let request' :=
    UsageTrackingHooks.withUsageContext (skipContext (clock w1)) Traffic.upload in
  UsageTrackingHooks.preHandler
    Traffic.tracked noFaults Sample.schemaDefaults (fun _ _ => false)
    (fun url => url) ∅ None Traffic.upload Sample.priced
  = (Ok request',
     withLog (log w1 ++ [(ERROR, "Usage tracking pre-handler error:"%string)]) w1) /\
  forall reply w2,
    UsageTrackingHooks.postHandler
      Traffic.tracked noFaults (fun url => url) request' reply w2
    = (Ok tt, w2).
Proof.
  apply (preHandler_swallows_insufficient_credits
           Traffic.tracked noFaults Sample.schemaDefaults (fun _ _ => false)
           (fun url => url) ∅ None Traffic.upload Sample.priced
           (snd (UsageTracking.preCheckCredits
           noFaults Sample.schemaDefaults "/api/v1/proofs" 30000000 "alice"
           "standard" Sample.priced)) "alice"
           (totalPrice (UsageProcessor.performPricingCalculation
                          "/api/v1/proofs" 30000000 (Z.max 30000000 1024) 1000
                          Sample.standardRule))
           10%Q).
  - vm_compute; reflexivity.
  - vm_compute; reflexivity.
  - vm_compute; reflexivity.
  - discriminate.
  - vm_compute; reflexivity.
  - vm_compute; reflexivity.
Defined.


(* --------------------------------------------------------------------- *)
(** ** Multi-chain anchoring: what is written to the proof rows           *)
(* --------------------------------------------------------------------- *)

Section AnchoringRecords.
Import Verification.
Context {C R : Type}.
Variable faults : Verification.Faults.
Variable anchorToEthereum anchorToArbitrum anchorToStarknet :
  string -> C -> Result JsError string * C.
Variable createVerificationHash : Submission -> list R -> string.

(** The [proof] table after the update loop. *)
Lemma forEach_proof passes submissionId data (w : World C) :
  let body :=
    if nonEmpty data then proofUpdateMany faults submissionId data else ret tt in
  proof (snd (forEach passes body w))
  = match faults ProofUpdateMany, passes with
    | None, S _ =>
        if nonEmpty data
        then map (applyUpdate submissionId data) (proof w)
        else proof w
    | _, _ => proof w
    end.
Proof.
  cbv zeta. destruct (nonEmpty data) eqn:Hne.
  - destruct (faults ProofUpdateMany) as [msg |] eqn:Hf.
    + destruct passes as [| passes]; [reflexivity |].
      cbn [forEach]. unfold bind, proofUpdateMany, bind, Verification.client.
      now rewrite Hf.
    + pose proof (forEach_update faults passes submissionId data w) as (_ & _ & H).
      cbv zeta in H. rewrite Hne in H. destruct (H Hf eq_refl) as [_ ->].
      reflexivity.
  - assert (H : forall w0 : World C,
               forEach passes (ret tt : St (World C) JsError unit) w0 = (Ok tt, w0)).
    { induction passes as [| passes IH]; intros w0; [reflexivity |].
      cbn [forEach]. unfold bind, ret. apply IH. }
    rewrite H. cbn. destruct (faults ProofUpdateMany), passes; reflexivity.
Qed.

(** When the update loop has nothing to fail on, it returns. *)
Lemma forEach_ok passes submissionId data (w : World C) :
  faults ProofUpdateMany = None \/ nonEmpty data = false \/ passes = 0%nat ->
  fst (forEach passes
         (if nonEmpty data then proofUpdateMany faults submissionId data else ret tt)
         w) = Ok tt.
Proof.
  intros Hcase. destruct (nonEmpty data) eqn:Hne.
  - destruct Hcase as [Hf | [Hfalse | ->]]; [| discriminate | reflexivity].
    pose proof (forEach_update faults passes submissionId data w) as (_ & _ & H).
    cbv zeta in H. rewrite Hne in H. now destruct (H Hf eq_refl).
  - clear Hcase. revert w. induction passes as [| passes IH]; intros w; [reflexivity |].
    cbn [forEach]. unfold bind, ret. apply IH.
Qed.

(** [anchorToBlockchains] in every case: it returns, the chains are as the
    three calls leave them, and the [proof] table is as the update loop
    leaves it. *)
Lemma anchorToBlockchains_proof submission results (w : World C) :
  let calls := anchorCalls anchorToEthereum anchorToArbitrum anchorToStarknet
                           (createVerificationHash submission results) in
  let settled := fst (allSettled calls (chains w)) in
  exists w',
    anchorToBlockchains faults anchorToEthereum anchorToArbitrum anchorToStarknet
                        createVerificationHash submission results w
    = (Ok tt, w') /\
    chains w' = snd (allSettled calls (chains w)) /\
    proof w'
    = match faults ProofUpdateMany, results with
      | None, _ :: _ =>
          if nonEmpty (updateDataOf settled)
          then map (applyUpdate (submission_id submission) (updateDataOf settled))
                   (proof w)
          else proof w
      | _, _ => proof w
      end /\
    (faults VerificationLogCreate = None ->
     faults ProofUpdateMany = None \/ nonEmpty (updateDataOf settled) = false
     \/ results = [] ->
     exists earlier,
       verificationLog w'
       = earlier
         ++ [{| log_submissionId := submission_id submission;
                log_level := INFO;
                log_message := "Blockchain anchoring completed";
                log_details := Some (map status settled) |}]).
Proof.
  intros calls settled.
  unfold anchorToBlockchains.
  unfold tryCatch at 1. unfold bind at 1.
  destruct (logVerification_returns faults (submission_id submission) INFO
              "Anchoring verification results to blockchains" None w)
    as (w1 & -> & Hc1 & Hp1 & _).
  unfold bind at 1.
  fold calls. rewrite Hc1.
  destruct (allSettled calls (chains w)) as [settled' c'] eqn:Hsettle.
  cbn [fst snd] in *. subst settled.
  unfold bind at 1.
  set (w2 := mkWorld c' (proof w1) (verificationLog w1) (lines w1)).
  pose proof (forEach_update faults (length results) (submission_id submission)
                (updateDataOf settled') w2) as (Hc & _ & _).
  pose proof (forEach_proof (length results) (submission_id submission)
                (updateDataOf settled') w2) as Hp.
  cbv zeta in Hc, Hp.
  assert (Hshape : proof (snd (forEach (length results)
             (if nonEmpty (updateDataOf settled')
              then proofUpdateMany faults (submission_id submission)
                                   (updateDataOf settled')
              else ret tt) w2))
           = match faults ProofUpdateMany, results with
             | None, _ :: _ =>
                 if nonEmpty (updateDataOf settled')
                 then map (applyUpdate (submission_id submission)
                                       (updateDataOf settled')) (proof w)
                 else proof w
             | _, _ => proof w
             end).
  { rewrite Hp. cbn [proof w2]. rewrite Hp1.
    destruct (faults ProofUpdateMany), results; reflexivity. }
  pose proof (forEach_ok (length results) (submission_id submission)
                (updateDataOf settled') w2) as Hok.
  destruct (forEach (length results) _ w2) as [[[] | e] w3] eqn:Hloop;
    cbn [fst snd] in *.
  - destruct (logVerification_returns faults (submission_id submission) INFO
              "Blockchain anchoring completed" (Some (map status settled')) w3)
      as (w4 & -> & Hc4 & Hp4 & Hl4).
    exists w4. split; [reflexivity |]. split; [now rewrite Hc4, Hc |].
    split; [now rewrite Hp4 |].
    intros Hlog _. eexists. exact (Hl4 Hlog).
  - match goal with |- context [logVerification ?f ?i ?l ?m ?d w3] =>
      destruct (logVerification_returns f i l m d w3)
        as (w4 & -> & Hc4 & Hp4 & _) end.
    exists w4. split; [reflexivity |]. split; [now rewrite Hc4, Hc |].
    split; [now rewrite Hp4 |].
    intros _ Hcase. exfalso.
    assert (Hcase' : faults ProofUpdateMany = None
                     \/ nonEmpty (updateDataOf settled') = false
                     \/ length results = 0%nat).
    { destruct Hcase as [H | [H | ->]]; auto. }
    specialize (Hok Hcase'). discriminate.
Qed.

(** A row the loop's update leaves: same submission, other submissions
    untouched, and no stored hash lost. *)
Lemma applyUpdate_keeps submissionId data row :
  let row' := applyUpdate submissionId data row in
  proof_submissionId row' = proof_submissionId row /\
  (proof_submissionId row <> submissionId -> row' = row) /\
  (is_Some (ethereumTxHash row) -> is_Some (ethereumTxHash row')) /\
  (is_Some (arbitrumTxHash row) -> is_Some (arbitrumTxHash row')) /\
  (is_Some (starknetTxHash row) -> is_Some (starknetTxHash row')).
Proof.
  cbv zeta. unfold applyUpdate.
  destruct (String.eqb_spec (proof_submissionId row) submissionId) as [Heq | Hne];
    cbn; [| repeat split; auto].
  repeat split; try contradiction; unfold overwrite;
    destruct (set_ethereumTxHash data), (set_arbitrumTxHash data),
      (set_starknetTxHash data); eauto.
Qed.

(** X27. When all three chain calls throw, [anchorToBlockchains] still
    returns normally under every storage failure: the [proof] table is
    unchanged, the three statuses are 'rejected', and (with the log table
    working) the event logged last is the INFO event 'Blockchain anchoring
    completed' carrying the three rejections. *)
Theorem anchoring_all_chains_failing submission results (w : World C) :
  let calls := anchorCalls anchorToEthereum anchorToArbitrum anchorToStarknet
                           (createVerificationHash submission results) in
  let settled := fst (allSettled calls (chains w)) in
  (forall i call, calls !! i = Some call -> alwaysThrows call) ->
  exists w',
    anchorToBlockchains faults anchorToEthereum anchorToArbitrum anchorToStarknet
                        createVerificationHash submission results w
    = (Ok tt, w') /\
    proof w' = proof w /\
    map status settled = ["rejected"; "rejected"; "rejected"]%string /\
    (faults VerificationLogCreate = None ->
     exists earlier,
       verificationLog w'
       = earlier
         ++ [{| log_submissionId := submission_id submission;
                log_level := INFO;
                log_message := "Blockchain anchoring completed";
                log_details := Some ["rejected"; "rejected"; "rejected"]%string |}]).
Proof.
  intros calls settled Hall.
  assert (Hrej : forall i, (i < 3)%nat ->
             exists reason, settled !! i = Some (Rejected reason)).
  { intros i Hi.
    destruct (lookup_lt_is_Some_2 calls i) as [call Hcall]; [cbn; lia |].
    exact (proj1 (allSettled_lookup calls (chains w) i call Hcall)
                 (Hall i call Hcall)). }
  assert (Hlen : length settled = 3%nat).
  { subst settled. now rewrite allSettled_length. }
  destruct (Hrej 0%nat) as [r0 H0]; [lia |].
  destruct (Hrej 1%nat) as [r1 H1]; [lia |].
  destruct (Hrej 2%nat) as [r2 H2]; [lia |].
  assert (Hsettled : settled = [Rejected r0; Rejected r1; Rejected r2]).
  { destruct settled as [| s0 [| s1 [| s2 [| s3 rest]]]]; try discriminate.
    cbn in H0, H1, H2. congruence. }
  assert (Hempty : nonEmpty (updateDataOf settled) = false)
    by now rewrite Hsettled.
  destruct (anchorToBlockchains_proof submission results w)
    as (w' & Hrun & _ & Hproof & Hlog).
  cbv zeta in Hproof, Hlog. fold calls in Hproof, Hlog. fold settled in Hproof, Hlog.
  exists w'. split; [exact Hrun |]. split.
  - rewrite Hproof, Hempty. destruct (faults ProofUpdateMany), results; reflexivity.
  - split; [now rewrite Hsettled |].
    intros Hf. destruct (Hlog Hf) as [earlier Hrow]; [auto |].
    exists earlier. rewrite Hrow, Hsettled. reflexivity.
Qed.

(** X28. The hashes are written inside the loop over [results]: with an
    empty [results], [anchorToBlockchains] still makes the three chain calls
    (the chains are left as the three calls leave them) and records none of
    their hashes, the [proof] table being unchanged. *)
Theorem anchoring_without_results_records_nothing submission (w : World C) :
  let calls := anchorCalls anchorToEthereum anchorToArbitrum anchorToStarknet
                           (createVerificationHash submission []) in
  exists w',
    anchorToBlockchains faults anchorToEthereum anchorToArbitrum anchorToStarknet
                        createVerificationHash submission [] w
    = (Ok tt, w') /\
    chains w' = snd (allSettled calls (chains w)) /\
    length (fst (allSettled calls (chains w))) = 3%nat /\
    proof w' = proof w.
Proof.
  intros calls.
  destruct (anchorToBlockchains_proof submission [] w)
    as (w' & Hrun & Hchains & Hproof & _).
  exists w'. split; [exact Hrun |]. split; [exact Hchains |].
  split; [now rewrite allSettled_length |].
  rewrite Hproof. now destruct (faults ProofUpdateMany).
Qed.

(** X29. Under every adapter behaviour and storage failure,
    [anchorToBlockchains] returns and keeps the [proof] table row for row:
    each row keeps its submission, rows of other submissions are identical,
    and a transaction hash that was stored is never removed (a rejected
    chain leaves its column alone). *)
Theorem anchoring_touches_only_submission_rows submission results (w : World C) :
  exists w',
    anchorToBlockchains faults anchorToEthereum anchorToArbitrum anchorToStarknet
                        createVerificationHash submission results w
    = (Ok tt, w') /\
    length (proof w') = length (proof w) /\
    forall i row,
      proof w !! i = Some row ->
      exists row',
        proof w' !! i = Some row' /\
        proof_submissionId row' = proof_submissionId row /\
        (proof_submissionId row <> submission_id submission -> row' = row) /\
        (is_Some (ethereumTxHash row) -> is_Some (ethereumTxHash row')) /\
        (is_Some (arbitrumTxHash row) -> is_Some (arbitrumTxHash row')) /\
        (is_Some (starknetTxHash row) -> is_Some (starknetTxHash row')).
Proof.
  destruct (anchorToBlockchains_proof submission results w)
    as (w' & Hrun & _ & Hproof & _).
  cbv zeta in Hproof.
  exists w'. split; [exact Hrun |].
  match type of Hproof with
  | context [map (applyUpdate ?sid ?data) _] =>
      assert (Hcases : proof w' = proof w
                       \/ proof w' = map (applyUpdate sid data) (proof w))
  end.
  { rewrite Hproof. destruct (faults ProofUpdateMany), results; auto.
    destruct (nonEmpty _); auto. }
  destruct Hcases as [-> | ->].
  - split; [reflexivity |]. intros i row Hrow. exists row. repeat split; auto.
  - split; [apply length_map |]. intros i row Hrow.
    eexists. split; [rewrite list_lookup_fmap, Hrow; reflexivity |].
    apply applyUpdate_keeps.
Qed.

End AnchoringRecords.

Lemma anchoring_all_chains_failing_witness :
  exists w',
    Verification.anchorToBlockchains
      Verification.noFaults Offline.ethereumAdapter Offline.arbitrumAdapter Offline.starknetAdapter
      Sample.digest Sample.submission [tt] Sample.verified
    = (Ok tt, w') /\
    Verification.proof w' = Verification.proof Sample.verified /\
    map Verification.status
        (fst (Verification.allSettled
                (Verification.anchorCalls
                   Offline.ethereumAdapter Offline.arbitrumAdapter Offline.starknetAdapter
                   (Sample.digest Sample.submission [tt]))
                (Verification.chains Sample.verified)))
    = ["rejected"; "rejected"; "rejected"]%string /\
    (Verification.noFaults Verification.VerificationLogCreate = None ->
     exists earlier,
       Verification.verificationLog w'
       = earlier
         ++ [{| Verification.log_submissionId :=
                  Verification.submission_id Sample.submission;
                Verification.log_level := INFO;
                Verification.log_message := "Blockchain anchoring completed";
                Verification.log_details :=
                  Some ["rejected"; "rejected"; "rejected"]%string |}]).
Proof.
  apply (anchoring_all_chains_failing
           Verification.noFaults Offline.ethereumAdapter Offline.arbitrumAdapter Offline.starknetAdapter
           Sample.digest Sample.submission [tt] Sample.verified).
  intros [| [| [| i]]] call Hcall; cbn in Hcall; simplify_eq; intros c;
    reflexivity.
Defined.
